(** * Protocol decoders of libsigrokdecode: EM4100 and JTAG / STM32

    A shallow embedding of [decoders/em4100/pd.py] and
    [decoders/jtag_stm32/jtag_stm32.py].  Both decoders are Python classes
    whose methods mutate the fields of [self], emit annotations through
    [self.put] and may raise.  They are embedded as computations in a monad
    that threads the decoder object, collects the annotations in the order
    they are emitted, and keeps both when an exception is raised.  The
    output channel [self.out_ann], which [start] registers before the first
    [decode], is that list of annotations.

    Numbers.  Python integers are [Z].  Python floats are embedded as the
    rationals they denote ([Q]): comparisons between an integer and a float
    are exact in Python, and the sums, differences and halvings the EM4100
    decoder performs on sample numbers are exact in binary64 as long as the
    sample numbers stay below 2^52.  The one place where binary64 can round
    is the quotient in [metadata]; for the configuration used in the end to
    end scenario the binary64 evaluation is carried out as well
    ([Binary64]). *)

From Stdlib Require Import ZArith QArith String Ascii List Bool Lia.
From Stdlib Require Import DecimalString HexadecimalString SpecFloat.
From stdpp Require Import base list strings gmap.

Local Open Scope string_scope.
Local Open Scope Z_scope.

(** ** Python primitives *)

Module Py.

(** The exceptions the two decoders can raise, their own and the
    built-in ones. *)
Inductive exn : Type :=
| TypeError
| IndexError
| KeyError
| ValueError
| ZeroDivisionError
| AttributeError (name : string)
| SamplerateError (msg : string)
| Exception (msg : string).

Inductive outcome (A : Type) : Type :=
| Ok (a : A)
| Raise (e : exn).
Arguments Ok {A} a.
Arguments Raise {A} e.

Definition is_raise {A : Type} (o : outcome A) : bool :=
  match o with Ok _ => false | Raise _ => true end.

(** [len(s)] *)
Definition len (s : string) : Z := Z.of_nat (String.length s).

(** [s[i]]: a one-character string; negative indices count from the end. *)
Definition index (s : string) (i : Z) : outcome string :=
  let j := if i <? 0 then i + len s else i in
  if (j <? 0) || (len s <=? j) then Raise IndexError
  else match String.get (Z.to_nat j) s with
       | Some c => Ok (String c "")
       | None => Raise IndexError
       end.

(** Slice bounds are clamped to [0, len]; a slice never raises. *)
Definition clamp (n i : Z) : Z :=
  if i <? 0 then Z.max (i + n) 0 else Z.min i n.

(** [s[lo:hi]], either bound optional. *)
Definition slice (s : string) (lo hi : option Z) : string :=
  let n := len s in
  let a := match lo with Some i => clamp n i | None => 0 end in
  let b := match hi with Some i => clamp n i | None => n end in
  String.substring (Z.to_nat a) (Z.to_nat (b - a)) s.

(** [s * n] *)
Fixpoint repeat_str (s : string) (n : nat) : string :=
  match n with
  | O => ""
  | S k => s ++ repeat_str s k
  end.

Definition lower_ascii (c : ascii) : ascii :=
  let n := nat_of_ascii c in
  if (65 <=? n)%nat && (n <=? 90)%nat then ascii_of_nat (n + 32) else c.

Definition upper_ascii (c : ascii) : ascii :=
  let n := nat_of_ascii c in
  if (97 <=? n)%nat && (n <=? 122)%nat then ascii_of_nat (n - 32) else c.

Fixpoint map_str (f : ascii -> ascii) (s : string) : string :=
  match s with
  | EmptyString => EmptyString
  | String c r => String (f c) (map_str f r)
  end.

(** [s.lower()] *)
Definition lower (s : string) : string := map_str lower_ascii s.

(** [a in b] for two strings: substring test. *)
Fixpoint contains (a b : string) : bool :=
  String.prefix a b ||
  match b with
  | EmptyString => false
  | String _ r => contains a r
  end.

(** [str(z)], ['%x' % z] and ['%X' % z] for an integer. *)
Definition str_int (z : Z) : string :=
  DecimalString.NilZero.string_of_int (Z.to_int z).
Definition hex_lower (z : Z) : string :=
  HexadecimalString.NilZero.string_of_int (Z.to_hex_int z).
Definition hex_upper (z : Z) : string := map_str upper_ascii (hex_lower z).

Fixpoint digits (base : Z) (s : string) (acc : Z) : option Z :=
  match s with
  | EmptyString => Some acc
  | String c r =>
      let d := Z.of_nat (nat_of_ascii c) - 48 in
      if (0 <=? d) && (d <? base) then digits base r (base * acc + d)
      else None
  end.

(** [int(s)] and [int(s, 2)] on a run of digits, after the ['0b'] prefix
    in base 2; an empty run or a character that is not a digit of the base
    is a [ValueError].  The signs, underscores and surrounding blanks that
    Python also accepts are not embedded: the bit strings of the JTAG
    decoder and the option values of the EM4100 decoder do not have
    them. *)
Definition int_of_digits (base : Z) (s : string) : outcome Z :=
  match s with
  | EmptyString => Raise ValueError
  | _ => match digits base s 0 with
         | Some z => Ok z
         | None => Raise ValueError
         end
  end.

Definition int_str (s : string) : outcome Z := int_of_digits 10 s.

Definition int_base2 (s : string) : outcome Z :=
  int_of_digits 2 (if String.prefix "0b" s then slice s (Some 2) None else s).

(** [int(x)] for a float: truncation towards zero. *)
Definition int_float (q : Q) : Z := Z.quot (Qnum q) (Z.pos (Qden q)).

(** Comparison of numbers, exact. *)
Definition Qltb (x y : Q) : bool := negb (Qle_bool y x).

(** The operands of [%]. *)
Inductive value : Type :=
| VStr (s : string)
| VInt (z : Z).

Definition str (v : value) : string :=
  match v with VStr s => s | VInt z => str_int z end.

(** [fmt % args] for the conversions [%s], [%x], [%X] and [%%].  Too few
    or too many operands raise [TypeError], as does a string under [%x];
    an operand that is not a tuple is a one-element [args]. *)
Fixpoint format (fmt : string) (args : list value) : outcome string :=
  match fmt with
  | EmptyString =>
      match args with
      | [] => Ok EmptyString
      | _ :: _ => Raise TypeError
      end
  | String "%" EmptyString => Raise ValueError
  | String "%" (String c rest) =>
      if Ascii.eqb c "%" then
        match format rest args with
        | Ok r => Ok (String "%" r)
        | Raise e => Raise e
        end
      else
        match args with
        | [] => Raise TypeError
        | v :: args' =>
            let conv :=
              if Ascii.eqb c "s" then Ok (str v)
              else if Ascii.eqb c "x" then
                match v with VInt z => Ok (hex_lower z) | VStr _ => Raise TypeError end
              else if Ascii.eqb c "X" then
                match v with VInt z => Ok (hex_upper z) | VStr _ => Raise TypeError end
              else Raise ValueError in
            match conv with
            | Ok t =>
                match format rest args' with
                | Ok r => Ok (t ++ r)
                | Raise e => Raise e
                end
            | Raise e => Raise e
            end
        end
  | String c rest =>
      match format rest args with
      | Ok r => Ok (String c r)
      | Raise e => Raise e
      end
  end.

End Py.

Import Py.

(** ** Annotations and the decoder monad *)

(** [self.put(ss, es, self.out_ann, [cls, texts])] *)
Record annotation : Type := Ann {
  ann_ss : Z;
  ann_es : Z;
  ann_class : Z;
  ann_text : list string
}.

(** A method of a decoder with fields [S]: from the object before the call
    to the outcome, the object after it and the annotations emitted, also
    when the outcome is an exception. *)
Definition M (S A : Type) : Type := S -> outcome A * S * list annotation.

Section Monad.
Context {S : Type}.

Definition ret {A : Type} (a : A) : M S A := fun s => (Ok a, s, []).

Definition bind {A B : Type} (m : M S A) (f : A -> M S B) : M S B :=
  fun s =>
    match m s with
    | (Ok a, s1, o1) =>
        match f a s1 with
        | (r, s2, o2) => (r, s2, (o1 ++ o2)%list)
        end
    | (Raise e, s1, o1) => (Raise e, s1, o1)
    end.

Definition raise {A : Type} (e : exn) : M S A := fun s => (Raise e, s, []).

Definition lift {A : Type} (o : outcome A) : M S A := fun s => (o, s, []).

Definition gets {A : Type} (f : S -> A) : M S A := fun s => (Ok (f s), s, []).

Definition modify (f : S -> S) : M S unit := fun s => (Ok tt, f s, []).

Definition emit (a : annotation) : M S unit := fun s => (Ok tt, s, [a]).

(** [if c: body] *)
Definition when (c : bool) (body : M S unit) : M S unit :=
  if c then body else ret tt.

(** [for x in l: body] *)
Fixpoint for_each {A : Type} (l : list A) (body : A -> M S unit) : M S unit :=
  match l with
  | [] => ret tt
  | x :: r => bind (body x) (fun _ => for_each r body)
  end.
End Monad.

Definition result_of {S A : Type} (r : outcome A * S * list annotation) : outcome A :=
  fst (fst r).
Definition object_of {S A : Type} (r : outcome A * S * list annotation) : S :=
  snd (fst r).
Definition output_of {S A : Type} (r : outcome A * S * list annotation) : list annotation :=
  snd r.

(** [sat I P E m]: started on an object that satisfies [I], the method [m]
    ends on one that does, emits only annotations that satisfy [P] and
    raises only exceptions that satisfy [E]. *)
Definition sat {S A : Type} (I : S -> Prop) (P : annotation -> Prop)
    (E : exn -> Prop) (m : M S A) : Prop :=
  forall s, I s ->
    I (object_of (m s)) /\
    Forall P (output_of (m s)) /\
    (forall e, result_of (m s) = Raise e -> E e).

Notation "'let!' x ':=' c 'in' k" := (bind c (fun x => k))
  (at level 10, x name, c at level 100, k at level 200).
Notation "c ';;;' k" := (bind c (fun _ => k))
  (at level 100, k at level 200, right associativity).


(** ** The JTAG / STM32 decoder ([decoders/jtag_stm32/jtag_stm32.py]) *)

Module JtagStm32.

(** JTAG debug port data registers (in IR[3:0]) and their sizes. *)
Definition ir : gmap string (string * Z) :=
  list_to_map [
    ("1111", ("BYPASS", 1));
    ("1110", ("IDCODE", 32));
    ("1010", ("DPACC", 35));
    ("1011", ("APACC", 35));
    ("1000", ("ABORT", 35))
  ].

(** ACK[2:0] in the DPACC/APACC registers. *)
Definition ack_val : gmap string string :=
  list_to_map [
    ("000", "Reserved");
    ("001", "WAIT");
    ("010", "OK/FAULT");
    ("011", "Reserved");
    ("100", "Reserved");
    ("101", "Reserved");
    ("110", "Reserved");
    ("111", "Reserved")
  ].

(** 32bit debug port registers (addressed via A[3:2]). *)
Definition reg : gmap string string :=
  list_to_map [
    ("00", "Reserved");
    ("01", "DP CTRL/STAT");
    ("10", "DP SELECT");
    ("11", "DP RDBUFF")
  ].

(** [d[k]] on a dictionary with string keys. *)
Definition subscript {V : Type} (d : gmap string V) (k : string) : outcome V :=
  match d !! k with
  | Some v => Ok v
  | None => Raise KeyError
  end.

(** The fields of the decoder object.  [__init__] sets [state] only;
    [ss] and [es] exist once [decode] has assigned them. *)
Record Decoder : Type := {
  state : string;
  ss : option Z;
  es : option Z
}.

Definition init : Decoder := {| state := "IDLE"; ss := None; es := None |}.

Definition set_state (v : string) (d : Decoder) : Decoder :=
  {| state := v; ss := ss d; es := es d |}.
Definition set_ss (v : Z) (d : Decoder) : Decoder :=
  {| state := state d; ss := Some v; es := es d |}.
Definition set_es (v : Z) (d : Decoder) : Decoder :=
  {| state := state d; ss := ss d; es := Some v |}.

(** Reading an attribute that has not been assigned yet. *)
Definition attr {A : Type} (name : string) (f : Decoder -> option A) : M Decoder A :=
  fun d =>
    match f d with
    | Some v => (Ok v, d, [])
    | None => (Raise (AttributeError name), d, [])
    end.

(** [self.put(self.ss, self.es, self.out_ann, [cls, texts])]: the
    arguments are evaluated from left to right, so [texts] is computed
    after the two positions are read and before anything is emitted. *)
Definition put (cls : Z) (texts : outcome (list string)) : M Decoder unit :=
  let! s := attr "ss" ss in
  let! e := attr "es" es in
  let! t := lift texts in
  emit (Ann s e cls t).

Definition fmt1 (fmt : string) (args : list value) : outcome (list string) :=
  match format fmt args with
  | Ok s => Ok [s]
  | Raise e => Raise e
  end.

Definition handle_reg_bypass (bits : string) : M Decoder unit :=
  put 0 (Ok ["BYPASS: " ++ bits]).

Definition handle_reg_idcode (bits : string) : M Decoder unit :=
  put 0 (match int_base2 ("0b" ++ bits) with
         | Ok n => fmt1 "IDCODE: 0x%x" [VInt n]
         | Raise e => Raise e
         end).

(** The body shared, word for word, by [handle_reg_dpacc] and
    [handle_reg_apacc]; only the label of the first annotation differs. *)
Definition handle_reg_acc (label : string) (bits : string) : M Decoder unit :=
  put 0 (Ok [label ++ bits]) ;;;
  (* Data IN *)
  let data := slice bits None (Some (-3)) in
  let a := slice bits (Some (-3)) (Some (-1)) in
  let! rnw := lift (index bits (-1)) in
  let! n := lift (int_base2 ("0b" ++ data)) in
  let! data_hex := lift (format "0x%x" [VInt n]) in
  let r := if String.eqb rnw "1" then "Read request" else "Write request" in
  let! ra := lift (subscript reg a) in
  let! s := lift (format "DATA: %s, A: %s, RnW: %s" [VStr data_hex; VStr ra; VStr r]) in
  put 0 (Ok [s]) ;;;
  (* Data OUT *)
  let data := slice bits None (Some (-3)) in
  let ack := slice bits (Some (-3)) None in
  let! n := lift (int_base2 ("0b" ++ data)) in
  let! data_hex := lift (format "0x%x" [VInt n]) in
  let! ack_meaning := lift (subscript ack_val ack) in
  let! s := lift (format "DATA: %s, ACK: %s" [VStr data_hex; VStr ack_meaning]) in
  put 0 (Ok [s]).

Definition handle_reg_dpacc : string -> M Decoder unit := handle_reg_acc "DPACC: ".
Definition handle_reg_apacc : string -> M Decoder unit := handle_reg_acc "APACC: ".

Definition handle_reg_abort (bits : string) : M Decoder unit :=
  (* Bits[31:1]: reserved. Bit[0]: DAPABORT. *)
  let! b0 := lift (index bits 0) in
  let a := if String.eqb b0 "1" then "" else "No " in
  let! b0' := lift (index bits 0) in
  let! s := lift (format "DAPABORT = %s: %sDAP abort generated" [VStr b0'; VStr a]) in
  put 0 (Ok [s]) ;;;
  (* Warn if DAPABORT[31:1] contains non-zero bits. *)
  when (negb (String.eqb (slice bits None (Some (-1))) (repeat_str "0" 31)))
    (put 0 (Ok ["WARNING: DAPABORT[31:1] reserved!"])).

Definition handle_reg_unknown (bits : string) : M Decoder unit :=
  put 0 (fmt1 "Unknown instruction: " [VStr bits]).

(** [getattr(self, name)] for the names [decode] builds. *)
Definition methods : gmap string (string -> M Decoder unit) :=
  list_to_map [
    ("handle_reg_bypass", handle_reg_bypass);
    ("handle_reg_idcode", handle_reg_idcode);
    ("handle_reg_dpacc", handle_reg_dpacc);
    ("handle_reg_apacc", handle_reg_apacc);
    ("handle_reg_abort", handle_reg_abort);
    ("handle_reg_unknown", handle_reg_unknown)
  ].

Definition getattr (name : string) : M Decoder (string -> M Decoder unit) :=
  match methods !! name with
  | Some h => ret h
  | None => raise (AttributeError name)
  end.

Definition mem (x : string) (l : list string) : bool := existsb (String.eqb x) l.

(** [decode(self, ss, es, data)] with [cmd, val = data].  An early
    [return] is the [ret tt] branch of the test that guards it. *)
Definition decode (ss_ es_ : Z) (data : string * string) : M Decoder unit :=
  let cmd := fst data in
  let val := snd data in
  modify (set_ss ss_) ;;;
  modify (set_es es_) ;;;
  let! st := gets state in
  if String.eqb st "IDLE" then
    if negb (String.eqb cmd "IR TDI") then ret tt
    else
      modify (set_state
                (fst (default ("UNKNOWN", 0) (ir !! slice val (Some (-4)) None)))) ;;;
      let! st' := gets state in
      put 0 (Ok ["IR: " ++ st'])
  else if contains st "BYPASS" then
    if negb (String.eqb cmd "DR TDI") then ret tt
    else
      let! st1 := gets state in
      let! name := lift (format "handle_reg_%s" [VStr (lower st1)]) in
      let! handle_reg := getattr name in
      handle_reg val ;;;
      modify (set_state "IDLE")
  else if mem st ["IDCODE"; "DPACC"; "APACC"; "ABORT"; "UNKNOWN"] then
    if negb (mem cmd ["DR TDI"; "DR TDO"]) then ret tt
    else
      let! st1 := gets state in
      let! name := lift (format "handle_reg_%s" [VStr (lower st1)]) in
      let! handle_reg := getattr name in
      handle_reg val ;;;
      modify (set_state "IDLE")
  else
    let! st1 := gets state in
    let! msg := lift (format "Invalid state: %s" [VStr st1]) in
    raise (Exception msg).

(** The state [decode] selects in ['IDLE']: the last four characters of
    the bit string are looked up in [ir], and a pattern outside the table
    selects ['UNKNOWN']. *)
Definition select (val : string) : string :=
  fst (default ("UNKNOWN", 0) (ir !! slice val (Some (-4)) None)).

(** A sequence of [decode] calls on one decoder object, as the host makes
    them; it stops at the first exception. *)
Definition decode_all (calls : list (Z * Z * (string * string))) : M Decoder unit :=
  for_each calls (fun c => decode (fst (fst c)) (snd (fst c)) (snd c)).

End JtagStm32.

(** ** The EM4100 decoder ([decoders/em4100/pd.py]) *)

Module Em4100.

(** [srd.SRD_CONF_SAMPLERATE], the key under which the host hands the
    samplerate to [metadata]; it is declared in the library's C header. *)
Definition SRD_CONF_SAMPLERATE : Z := 10000.

(** [self.options]: the host stores every option as a string. *)
Record Options : Type := {
  opt_polarity : string;
  opt_datarate : string;
  opt_coilfreq : string
}.

Definition default_options : Options :=
  {| opt_polarity := "active-high"; opt_datarate := "64"; opt_coilfreq := "125000" |}.

(** [self.state] takes the three values ['HEADER'], ['PAYLOAD'] and
    ['TRAILER'] only. *)
Inductive frame_state : Type := HEADER | PAYLOAD | TRAILER.

(** The fields of the decoder object, in the order of [__init__].  The
    counters [first_one], [data_bits] and [payload_cnt] start at zero and
    are only incremented or reset, hence [nat].  [polarity] is created by
    [metadata], not by [__init__].  [first_start] and [data_start] hold a
    bit start, which may be a float. *)
Record Decoder : Type := {
  options : Options;
  samplerate : option Z;
  oldpin : option Z;
  last_samplenum : option Z;
  lastlast_samplenum : option Z;
  last_edge : Z;
  bit_width : Q;
  halfbit_limit : Q;
  polarity : option Z;
  oldpp : Z;
  oldpl : Z;
  oldsamplenum : Z;
  last_bit_pos : Z;
  first_start : Q;
  first_one : nat;
  state : frame_state;
  data : Z;
  data_bits : nat;
  data_start : Q;
  data_parity : Z;
  payload_cnt : nat;
  data_col_parity : list Z;
  col_parity : list Z
}.

(** [self.f = v], one definition for each field that is assigned. *)
Definition set_samplerate (x : option Z) (self : Decoder) : Decoder :=
  let 'Build_Decoder a b c d e f g h i j k l m n o p q r s t u v w := self in
  Build_Decoder a x c d e f g h i j k l m n o p q r s t u v w.
Definition set_oldpin (x : option Z) (self : Decoder) : Decoder :=
  let 'Build_Decoder a b c d e f g h i j k l m n o p q r s t u v w := self in
  Build_Decoder a b x d e f g h i j k l m n o p q r s t u v w.
Definition set_last_samplenum (x : option Z) (self : Decoder) : Decoder :=
  let 'Build_Decoder a b c d e f g h i j k l m n o p q r s t u v w := self in
  Build_Decoder a b c x e f g h i j k l m n o p q r s t u v w.
Definition set_lastlast_samplenum (x : option Z) (self : Decoder) : Decoder :=
  let 'Build_Decoder a b c d e f g h i j k l m n o p q r s t u v w := self in
  Build_Decoder a b c d x f g h i j k l m n o p q r s t u v w.
Definition set_last_edge (x : Z) (self : Decoder) : Decoder :=
  let 'Build_Decoder a b c d e f g h i j k l m n o p q r s t u v w := self in
  Build_Decoder a b c d e x g h i j k l m n o p q r s t u v w.
Definition set_bit_width (x : Q) (self : Decoder) : Decoder :=
  let 'Build_Decoder a b c d e f g h i j k l m n o p q r s t u v w := self in
  Build_Decoder a b c d e f x h i j k l m n o p q r s t u v w.
Definition set_halfbit_limit (x : Q) (self : Decoder) : Decoder :=
  let 'Build_Decoder a b c d e f g h i j k l m n o p q r s t u v w := self in
  Build_Decoder a b c d e f g x i j k l m n o p q r s t u v w.
Definition set_polarity (x : option Z) (self : Decoder) : Decoder :=
  let 'Build_Decoder a b c d e f g h i j k l m n o p q r s t u v w := self in
  Build_Decoder a b c d e f g h x j k l m n o p q r s t u v w.
Definition set_oldpp (x : Z) (self : Decoder) : Decoder :=
  let 'Build_Decoder a b c d e f g h i j k l m n o p q r s t u v w := self in
  Build_Decoder a b c d e f g h i x k l m n o p q r s t u v w.
Definition set_oldpl (x : Z) (self : Decoder) : Decoder :=
  let 'Build_Decoder a b c d e f g h i j k l m n o p q r s t u v w := self in
  Build_Decoder a b c d e f g h i j x l m n o p q r s t u v w.
Definition set_oldsamplenum (x : Z) (self : Decoder) : Decoder :=
  let 'Build_Decoder a b c d e f g h i j k l m n o p q r s t u v w := self in
  Build_Decoder a b c d e f g h i j k x m n o p q r s t u v w.
Definition set_last_bit_pos (x : Z) (self : Decoder) : Decoder :=
  let 'Build_Decoder a b c d e f g h i j k l m n o p q r s t u v w := self in
  Build_Decoder a b c d e f g h i j k l x n o p q r s t u v w.
Definition set_first_start (x : Q) (self : Decoder) : Decoder :=
  let 'Build_Decoder a b c d e f g h i j k l m n o p q r s t u v w := self in
  Build_Decoder a b c d e f g h i j k l m x o p q r s t u v w.
Definition set_first_one (x : nat) (self : Decoder) : Decoder :=
  let 'Build_Decoder a b c d e f g h i j k l m n o p q r s t u v w := self in
  Build_Decoder a b c d e f g h i j k l m n x p q r s t u v w.
Definition set_state (x : frame_state) (self : Decoder) : Decoder :=
  let 'Build_Decoder a b c d e f g h i j k l m n o p q r s t u v w := self in
  Build_Decoder a b c d e f g h i j k l m n o x q r s t u v w.
Definition set_data (x : Z) (self : Decoder) : Decoder :=
  let 'Build_Decoder a b c d e f g h i j k l m n o p q r s t u v w := self in
  Build_Decoder a b c d e f g h i j k l m n o p x r s t u v w.
Definition set_data_bits (x : nat) (self : Decoder) : Decoder :=
  let 'Build_Decoder a b c d e f g h i j k l m n o p q r s t u v w := self in
  Build_Decoder a b c d e f g h i j k l m n o p q x s t u v w.
Definition set_data_start (x : Q) (self : Decoder) : Decoder :=
  let 'Build_Decoder a b c d e f g h i j k l m n o p q r s t u v w := self in
  Build_Decoder a b c d e f g h i j k l m n o p q r x t u v w.
Definition set_data_parity (x : Z) (self : Decoder) : Decoder :=
  let 'Build_Decoder a b c d e f g h i j k l m n o p q r s t u v w := self in
  Build_Decoder a b c d e f g h i j k l m n o p q r s x u v w.
Definition set_payload_cnt (x : nat) (self : Decoder) : Decoder :=
  let 'Build_Decoder a b c d e f g h i j k l m n o p q r s t u v w := self in
  Build_Decoder a b c d e f g h i j k l m n o p q r s t x v w.
Definition set_data_col_parity (x : list Z) (self : Decoder) : Decoder :=
  let 'Build_Decoder a b c d e f g h i j k l m n o p q r s t u v w := self in
  Build_Decoder a b c d e f g h i j k l m n o p q r s t u x w.
Definition set_col_parity (x : list Z) (self : Decoder) : Decoder :=
  let 'Build_Decoder a b c d e f g h i j k l m n o p q r s t u v w := self in
  Build_Decoder a b c d e f g h i j k l m n o p q r s t u v x.

Definition init (o : Options) : Decoder := {|
  options := o;
  samplerate := None;
  oldpin := None;
  last_samplenum := None;
  lastlast_samplenum := None;
  last_edge := 0;
  bit_width := 0;
  halfbit_limit := 0;
  polarity := None;
  oldpp := 0;
  oldpl := 0;
  oldsamplenum := 0;
  last_bit_pos := 0;
  first_start := 0;
  first_one := 0;
  state := HEADER;
  data := 0;
  data_bits := 0;
  data_start := 0;
  data_parity := 0;
  payload_cnt := 0;
  data_col_parity := [0; 0; 0; 0; 0; 0];
  col_parity := [0; 0; 0; 0; 0; 0]
|}.

(** Reading an attribute that may not have been created yet. *)
Definition attr {A : Type} (name : string) (f : Decoder -> option A) : M Decoder A :=
  fun d =>
    match f d with
    | Some v => (Ok v, d, [])
    | None => (Raise (AttributeError name), d, [])
    end.

(** [a / b] on integers, where either may be [None]: true division. *)
Definition true_div (a b : option Z) : outcome Q :=
  match a, b with
  | Some x, Some y =>
      if y =? 0 then Raise ZeroDivisionError else Ok (inject_Z x / inject_Z y)%Q
  | _, _ => Raise TypeError
  end.

(** [x / 2] for an integer [x]. *)
Definition half (x : Z) : Q := (inject_Z x / 2)%Q.

(** [l[i]] and [l[i] = v] on a list. *)
Definition item (l : list Z) (i : nat) : M Decoder Z :=
  match l !! i with
  | Some v => ret v
  | None => raise IndexError
  end.

Definition store (l : list Z) (i : nat) (v : Z) : M Decoder (list Z) :=
  if (i <? length l)%nat then ret (<[i := v]> l) else raise IndexError.

(** [not x] for a samplerate: true on [None] and on zero. *)
Definition falsy (x : option Z) : bool :=
  match x with
  | None => true
  | Some v => v =? 0
  end.

Definition metadata (key value : Z) : M Decoder unit :=
  when (key =? SRD_CONF_SAMPLERATE) (modify (set_samplerate (Some value))) ;;;
  let! sr := gets samplerate in
  let! o := gets options in
  let! cf := lift (int_str (opt_coilfreq o)) in
  let! q := lift (true_div sr (Some cf)) in
  let! dr := lift (int_str (opt_datarate o)) in
  modify (set_bit_width (q * inject_Z dr)%Q) ;;;
  let! bw := gets bit_width in
  modify (set_halfbit_limit (bw / 2 + bw / 4)%Q) ;;;
  modify (set_polarity
            (Some (if String.eqb (opt_polarity o) "active-low" then 0 else 1))).

(** [self.put(ss, es, self.out_ann, [cls, texts])] *)
Definition put (ss es cls : Z) (texts : list string) : M Decoder unit :=
  emit (Ann ss es cls texts).

Definition OK_strings : list string := ["OK"; "O"].
Definition ERROR_strings : list string := ["ERROR"; "ERR"; "ER"; "E"].

(** The [HEADER] block of [add_bit]. *)
Definition add_bit_header (bit : Z) (bit_start bit_stop : Q) : M Decoder unit :=
  let! returned :=
    (if bit =? 1 then
       let! f := gets first_one in
       when (0 <? f)%nat (modify (set_first_one (f + 1)%nat)) ;;;
       let! f := gets first_one in
       if (f =? 9)%nat then
         let! fs := gets first_start in
         put (int_float fs) (int_float bit_stop) 1 ["Header"; "Head"; "He"; "H"] ;;;
         modify (set_first_one 0%nat) ;;;
         modify (set_state PAYLOAD) ;;;
         ret true
       else
         let! f := gets first_one in
         when (f =? 0)%nat
           (modify (set_first_one 1%nat) ;;;
            modify (set_first_start bit_start)) ;;;
         ret false
     else ret false) in
  if (returned : bool) then ret tt
  else when (bit =? 0) (modify (set_first_one 0%nat)).

(** The [PAYLOAD] block of [add_bit]. *)
Definition add_bit_payload (bit : Z) (bit_start bit_stop : Q) : M Decoder unit :=
  let! c := gets payload_cnt in
  modify (set_payload_cnt (c + 1)%nat) ;;;
  let! n := gets data_bits in
  when (n =? 0)%nat
    (modify (set_data_start bit_start) ;;;
     modify (set_data 0) ;;;
     modify (set_data_parity 0)) ;;;
  let! n := gets data_bits in
  modify (set_data_bits (n + 1)%nat) ;;;
  let! n := gets data_bits in
  when (n =? 5)%nat
    (let! ds := gets data_start in
     put (int_float ds) (int_float bit_start) 2 ["Data"; "Da"; "D"] ;;;
     put (int_float bit_start) (int_float bit_stop) 4 ["Parity"; "Par"; "Pa"; "P"] ;;;
     let! ds := gets data_start in
     let! v := gets data in
     let! hex := lift (format "%X" [VInt v]) in
     put (int_float ds) (int_float bit_start) 3 [hex] ;;;
     let! dp := gets data_parity in
     let p_string := if dp =? bit then OK_strings else ERROR_strings in
     put (int_float bit_start) (int_float bit_stop) 6 p_string ;;;
     modify (set_data_bits 0%nat) ;;;
     let! c := gets payload_cnt in
     when (c =? 50)%nat
       (modify (set_state TRAILER) ;;;
        modify (set_payload_cnt 0%nat))) ;;;
  let! dp := gets data_parity in
  modify (set_data_parity (Z.lxor dp bit)) ;;;
  let! l := gets data_col_parity in
  let! n := gets data_bits in
  let! x := item l n in
  let! l' := store l n (Z.lxor x bit) in
  modify (set_data_col_parity l') ;;;
  let! v := gets data in
  modify (set_data (Z.lor (Z.shiftl v 1) bit)).

(** The nested comparisons of the [TRAILER] block: the four column
    accumulators against the four trailer bits, left to right. *)
Definition columns_match : M Decoder bool :=
  let! a := gets data_col_parity in
  let! b := gets col_parity in
  let! a1 := item a 1 in
  let! b1 := item b 1 in
  if negb (a1 =? b1) then ret false else
  let! a2 := item a 2 in
  let! b2 := item b 2 in
  if negb (a2 =? b2) then ret false else
  let! a3 := item a 3 in
  let! b3 := item b 3 in
  if negb (a3 =? b3) then ret false else
  let! a4 := item a 4 in
  let! b4 := item b 4 in
  ret (a4 =? b4).

(** The [TRAILER] block of [add_bit]. *)
Definition add_bit_trailer (bit : Z) (bit_start bit_stop : Q) : M Decoder unit :=
  let! c := gets payload_cnt in
  modify (set_payload_cnt (c + 1)%nat) ;;;
  let! n := gets data_bits in
  when (n =? 0)%nat
    (modify (set_data_start bit_start) ;;;
     modify (set_data 0) ;;;
     modify (set_data_parity 0)) ;;;
  let! n := gets data_bits in
  modify (set_data_bits (n + 1)%nat) ;;;
  let! l := gets col_parity in
  let! n := gets data_bits in
  let! l' := store l n bit in
  modify (set_col_parity l') ;;;
  let! n := gets data_bits in
  when (n =? 5)%nat
    (let! ok := columns_match in
     let p_string := if (ok : bool) then OK_strings else ERROR_strings in
     let! ds := gets data_start in
     put (int_float ds) (int_float bit_start) 4 ["Column parity"; "Col par"; "CP"; "P"] ;;;
     put (int_float bit_start) (int_float bit_stop) 4 ["Stop bit"; "St bi"; "SB"; "S"] ;;;
     let! ds := gets data_start in
     put (int_float ds) (int_float bit_start) 6 p_string ;;;
     modify (set_data_bits 0%nat) ;;;
     let! c := gets payload_cnt in
     when (c =? 5)%nat
       (modify (set_state HEADER) ;;;
        modify (set_payload_cnt 0%nat) ;;;
        modify (set_data_col_parity [0; 0; 0; 0; 0; 0]) ;;;
        modify (set_col_parity [0; 0; 0; 0; 0; 0]))).

(** [add_bit]: each of the three blocks ends the call. *)
Definition add_bit (bit : Z) (bit_start bit_stop : Q) : M Decoder unit :=
  let! st := gets state in
  match st with
  | HEADER => add_bit_header bit bit_start bit_stop
  | PAYLOAD => add_bit_payload bit bit_start bit_stop
  | TRAILER => add_bit_trailer bit bit_start bit_stop
  end.

Definition putbit (bit : Z) (bit_start bit_stop : Q) : M Decoder unit :=
  put (int_float bit_start) (int_float bit_stop) 0 [str_int bit] ;;;
  add_bit bit bit_start bit_stop.

(** The two tests on a pulse length: [x > self.halfbit_limit] and
    [x < self.halfbit_limit]; [x <= self.halfbit_limit] is [Qle_bool]. *)
Definition is_long (limit : Q) (x : Z) : bool := Qltb limit (inject_Z x).
Definition is_short (limit : Q) (x : Z) : bool := Qltb (inject_Z x) limit.

Definition manchester_decode (samplenum pl pp pin : Z) : M Decoder unit :=
  let! op := gets oldpin in
  let! pol := attr "polarity" polarity in
  let! bit := match op with
              | Some o => ret (Z.lxor o pol)
              | None => raise TypeError
              end in
  let! lim := gets halfbit_limit in
  when (is_long lim pl)
    (let! osn := gets oldsamplenum in
     let samples := samplenum - osn in
     let! sr := gets samplerate in
     let! t := lift (true_div (Some samples) sr) in
     let! opl := gets oldpl in
     let! lim := gets halfbit_limit in
     when (is_long lim opl)
       (let! osn := gets oldsamplenum in
        let! opl := gets oldpl in
        let bit_start := int_float (inject_Z osn - half opl)%Q in
        let bit_stop := int_float (inject_Z samplenum - half pl)%Q in
        putbit bit (inject_Z bit_start) (inject_Z bit_stop)) ;;;
     let! opl := gets oldpl in
     let! lim := gets halfbit_limit in
     when (Qle_bool (inject_Z opl) lim)
       (let! osn := gets oldsamplenum in
        let! opl := gets oldpl in
        let bit_start := osn - opl in
        let bit_stop := int_float (inject_Z samplenum - half pl)%Q in
        putbit bit (inject_Z bit_start) (inject_Z bit_stop)) ;;;
     modify (set_last_bit_pos (int_float (inject_Z samplenum - half pl)%Q))) ;;;
  let! lim := gets halfbit_limit in
  when (is_short lim pl)
    (let! osn := gets oldsamplenum in
     let samples := samplenum - osn in
     let! sr := gets samplerate in
     let! t := lift (true_div (Some samples) sr) in
     let! opl := gets oldpl in
     let! lim := gets halfbit_limit in
     when (is_long lim opl)
       (let! osn := gets oldsamplenum in
        let! opl := gets oldpl in
        let bit_start := (inject_Z osn - half opl)%Q in
        let bit_stop := samplenum in
        putbit bit bit_start (inject_Z bit_stop) ;;;
        modify (set_last_bit_pos samplenum)) ;;;
     let! opl := gets oldpl in
     let! lim := gets halfbit_limit in
     when (Qle_bool (inject_Z opl) lim)
       (let! lbp := gets last_bit_pos in
        let! osn := gets oldsamplenum in
        let! opl := gets oldpl in
        when (lbp <=? osn - opl)
          (let! osn := gets oldsamplenum in
           let! opl := gets oldpl in
           let bit_start := osn - opl in
           let bit_stop := samplenum in
           putbit bit (inject_Z bit_start) (inject_Z bit_stop) ;;;
           modify (set_last_bit_pos samplenum)))).

(** [self.oldpin == pin] *)
Definition same_pin (op : option Z) (pin : Z) : bool :=
  match op with
  | Some o => o =? pin
  | None => false
  end.

(** The body of the loop of [decode], for one [(samplenum, (pin,))]; a
    [continue] is the [ret tt] branch of the test that guards it. *)
Definition decode_sample (s : Z * Z) : M Decoder unit :=
  let samplenum := fst s in
  let pin := snd s in
  let! op := gets oldpin in
  (* Ignore identical samples early on (for performance reasons). *)
  if same_pin op pin then ret tt
  else
    let! op := gets oldpin in
    match op with
    | None =>
        modify (set_oldpin (Some pin)) ;;;
        modify (set_last_samplenum (Some samplenum)) ;;;
        modify (set_lastlast_samplenum (Some samplenum)) ;;;
        modify (set_last_edge samplenum) ;;;
        modify (set_oldpl 0) ;;;
        modify (set_oldpp 0) ;;;
        modify (set_oldsamplenum 0) ;;;
        modify (set_last_bit_pos 0)
    | Some _ =>
        let! op := gets oldpin in
        when (negb (same_pin op pin))
          (let! osn := gets oldsamplenum in
           let pl := samplenum - osn in
           let pp := pin in
           manchester_decode samplenum pl pp pin ;;;
           modify (set_oldpl pl) ;;;
           modify (set_oldpp pp) ;;;
           modify (set_oldsamplenum samplenum) ;;;
           modify (set_oldpin (Some pin)))
    end.

Definition decode (ss es : Z) (data : list (Z * Z)) : M Decoder unit :=
  let! sr := gets samplerate in
  if falsy sr then raise (SamplerateError "Cannot decode without samplerate.")
  else for_each data decode_sample.

(** The fields [add_bit] never assigns: the options, the timing
    configuration and the edge tracking of [decode]. *)
Definition edge (d : Decoder) :=
  (options d, samplerate d, oldpin d, last_samplenum d, lastlast_samplenum d,
   last_edge d, bit_width d, halfbit_limit d, polarity d, oldpp d, oldpl d,
   oldsamplenum d, last_bit_pos d).

(** A symbol of the bit assembler: the bit, its start and its stop.  A
    sequence of symbols is handed to the frame state machine one [add_bit]
    at a time. *)
Definition symbol : Type := Z * Q * Q.
Definition bit_of (s : symbol) : Z := fst (fst s).
Definition start_of (s : symbol) : Q := snd (fst s).
Definition stop_of (s : symbol) : Q := snd s.

Definition feed (syms : list symbol) : M Decoder unit :=
  for_each syms (fun s => add_bit (bit_of s) (start_of s) (stop_of s)).

(** A payload row: four data symbols and the row parity symbol. *)
Record row : Type := Row {
  d1 : symbol;
  d2 : symbol;
  d3 : symbol;
  d4 : symbol;
  rp : symbol
}.

Definition row_symbols (r : row) : list symbol := [d1 r; d2 r; d3 r; d4 r; rp r].

Definition payload_symbols (rows : list row) : list symbol :=
  flat_map row_symbols rows.

(** The XOR of the four data bits of a row, the nibble they spell, and the
    XOR of one data position down the rows, starting from [acc]. *)
Definition row_xor (r : row) : Z :=
  Z.lxor (Z.lxor (Z.lxor (bit_of (d1 r)) (bit_of (d2 r))) (bit_of (d3 r)))
         (bit_of (d4 r)).

Definition nibble (r : row) : Z :=
  Z.lor (Z.shiftl
    (Z.lor (Z.shiftl
      (Z.lor (Z.shiftl (bit_of (d1 r)) 1) (bit_of (d2 r))) 1) (bit_of (d3 r))) 1)
    (bit_of (d4 r)).

Definition column (sel : row -> symbol) (rows : list row) (acc : Z) : Z :=
  fold_left (fun a r => Z.lxor a (bit_of (sel r))) rows acc.

Definition verdict (ok : bool) : list string :=
  if ok then OK_strings else ERROR_strings.

(** Exceptions other than the configuration error. *)
Definition not_samplerate_error (e : exn) : Prop :=
  forall msg, e <> SamplerateError msg.

(** The decoder as the host configures it in the end to end scenario:
    default options and a samplerate of 1 MHz. *)
Definition configured : Decoder :=
  object_of (metadata SRD_CONF_SAMPLERATE 1000000 (init default_options)).

(** A header of nine ones, after which [configured] is at the start of a
    payload; a row that spells the nibble [A] with even parity. *)
Definition header_symbols : list symbol :=
  map (fun i => (1, inject_Z (512 * i), inject_Z (512 * (i + 1))))
      [0; 1; 2; 3; 4; 5; 6; 7; 8].

Definition in_payload : Decoder := object_of (feed header_symbols configured).

Definition example_row : row :=
  Row (1, 0%Q, 512%Q) (0, 512%Q, 1024%Q) (1, 1024%Q, 1536%Q) (0, 1536%Q, 2048%Q)
      (0, 2048%Q, 2560%Q).

(** The polarity flag as the specification words it: invert on read
    exactly for ['active-low']. *)
Definition spec_invert_flag (o : Options) : Z :=
  if String.eqb (opt_polarity o) "active-low" then 1 else 0.

(** The texts of the last annotation of a run: after a trailer, the
    column parity verdict. *)
Definition last_text {A : Type} (r : outcome A * Decoder * list annotation)
    : option (list string) :=
  ann_text <$> last (output_of r).

(** A symbol with its bit flipped. *)
Definition flip (s : symbol) : symbol := (Z.lxor (bit_of s) 1, start_of s, stop_of s).

End Em4100.

(** ** The timing derivation of [metadata] in IEEE 754 binary64

    The arithmetic of [metadata] as Python carries it out, on correctly
    rounded binary64 numbers, for integer inputs that are exactly
    representable. *)

Module Binary64.

Definition prec : Z := 53.
Definition emax : Z := 1024.

Definition of_Z (z : Z) : spec_float := binary_normalize prec emax z 0 false.
Definition div : spec_float -> spec_float -> spec_float := SFdiv prec emax.
Definition mul : spec_float -> spec_float -> spec_float := SFmul prec emax.
Definition add : spec_float -> spec_float -> spec_float := SFadd prec emax.

(** The rational a finite binary64 number denotes. *)
Definition to_Q (x : spec_float) : option Q :=
  match x with
  | S754_zero _ => Some 0%Q
  | S754_finite s m e =>
      let v := (inject_Z (Z.pos m) * Qpower 2 e)%Q in
      Some (if s then Qopp v else v)
  | _ => None
  end.

Definition bit_width (samplerate coilfreq datarate : Z) : spec_float :=
  mul (div (of_Z samplerate) (of_Z coilfreq)) (of_Z datarate).

Definition halfbit_limit (bit_width : spec_float) : spec_float :=
  add (div bit_width (of_Z 2)) (div bit_width (of_Z 4)).

End Binary64.

(** ** Vocabulary for the statements on the JTAG decoder *)

Module JtagStm32Aux.
Import JtagStm32.

(** The seven values [self.state] is meant to take. *)
Definition states : list string :=
  ["IDLE"; "BYPASS"; "IDCODE"; "DPACC"; "APACC"; "ABORT"; "UNKNOWN"].

(** Python's built-in exceptions, as opposed to the two the decoders raise
    themselves. *)
Definition builtin (e : exn) : Prop :=
  match e with
  | Exception _ | SamplerateError _ => False
  | _ => True
  end.

(** A bit string: every character is ['0'] or ['1']. *)
Fixpoint is_bits (s : string) : bool :=
  match s with
  | EmptyString => true
  | String c r => (Ascii.eqb c "0" || Ascii.eqb c "1") && is_bits r
  end.

(** The number a bit string spells, most significant bit first. *)
Fixpoint bin_value_from (acc : Z) (s : string) : Z :=
  match s with
  | EmptyString => acc
  | String c r => bin_value_from (2 * acc + (if Ascii.eqb c "1" then 1 else 0)) r
  end.

Definition bin_value (s : string) : Z := bin_value_from 0 s.

(** The one-character strings ['0'] and ['1']. *)
Definition bit_char (b : bool) : string := if b then "1" else "0".

(** The characters ['0'] and ['1'], and the three that end the bit string
    of an access register: A[3:2], then RnW (or, read the other way, the
    three of ACK[2:0]). *)
Definition bit_ascii (b : bool) : ascii := if b then "1"%char else "0"%char.

Definition acc_tail (b1 b2 b3 : bool) : string :=
  String (bit_ascii b1) (String (bit_ascii b2) (String (bit_ascii b3) "")).

(** The two readings [handle_reg_dpacc] and [handle_reg_apacc] give of a
    bit string that is [data] followed by [acc_tail b1 b2 b3]. *)
Definition data_in_text (data : string) (b1 b2 b3 : bool) : string :=
  "DATA: 0x" ++ hex_lower (bin_value data) ++ ", A: "
    ++ default "" (reg !! String (bit_ascii b1) (String (bit_ascii b2) ""))
    ++ ", RnW: " ++ (if b3 then "Read request" else "Write request").

Definition data_out_text (data : string) (b1 b2 b3 : bool) : string :=
  "DATA: 0x" ++ hex_lower (bin_value data) ++ ", ACK: "
    ++ default "" (ack_val !! acc_tail b1 b2 b3).

(** An outcome that, when it is an exception, is a built-in one. *)
Definition raises_builtin {A : Type} (o : outcome A) : Prop :=
  forall e, o = Raise e -> builtin e.

(** The five states that take a data register transfer in either
    direction. *)
Definition register_states : list string :=
  ["IDCODE"; "DPACC"; "APACC"; "ABORT"; "UNKNOWN"].

(** The lines [decode] runs once a state has accepted the command: build
    the handler's name, fetch the handler, call it, go back to ['IDLE']. *)
Definition dispatch (st val : string) : M Decoder unit :=
  let! name := lift (format "handle_reg_%s" [VStr (lower st)]) in
  let! handle_reg := getattr name in
  handle_reg val ;;;
  modify (set_state "IDLE").

(** The decoder object once [decode] has recorded its two positions. *)
Definition entered (ss_ es_ : Z) (d : Decoder) : Decoder :=
  set_es es_ (set_ss ss_ d).

Definition reserved_warning : string := "WARNING: DAPABORT[31:1] reserved!".

(** The text [handle_reg_abort] builds when the first character of the bit
    string is [c]. *)
Definition abort_text (c : ascii) : string :=
  "DAPABORT = " ++ String c ": " ++ (if Ascii.eqb c "1" then "" else "No ")
    ++ "DAP abort generated".

End JtagStm32Aux.

(** ** Vocabulary for the statements on the EM4100 decoder *)

Module Em4100Aux.
Import Em4100.

(** What [add_bit] relies on without testing it: both accumulator lists
    have their six cells and the position within a group is below five. *)
Definition framed (d : Decoder) : Prop :=
  length (data_col_parity d) = 6%nat /\
  length (col_parity d) = 6%nat /\
  (data_bits d <= 4)%nat.

(** The frame state machine between two frames. *)
Definition at_frame_start (d : Decoder) : Prop :=
  state d = HEADER /\ first_one d = 0%nat /\ payload_cnt d = 0%nat /\
  data_bits d = 0%nat /\
  data_col_parity d = [0; 0; 0; 0; 0; 0] /\ col_parity d = [0; 0; 0; 0; 0; 0].

(** A decoder [metadata] has configured. *)
Definition ready (d : Decoder) : Prop :=
  falsy (samplerate d) = false /\ polarity d <> None /\ framed d.

(** The configuration [metadata] writes and [decode] only reads. *)
Definition config (d : Decoder) :=
  (options d, samplerate d, bit_width d, halfbit_limit d, polarity d).

(** The annotations of a header, of a payload row and of a trailer, as
    functions of the symbols alone. *)
Definition header_annotation (first last : symbol) : annotation :=
  Ann (int_float (start_of first)) (int_float (stop_of last)) 1
      ["Header"; "Head"; "He"; "H"].

Definition row_annotations (r : row) : list annotation :=
  [Ann (int_float (start_of (d1 r))) (int_float (start_of (rp r))) 2 ["Data"; "Da"; "D"];
   Ann (int_float (start_of (rp r))) (int_float (stop_of (rp r))) 4
     ["Parity"; "Par"; "Pa"; "P"];
   Ann (int_float (start_of (d1 r))) (int_float (start_of (rp r))) 3
     [hex_upper (nibble r)];
   Ann (int_float (start_of (rp r))) (int_float (stop_of (rp r))) 6
     (verdict (row_xor r =? bit_of (rp r)))].

Definition trailer_annotations (rows : list row) (t1 t2 t3 t4 t5 : symbol)
    : list annotation :=
  [Ann (int_float (start_of t1)) (int_float (start_of t5)) 4
     ["Column parity"; "Col par"; "CP"; "P"];
   Ann (int_float (start_of t5)) (int_float (stop_of t5)) 4
     ["Stop bit"; "St bi"; "SB"; "S"];
   Ann (int_float (start_of t1)) (int_float (start_of t5)) 6
     (verdict ((column d1 rows 0 =? bit_of t1) && (column d2 rows 0 =? bit_of t2)
               && (column d3 rows 0 =? bit_of t3) && (column d4 rows 0 =? bit_of t4)))].

(** Symbols as the bit assembler produces them from a logic channel, and
    a header in a sequence of symbols: nine symbols in a row that are
    ones. *)
Definition is_one (s : symbol) : Prop := bit_of s = 1.
Definition binary (s : symbol) : Prop := bit_of s = 0 \/ bit_of s = 1.

Definition has_header (syms : list symbol) : Prop :=
  exists pre run post,
    syms = (pre ++ run ++ post)%list /\ length run = 9%nat /\ Forall is_one run.

(** What a run of [decode] keeps of the decoder [d0] it starts on: the
    configuration, and the column lists in range.  Past the first sample
    the previous level is known as well. *)
Definition configured_like (d0 s : Decoder) : Prop :=
  config s = config d0 /\ framed s.

Definition past_first_sample (d0 s : Decoder) : Prop :=
  configured_like d0 s /\ oldpin s <> None.

(** No exception at all. *)
Definition no_exception (e : exn) : Prop := False.

(** The decoder after the first statement of [metadata]: the samplerate is
    stored when the key is the samplerate key. *)
Definition after_key (key value : Z) (d : Decoder) : Decoder :=
  if key =? SRD_CONF_SAMPLERATE then set_samplerate (Some value) d else d.

(** The option strings are numbers, and the coil frequency is not zero. *)
Definition numeric_options (o : Options) (cf dr : Z) : Prop :=
  int_str (opt_coilfreq o) = Ok cf /\ cf <> 0 /\ int_str (opt_datarate o) = Ok dr.

(** The symbol a pulse of [pl] samples that ends at [samplenum] completes,
    as its start and its stop, read off the four tests of
    [manchester_decode] on the current and the previous pulse. *)
Definition pulse_symbol (d : Decoder) (samplenum pl : Z) : option (Q * Z) :=
  let lim := halfbit_limit d in
  let osn := oldsamplenum d in
  let opl := oldpl d in
  if is_long lim pl then
    Some (if is_long lim opl
          then inject_Z (int_float (inject_Z osn - half opl)%Q)
          else inject_Z (osn - opl),
          int_float (inject_Z samplenum - half pl)%Q)
  else if is_short lim pl then
    if is_long lim opl then Some ((inject_Z osn - half opl)%Q, samplenum)
    else if last_bit_pos d <=? osn - opl then Some (inject_Z (osn - opl), samplenum)
    else None
  else None.

(** The annotation classes the decoder uses: bit, header, data field,
    nibble value, parity field and parity verdict. *)
Definition used_class (a : annotation) : Prop :=
  existsb (Z.eqb (ann_class a)) [0; 1; 2; 3; 4; 6] = true.

(** The number of bit annotations (class 0) in an output. *)
Definition count_bits (out : list annotation) : nat :=
  length (filter (fun a => ann_class a = 0) out).

End Em4100Aux.

(** * Reasoning about decoder methods *)

Section MonadFacts.
Context {S : Type}.
Variable I : S -> Prop.
Variable P : annotation -> Prop.
Variable E : exn -> Prop.

Lemma sat_ret {A : Type} (a : A) : sat I P E (ret a).
Proof. intros s Hs. cbn. repeat split; auto. intros e H. discriminate. Qed.

Lemma sat_gets {A : Type} (f : S -> A) : sat I P E (gets f).
Proof. intros s Hs. cbn. repeat split; auto. intros e H. discriminate. Qed.

Lemma sat_modify (f : S -> S) :
  (forall s, I s -> I (f s)) -> sat I P E (modify f).
Proof. intros Hf s Hs. cbn. repeat split; auto. intros e H. discriminate. Qed.

Lemma sat_emit (a : annotation) : P a -> sat I P E (emit a).
Proof. intros Ha s Hs. cbn. repeat split; auto. intros e H. discriminate. Qed.

Lemma sat_raise {A : Type} (e : exn) : E e -> sat I P E (raise (A := A) e).
Proof. intros He s Hs. cbn. repeat split; auto. intros e' H. congruence. Qed.

Lemma sat_lift {A : Type} (o : outcome A) :
  (forall e, o = Raise e -> E e) -> sat I P E (lift o).
Proof. intros Ho s Hs. cbn. repeat split; auto. Qed.

Lemma sat_bind {A B : Type} (m : M S A) (f : A -> M S B) :
  sat I P E m -> (forall a, sat I P E (f a)) -> sat I P E (bind m f).
Proof.
  intros Hm Hf s Hs. unfold bind.
  destruct (Hm s Hs) as (H1 & H2 & H3).
  destruct (m s) as [[[a | e] s1] o1]; cbn in *.
  - destruct (Hf a s1 H1) as (G1 & G2 & G3).
    destruct (f a s1) as [[r s2] o2]; cbn in *.
    repeat split; auto. apply Forall_app; auto.
  - repeat split; auto. intros e0 H. inversion H; subst. now apply H3.
Qed.

Lemma sat_when (c : bool) (body : M S unit) :
  sat I P E body -> sat I P E (when c body).
Proof. intros H. destruct c; cbn; auto using sat_ret. Qed.

Lemma sat_if {A : Type} (c : bool) (m1 m2 : M S A) :
  sat I P E m1 -> sat I P E m2 -> sat I P E (if c then m1 else m2).
Proof. destruct c; auto. Qed.

Lemma sat_output {A : Type} (m : M S A) (s : S) :
  sat I P E m -> I s -> Forall P (output_of (m s)).
Proof. intros H Hs. apply (H s Hs). Qed.

Lemma sat_result {A : Type} (m : M S A) (s : S) (e : exn) :
  sat I P E m -> I s -> result_of (m s) = Raise e -> E e.
Proof. intros H Hs. apply (H s Hs). Qed.

Lemma sat_object {A : Type} (m : M S A) (s : S) :
  sat I P E m -> I s -> I (object_of (m s)).
Proof. intros H Hs. apply (H s Hs). Qed.

(** The equations of [bind], at an object. *)
Lemma bind_ret {A B : Type} (a : A) (k : A -> M S B) (s : S) :
  bind (ret a) k s = k a s.
Proof. unfold bind, ret. now destruct (k a s) as [[r s2] o2]. Qed.

Lemma bind_gets {A B : Type} (f : S -> A) (k : A -> M S B) (s : S) :
  bind (gets f) k s = k (f s) s.
Proof. unfold bind, gets. now destruct (k (f s) s) as [[r s2] o2]. Qed.

Lemma bind_modify {B : Type} (f : S -> S) (k : unit -> M S B) (s : S) :
  bind (modify f) k s = k tt (f s).
Proof. unfold bind, modify. now destruct (k tt (f s)) as [[r s2] o2]. Qed.

Lemma bind_lift_ok {A B : Type} (a : A) (k : A -> M S B) (s : S) :
  bind (lift (Ok a)) k s = k a s.
Proof. unfold bind, lift. now destruct (k a s) as [[r s2] o2]. Qed.

Lemma bind_raise {A B : Type} (e : exn) (k : A -> M S B) (s : S) :
  bind (raise e) k s = (Raise e, s, []).
Proof. reflexivity. Qed.

Lemma bind_unit (m : M S unit) (s : S) : bind m (fun _ => ret tt) s = m s.
Proof.
  unfold bind, ret. destruct (m s) as [[[[] | e] s1] o1]; [| reflexivity].
  now rewrite app_nil_r.
Qed.

Lemma bind_cong {A B : Type} (m m' : M S A) (k : A -> M S B) (s : S) :
  m s = m' s -> bind m k s = bind m' k s.
Proof. intros H. unfold bind. now rewrite H. Qed.

Lemma bind_noop {A B : Type} (m : M S A) (k : A -> M S B) (a : A) (s : S) :
  m s = (Ok a, s, []) -> bind m k s = k a s.
Proof. intros H. unfold bind. rewrite H. now destruct (k a s) as [[r s2] o2]. Qed.

(** Two continuations that agree on what [m] returns. *)
Lemma bind_ext_on {A B : Type} (m : M S A) (k k' : A -> M S B) (s : S) :
  (forall a s1 o1, m s = (Ok a, s1, o1) -> k a s1 = k' a s1) ->
  bind m k s = bind m k' s.
Proof.
  intros H. unfold bind.
  destruct (m s) as [[[a | e] s1] o1]; [| reflexivity].
  now rewrite (H a s1 o1 eq_refl).
Qed.

(** A continuation that does nothing on the objects [m] can end on. *)
Lemma bind_skip (J : S -> Prop) (m : M S unit) (k : unit -> M S unit) (s : S) :
  J (object_of (m s)) ->
  (forall s', J s' -> k tt s' = (Ok tt, s', [])) ->
  bind m k s = m s.
Proof.
  intros HJ Hk. unfold bind.
  destruct (m s) as [[[[] | e] s1] o1]; [| reflexivity].
  cbn in HJ. rewrite (Hk s1 HJ). now rewrite app_nil_r.
Qed.

Lemma output_bind_silent {A B : Type} (m : M S A) (k : A -> M S B) (s : S) :
  (forall a s', output_of (k a s') = []) ->
  output_of (bind m k s) = output_of (m s).
Proof.
  intros Hk. unfold bind.
  destruct (m s) as [[[a | e] s1] o1]; [| reflexivity].
  specialize (Hk a s1). destruct (k a s1) as [[r s2] o2]. cbn in *.
  subst. now rewrite app_nil_r.
Qed.

Lemma for_each_cons_run {A : Type} (body : A -> M S unit) (x : A) (l : list A)
    (s s1 s2 : S) (o1 o2 : list annotation) (r : outcome unit) :
  body x s = (Ok tt, s1, o1) ->
  for_each l body s1 = (r, s2, o2) ->
  for_each (x :: l) body s = (r, s2, (o1 ++ o2)%list).
Proof. intros H1 H2. cbn. unfold bind. now rewrite H1, H2. Qed.

Lemma for_each_app_run {A : Type} (body : A -> M S unit) (l1 l2 : list A)
    (s s1 s2 : S) (o1 o2 : list annotation) (r : outcome unit) :
  for_each l1 body s = (Ok tt, s1, o1) ->
  for_each l2 body s1 = (r, s2, o2) ->
  for_each (l1 ++ l2)%list body s = (r, s2, (o1 ++ o2)%list).
Proof.
  revert s o1. induction l1 as [| x l1 IH]; intros s o1 H1 H2.
  - cbn in H1. inversion H1; subst. exact H2.
  - cbn in H1 |- *. unfold bind in H1 |- *.
    destruct (body x s) as [[[[] | e] sa] oa]; [| discriminate].
    destruct (for_each l1 body sa) as [[ra sb] ob] eqn:Ha.
    inversion H1; subst.
    rewrite (IH sa ob Ha H2). now rewrite app_assoc.
Qed.

Lemma sat_for_each {A : Type} (l : list A) (body : A -> M S unit) :
  (forall x, sat I P E (body x)) -> sat I P E (for_each l body).
Proof.
  intros H. induction l as [| x l IH]; cbn.
  - apply sat_ret.
  - apply sat_bind; auto.
Qed.
End MonadFacts.

(** * Properties of the JTAG / STM32 decoder *)

Module JtagStm32Facts.
Import JtagStm32.

Lemma eqb_false_of_neq (a b : string) : a <> b -> String.eqb a b = false.
Proof. intros H. now apply String.eqb_neq. Qed.

Lemma decode_idle_ir (d : Decoder) (ss_ es_ : Z) (val : string) :
  state d = "IDLE" ->
  decode ss_ es_ ("IR TDI", val) d =
    (Ok tt, {| state := select val; ss := Some ss_; es := Some es_ |},
     [Ann ss_ es_ 0 ["IR: " ++ select val]]).
Proof.
  intros Hst. destruct d as [st s e]. cbn in Hst. subst st. reflexivity.
Qed.

Lemma select_unknown (val : string) :
  ir !! slice val (Some (-4)) None = None -> select val = "UNKNOWN".
Proof. intros H. unfold select. now rewrite H. Qed.

(** [handle_reg_unknown] never emits: the format string has no conversion
    for its operand, so the [%] raises once the two positions are read. *)
Lemma handle_reg_unknown_raises (bits : string) (d : Decoder) :
  output_of (handle_reg_unknown bits d) = [] /\
  object_of (handle_reg_unknown bits d) = d /\
  is_raise (result_of (handle_reg_unknown bits d)) = true.
Proof.
  unfold handle_reg_unknown, put, bind, attr, lift, fmt1.
  destruct d as [st [s|] [e|]]; cbn; auto.
Qed.

(** In ['UNKNOWN'] a data register transfer raises [TypeError], emits
    nothing and leaves the decoder in ['UNKNOWN']. *)
Lemma decode_unknown_dr (d : Decoder) (ss_ es_ : Z) (cmd val : string) :
  state d = "UNKNOWN" ->
  cmd = "DR TDI" \/ cmd = "DR TDO" ->
  decode ss_ es_ (cmd, val) d =
    (Raise TypeError, {| state := "UNKNOWN"; ss := Some ss_; es := Some es_ |}, []).
Proof.
  intros Hst Hc. destruct d as [st s e]. cbn in Hst. subst st.
  destruct Hc as [-> | ->]; vm_compute; reflexivity.
Qed.

(** C1, at the failing input.  The bit string with bit 0 set and bits 1 to
    31 clear is decoded as "no abort": [handle_reg_abort] reads [bits[0]],
    the leftmost character, which is bit 31.  With bit 31 and bit 0 set the
    abort text and the warning are both emitted. *)
Theorem abort_reads_leftmost_bit :
  decode_all [(0, 1, ("IR TDI", "1000"));
              (2, 3, ("DR TDI", "00000000000000000000000000000001"))] init =
    (Ok tt, {| state := "IDLE"; ss := Some 2; es := Some 3 |},
     [Ann 0 1 0 ["IR: ABORT"];
      Ann 2 3 0 ["DAPABORT = 0: No DAP abort generated"]]) /\
  decode_all [(0, 1, ("IR TDI", "1000"));
              (2, 3, ("DR TDI", "10000000000000000000000000000001"))] init =
    (Ok tt, {| state := "IDLE"; ss := Some 2; es := Some 3 |},
     [Ann 0 1 0 ["IR: ABORT"];
      Ann 2 3 0 ["DAPABORT = 1: DAP abort generated"];
      Ann 2 3 0 ["WARNING: DAPABORT[31:1] reserved!"]]).
Proof. split; vm_compute; reflexivity. Qed.

(** C2, at the failing input.  The instruction [0000] is not in the table
    and selects ['UNKNOWN']; the data register transfer that follows raises
    [TypeError] in [handle_reg_unknown], emits no annotation and leaves the
    decoder in ['UNKNOWN'] instead of ['IDLE']. *)
Theorem unknown_instruction_raises :
  decode 0 1 ("IR TDI", "0000") init =
    (Ok tt, {| state := "UNKNOWN"; ss := Some 0; es := Some 1 |},
     [Ann 0 1 0 ["IR: UNKNOWN"]]) /\
  decode 2 3 ("DR TDI", "101") {| state := "UNKNOWN"; ss := Some 0; es := Some 1 |} =
    (Raise TypeError, {| state := "UNKNOWN"; ss := Some 2; es := Some 3 |}, []) /\
  decode 2 3 ("DR TDO", "101") {| state := "UNKNOWN"; ss := Some 0; es := Some 1 |} =
    (Raise TypeError, {| state := "UNKNOWN"; ss := Some 2; es := Some 3 |}, []).
Proof. repeat split; vm_compute; reflexivity. Qed.

(** C10.  A command the current state does not accept (anything but
    ['IR TDI'] in ['IDLE'], anything but ['DR TDI'] in ['BYPASS'], anything
    but ['DR TDI'] and ['DR TDO'] in the five register states) makes [decode]
    return normally without an annotation and with [self.state] as it was;
    the call has only recorded its two positions. *)
Theorem decode_ignores_unaccepted_command
    (d : Decoder) (ss_ es_ : Z) (cmd val : string) :
  (state d = "IDLE" /\ cmd <> "IR TDI") \/
  (state d = "BYPASS" /\ cmd <> "DR TDI") \/
  (In (state d) ["IDCODE"; "DPACC"; "APACC"; "ABORT"; "UNKNOWN"] /\
   cmd <> "DR TDI" /\ cmd <> "DR TDO") ->
  decode ss_ es_ (cmd, val) d =
    (Ok tt, {| state := state d; ss := Some ss_; es := Some es_ |}, []) /\
  state (object_of (decode ss_ es_ (cmd, val) d)) = state d /\
  output_of (decode ss_ es_ (cmd, val) d) = [].
Proof.
  intros H.
  assert (E : decode ss_ es_ (cmd, val) d =
              (Ok tt, {| state := state d; ss := Some ss_; es := Some es_ |}, [])).
  { destruct d as [st s e]. cbn [state] in *.
    unfold decode, bind, modify, gets. cbn [fst snd state set_ss set_es].
    destruct H as [[Hst Hc] | [[Hst Hc] | [Hst [Hc1 Hc2]]]].
    - rewrite (eqb_false_of_neq _ _ Hc). subst st. reflexivity.
    - rewrite (eqb_false_of_neq _ _ Hc). subst st. reflexivity.
    - assert (Hm : mem cmd ["DR TDI"; "DR TDO"] = false).
      { unfold mem. cbn.
        now rewrite (eqb_false_of_neq _ _ Hc1), (eqb_false_of_neq _ _ Hc2). }
      rewrite Hm. cbn in Hst.
      destruct Hst as [<- | [<- | [<- | [<- | [<- | []]]]]]; reflexivity. }
  rewrite E. auto.
Qed.

Lemma decode_ignores_unaccepted_command_witness :
  decode 4 5 ("DR TDO", "1") init =
    (Ok tt, {| state := state init; ss := Some 4; es := Some 5 |}, []) /\
  state (object_of (decode 4 5 ("DR TDO", "1") init)) = state init /\
  output_of (decode 4 5 ("DR TDO", "1") init) = [].
Proof.
  apply (decode_ignores_unaccepted_command init 4 5 "DR TDO" "1").
  left. split; [reflexivity | discriminate].
Defined.

End JtagStm32Facts.

(** * Properties of the EM4100 decoder *)

Module Em4100Facts.
Import Em4100.

(** ** What each method can emit, raise and assign *)

Ltac sat_step :=
  first
    [ apply sat_ret | apply sat_gets | apply sat_when | apply sat_if
    | apply sat_for_each; intros ?
    | apply sat_bind; [| intros ?] ].

Section Sat.
Variable I : Decoder -> Prop.
Variable P : annotation -> Prop.
Variable E : exn -> Prop.

Lemma sat_attr {A : Type} (name : string) (f : Decoder -> option A) :
  E (AttributeError name) -> sat I P E (attr name f).
Proof.
  intros He s Hs. unfold attr. destruct (f s); cbn; repeat split; auto.
  - intros e H. discriminate.
  - intros e H. congruence.
Qed.

Lemma sat_item (l : list Z) (i : nat) : E IndexError -> sat I P E (item l i).
Proof.
  intros He. unfold item. destruct (l !! i); [apply sat_ret | now apply sat_raise].
Qed.

Lemma sat_store (l : list Z) (i : nat) (v : Z) :
  E IndexError -> sat I P E (store l i v).
Proof.
  intros He. unfold store.
  destruct (i <? length l)%nat; [apply sat_ret | now apply sat_raise].
Qed.

Lemma sat_true_div (a b : option Z) :
  E TypeError -> E ZeroDivisionError -> sat I P E (lift (true_div a b)).
Proof.
  intros H1 H2. apply sat_lift. unfold true_div.
  destruct a as [x |], b as [y |]; try (intros e H; congruence).
  destruct (y =? 0); intros e H; congruence.
Qed.

(** [I] speaks of the fields [add_bit] leaves alone, [P] admits every
    annotation of a class other than 0. *)
Hypothesis I_edge : forall s s', edge s' = edge s -> I s -> I s'.
Hypothesis P_fields : forall a, ann_class a <> 0 -> P a.
Hypothesis E_index : E IndexError.

Ltac frame_step :=
  first
    [ apply sat_item; exact E_index
    | apply sat_store; exact E_index
    | apply sat_modify; intros s Hs; apply (I_edge s); [now destruct s | exact Hs]
    | apply sat_emit; apply P_fields; cbn; discriminate
    | apply sat_lift; cbn; intros e H; discriminate
    | sat_step ].

Lemma sat_add_bit_header (bit : Z) (bs be : Q) :
  sat I P E (add_bit_header bit bs be).
Proof. unfold add_bit_header, put. repeat frame_step. Qed.

Lemma sat_add_bit_payload (bit : Z) (bs be : Q) :
  sat I P E (add_bit_payload bit bs be).
Proof. unfold add_bit_payload, put. repeat frame_step. Qed.

Lemma sat_columns_match : sat I P E columns_match.
Proof. unfold columns_match. repeat frame_step. Qed.

Lemma sat_add_bit_trailer (bit : Z) (bs be : Q) :
  sat I P E (add_bit_trailer bit bs be).
Proof.
  unfold add_bit_trailer, put.
  repeat first [apply sat_columns_match | frame_step].
Qed.

Lemma sat_add_bit (bit : Z) (bs be : Q) : sat I P E (add_bit bit bs be).
Proof.
  unfold add_bit. apply sat_bind; [apply sat_gets |].
  intros [| |];
    auto using sat_add_bit_header, sat_add_bit_payload, sat_add_bit_trailer.
Qed.
End Sat.



(** ** Running the frame state machine on symbols *)

Ltac exec_add_bit :=
  cbn [bit_of start_of stop_of fst snd];
  unfold add_bit, add_bit_header, add_bit_payload, add_bit_trailer, columns_match,
    bind, gets, modify, when, ret, item, store, raise, lift, put, emit;
  cbn.

Ltac feed_step := eapply for_each_cons_run; [exec_add_bit; reflexivity |].

Lemma append_empty (s : string) : s ++ "" = s.
Proof.
  induction s as [| c s IH]; [reflexivity |].
  change (String c (s ++ "") = String c s). now f_equal.
Qed.

(** One payload row, started on a group boundary. *)
Lemma payload_row_run (d : Decoder) (r : row) (a0 a1 a2 a3 a4 a5 : Z) :
  state d = PAYLOAD -> data_bits d = 0%nat ->
  data_col_parity d = [a0; a1; a2; a3; a4; a5] ->
  let res := feed (row_symbols r) d in
  let last := (payload_cnt d + 5 =? 50)%nat in
  result_of res = Ok tt /\
  output_of res =
    [Ann (int_float (start_of (d1 r))) (int_float (start_of (rp r))) 2 ["Data"; "Da"; "D"];
     Ann (int_float (start_of (rp r))) (int_float (stop_of (rp r))) 4
       ["Parity"; "Par"; "Pa"; "P"];
     Ann (int_float (start_of (d1 r))) (int_float (start_of (rp r))) 3
       [hex_upper (nibble r)];
     Ann (int_float (start_of (rp r))) (int_float (stop_of (rp r))) 6
       (verdict (row_xor r =? bit_of (rp r)))] /\
  state (object_of res) = (if last then TRAILER else PAYLOAD) /\
  payload_cnt (object_of res) = (if last then 0 else payload_cnt d + 5)%nat /\
  data_bits (object_of res) = 0%nat /\
  data_col_parity (object_of res) =
    [Z.lxor a0 (bit_of (rp r)); Z.lxor a1 (bit_of (d1 r)); Z.lxor a2 (bit_of (d2 r));
     Z.lxor a3 (bit_of (d3 r)); Z.lxor a4 (bit_of (d4 r)); a5] /\
  col_parity (object_of res) = col_parity d /\
  edge (object_of res) = edge d.
Proof.
  intros Hst Hbits Hcol res last. subst res last.
  destruct d;
    destruct r as [[[b1 s1] e1] [[b2 s2] e2] [[b3 s3] e3] [[b4 s4] e4] [[p s5] e5]].
  cbn in Hst, Hbits, Hcol. subst.
  cbn [payload_cnt col_parity d1 d2 d3 d4 rp bit_of start_of stop_of fst snd].
  unfold row_xor, nibble.
  cbn [d1 d2 d3 d4 rp bit_of start_of stop_of fst snd].
  destruct (payload_cnt0 + 5 =? 50)%nat eqn:Hlast;
    (match goal with
     | |- context [feed ?l ?d] => eassert (Hrun : feed l d = _)
     end;
     [ unfold feed, row_symbols; cbn [d1 d2 d3 d4 rp];
       do 4 feed_step;
       (eapply for_each_cons_run; [exec_add_bit | reflexivity]);
       replace (payload_cnt0 + 1 + 1 + 1 + 1 + 1)%nat
         with (payload_cnt0 + 5)%nat by lia;
       rewrite Hlast; cbn; reflexivity
     | rewrite Hrun; cbn; rewrite append_empty; repeat split; reflexivity ]).
Qed.



Lemma six_elements (l : list Z) :
  length l = 6%nat -> exists a0 a1 a2 a3 a4 a5, l = [a0; a1; a2; a3; a4; a5].
Proof.
  intros H. do 6 (destruct l as [| ? l]; [discriminate |]).
  destruct l; [| discriminate]. now repeat eexists.
Qed.

Lemma verdict_OK (b : bool) : verdict b = OK_strings <-> b = true.
Proof. destruct b; cbn; split; intros H; try reflexivity; discriminate. Qed.

Lemma verdict_ERROR (b : bool) : verdict b = ERROR_strings <-> b = false.
Proof. destruct b; cbn; split; intros H; try reflexivity; discriminate. Qed.

(** C4.  A payload group of four data symbols and a parity symbol, started
    on a group boundary, is decoded without an exception into the Data,
    Parity and value annotations and a row parity verdict, and the verdict
    is OK exactly when the XOR of the four data bits equals the parity
    bit. *)
Theorem row_parity_verdict (d : Decoder) (r : row) :
  state d = PAYLOAD -> data_bits d = 0%nat -> length (data_col_parity d) = 6%nat ->
  let res := feed (row_symbols r) d in
  let v := verdict (row_xor r =? bit_of (rp r)) in
  result_of res = Ok tt /\
  output_of res =
    [Ann (int_float (start_of (d1 r))) (int_float (start_of (rp r))) 2 ["Data"; "Da"; "D"];
     Ann (int_float (start_of (rp r))) (int_float (stop_of (rp r))) 4
       ["Parity"; "Par"; "Pa"; "P"];
     Ann (int_float (start_of (d1 r))) (int_float (start_of (rp r))) 3
       [hex_upper (nibble r)];
     Ann (int_float (start_of (rp r))) (int_float (stop_of (rp r))) 6 v] /\
  (v = OK_strings <-> row_xor r = bit_of (rp r)) /\
  (v = ERROR_strings <-> row_xor r <> bit_of (rp r)).
Proof.
  intros Hst Hbits Hlen res v.
  destruct (six_elements _ Hlen) as (a0 & a1 & a2 & a3 & a4 & a5 & Hcol).
  destruct (payload_row_run d r a0 a1 a2 a3 a4 a5 Hst Hbits Hcol) as (H1 & H2 & _).
  repeat split; auto; subst v.
  - intros H. apply verdict_OK in H. now apply Z.eqb_eq.
  - intros H. apply verdict_OK. now apply Z.eqb_eq.
  - intros H. apply verdict_ERROR in H. now apply Z.eqb_neq.
  - intros H. apply verdict_ERROR. now apply Z.eqb_neq.
Qed.

(** All rows of a payload: the machine stays in [PAYLOAD] until the count
    reaches 50 and then enters [TRAILER]; each accumulator has picked up
    its column. *)
Lemma payload_rows_run (rows : list row) :
  forall (d : Decoder) (a0 a1 a2 a3 a4 a5 : Z),
  state d = PAYLOAD -> data_bits d = 0%nat ->
  data_col_parity d = [a0; a1; a2; a3; a4; a5] ->
  rows <> [] -> (payload_cnt d + 5 * length rows = 50)%nat ->
  let res := feed (payload_symbols rows) d in
  result_of res = Ok tt /\
  state (object_of res) = TRAILER /\
  payload_cnt (object_of res) = 0%nat /\
  data_bits (object_of res) = 0%nat /\
  data_col_parity (object_of res) =
    [column rp rows a0; column d1 rows a1; column d2 rows a2;
     column d3 rows a3; column d4 rows a4; a5] /\
  col_parity (object_of res) = col_parity d /\
  edge (object_of res) = edge d.
Proof.
  induction rows as [| r rows IH]; intros d a0 a1 a2 a3 a4 a5 Hst Hbits Hcol Hne Hcnt;
    [congruence |].
  destruct (payload_row_run d r a0 a1 a2 a3 a4 a5 Hst Hbits Hcol)
    as (R1 & _ & R3 & R4 & R5 & R6 & R7 & R8).
  cbn zeta. unfold feed, payload_symbols. cbn [flat_map].
  unfold feed in R1, R3, R4, R5, R6, R7, R8.
  destruct (for_each (row_symbols r) _ d) as [[res1 dd] o1] eqn:E1.
  cbn [result_of object_of output_of fst snd] in *. subst res1.
  destruct rows as [| r' rows'].
  - cbn [flat_map]. rewrite app_nil_r, E1. cbn.
    cbn in Hcnt. assert (Hl : (payload_cnt d + 5 =? 50)%nat = true)
      by (apply Nat.eqb_eq; lia).
    rewrite Hl in R3, R4. repeat split; auto.
  - assert (Hl : (payload_cnt d + 5 =? 50)%nat = false)
      by (apply Nat.eqb_neq; cbn in Hcnt; lia).
    rewrite Hl in R3, R4.
    assert (Hcnt' : (payload_cnt dd + 5 * length (r' :: rows') = 50)%nat)
      by (rewrite R4; cbn in Hcnt |- *; lia).
    specialize (IH dd _ _ _ _ _ _ R3 R5 R6 ltac:(discriminate) Hcnt').
    cbn zeta in IH. unfold feed, payload_symbols in IH.
    destruct (for_each (flat_map row_symbols (r' :: rows')) _ dd)
      as [[res2 dd2] o2] eqn:E2.
    rewrite (for_each_app_run _ _ _ _ _ _ _ _ _ E1 E2).
    cbn [result_of object_of output_of fst snd] in *.
    destruct IH as (I1 & I2 & I3 & I4 & I5 & I6 & I7).
    repeat split; auto; congruence.
Qed.



Lemma flipped_differs (z : Z) : z <> Z.lxor z 1.
Proof.
  intros H.
  assert (G : Z.lxor z (Z.lxor z 1) = 0) by (rewrite <- H; apply Z.lxor_nilpotent).
  rewrite <- Z.lxor_assoc, Z.lxor_nilpotent in G. discriminate.
Qed.

(** The five trailer symbols, started on a group boundary with the count
    at zero. *)
Lemma trailer_run (d : Decoder) (t1 t2 t3 t4 t5 : symbol) (a0 a1 a2 a3 a4 a5 : Z) :
  state d = TRAILER -> data_bits d = 0%nat -> payload_cnt d = 0%nat ->
  data_col_parity d = [a0; a1; a2; a3; a4; a5] ->
  length (col_parity d) = 6%nat ->
  let res := feed [t1; t2; t3; t4; t5] d in
  let ok := (a1 =? bit_of t1) && (a2 =? bit_of t2) && (a3 =? bit_of t3)
            && (a4 =? bit_of t4) in
  result_of res = Ok tt /\
  output_of res =
    [Ann (int_float (start_of t1)) (int_float (start_of t5)) 4
       ["Column parity"; "Col par"; "CP"; "P"];
     Ann (int_float (start_of t5)) (int_float (stop_of t5)) 4
       ["Stop bit"; "St bi"; "SB"; "S"];
     Ann (int_float (start_of t1)) (int_float (start_of t5)) 6 (verdict ok)] /\
  state (object_of res) = HEADER /\
  payload_cnt (object_of res) = 0%nat /\
  data_bits (object_of res) = 0%nat /\
  data_col_parity (object_of res) = [0; 0; 0; 0; 0; 0] /\
  col_parity (object_of res) = [0; 0; 0; 0; 0; 0] /\
  edge (object_of res) = edge d.
Proof.
  intros Hst Hbits Hcnt Hcol Hlen res ok. subst res ok.
  destruct (six_elements _ Hlen) as (c0 & c1 & c2 & c3 & c4 & c5 & Hc).
  destruct d; destruct t1 as [[b1 s1] e1], t2 as [[b2 s2] e2], t3 as [[b3 s3] e3],
    t4 as [[b4 s4] e4], t5 as [[b5 s5] e5].
  cbn in Hst, Hbits, Hcnt, Hcol, Hc. subst.
  cbn [bit_of start_of stop_of fst snd].
  destruct (a1 =? b1) eqn:H1; destruct (a2 =? b2) eqn:H2;
    destruct (a3 =? b3) eqn:H3; destruct (a4 =? b4) eqn:H4;
    (match goal with
     | |- context [feed ?l ?d] => eassert (Hrun : feed l d = _)
     end;
     [ unfold feed; do 4 feed_step;
       (eapply for_each_cons_run; [exec_add_bit | reflexivity]);
       rewrite ?H1; cbn; rewrite ?H2; cbn; rewrite ?H3; cbn; rewrite ?H4; cbn;
       reflexivity
     | rewrite Hrun; cbn; repeat split; reflexivity ]).
Qed.

(** C5.  From a frame boundary (payload count and group position at zero,
    column accumulators clear), ten payload rows take the machine to
    [TRAILER]; the five trailer symbols are then decoded into the column
    parity field, the stop bit and a verdict.  The verdict is OK exactly
    when each of the four column XORs equals its trailer bit; from an OK
    trailer, flipping any one of the four bits yields ERROR; afterwards
    both accumulator arrays are zero and the machine is in [HEADER]. *)
Theorem column_parity_verdict (d : Decoder) (rows : list row)
    (t1 t2 t3 t4 t5 : symbol) :
  state d = PAYLOAD -> payload_cnt d = 0%nat -> data_bits d = 0%nat ->
  data_col_parity d = [0; 0; 0; 0; 0; 0] -> length (col_parity d) = 6%nat ->
  length rows = 10%nat ->
  let res1 := feed (payload_symbols rows) d in
  let d' := object_of res1 in
  let res2 := feed [t1; t2; t3; t4; t5] d' in
  let ok := (column d1 rows 0 =? bit_of t1) && (column d2 rows 0 =? bit_of t2)
            && (column d3 rows 0 =? bit_of t3) && (column d4 rows 0 =? bit_of t4) in
  result_of res1 = Ok tt /\ state d' = TRAILER /\
  result_of res2 = Ok tt /\
  output_of res2 =
    [Ann (int_float (start_of t1)) (int_float (start_of t5)) 4
       ["Column parity"; "Col par"; "CP"; "P"];
     Ann (int_float (start_of t5)) (int_float (stop_of t5)) 4
       ["Stop bit"; "St bi"; "SB"; "S"];
     Ann (int_float (start_of t1)) (int_float (start_of t5)) 6 (verdict ok)] /\
  (verdict ok = OK_strings <->
     column d1 rows 0 = bit_of t1 /\ column d2 rows 0 = bit_of t2 /\
     column d3 rows 0 = bit_of t3 /\ column d4 rows 0 = bit_of t4) /\
  (last_text res2 = Some OK_strings ->
     last_text (feed [flip t1; t2; t3; t4; t5] d') = Some ERROR_strings /\
     last_text (feed [t1; flip t2; t3; t4; t5] d') = Some ERROR_strings /\
     last_text (feed [t1; t2; flip t3; t4; t5] d') = Some ERROR_strings /\
     last_text (feed [t1; t2; t3; flip t4; t5] d') = Some ERROR_strings) /\
  state (object_of res2) = HEADER /\
  data_col_parity (object_of res2) = [0; 0; 0; 0; 0; 0] /\
  col_parity (object_of res2) = [0; 0; 0; 0; 0; 0].
Proof.
  intros Hst Hcnt Hbits Hcol Hlen Hrows res1 d' res2 ok.
  assert (Hne : rows <> []) by (intros ->; discriminate).
  assert (Hfifty : (payload_cnt d + 5 * length rows = 50)%nat) by (rewrite Hcnt, Hrows; reflexivity).
  destruct (payload_rows_run rows d 0 0 0 0 0 0 Hst Hbits Hcol Hne Hfifty)
    as (P1 & P2 & P3 & P4 & P5 & P6 & _).
  fold res1 in P1, P2, P3, P4, P5, P6. fold d' in P2, P3, P4, P5, P6.
  assert (Hlen' : length (col_parity d') = 6%nat) by now rewrite P6.
  pose proof (fun u1 u2 u3 u4 u5 =>
                trailer_run d' u1 u2 u3 u4 u5 _ _ _ _ _ _ P2 P4 P3 P5 Hlen') as T.
  cbn zeta in T.
  destruct (T t1 t2 t3 t4 t5) as (T1 & T2 & T3 & _ & _ & T6 & T7 & _).
  fold res2 in T1, T2, T3, T6, T7. fold ok in T2.
  assert (Hok : verdict ok = OK_strings <->
     column d1 rows 0 = bit_of t1 /\ column d2 rows 0 = bit_of t2 /\
     column d3 rows 0 = bit_of t3 /\ column d4 rows 0 = bit_of t4).
  { rewrite verdict_OK. subst ok. rewrite !andb_true_iff, !Z.eqb_eq. tauto. }
  assert (Hflip : last_text res2 = Some OK_strings ->
     last_text (feed [flip t1; t2; t3; t4; t5] d') = Some ERROR_strings /\
     last_text (feed [t1; flip t2; t3; t4; t5] d') = Some ERROR_strings /\
     last_text (feed [t1; t2; flip t3; t4; t5] d') = Some ERROR_strings /\
     last_text (feed [t1; t2; t3; flip t4; t5] d') = Some ERROR_strings).
  { intros Hl. unfold last_text in Hl. rewrite T2 in Hl. cbn in Hl.
    injection Hl as Hl. apply Hok in Hl. destruct Hl as (E1 & E2 & E3 & E4).
    destruct (T (flip t1) t2 t3 t4 t5) as (_ & F1 & _).
    destruct (T t1 (flip t2) t3 t4 t5) as (_ & F2 & _).
    destruct (T t1 t2 (flip t3) t4 t5) as (_ & F3 & _).
    destruct (T t1 t2 t3 (flip t4) t5) as (_ & F4 & _).
    unfold last_text. rewrite F1, F2, F3, F4. cbn.
    repeat split; f_equal; apply verdict_ERROR;
      rewrite !andb_false_iff, !Z.eqb_neq; unfold flip, bit_of; cbn [fst snd];
      rewrite ?E1, ?E2, ?E3, ?E4; auto using flipped_differs. }
  tauto.
Qed.



(** ** The bit assembler and the sample loop *)

Ltac side :=
  solve [ exact I
        | cbn; intros; first [exact I | reflexivity | discriminate | congruence] ].

Ltac decode_step :=
  first
    [ apply sat_item; side
    | apply sat_store; side
    | apply sat_attr; side
    | apply sat_true_div; side
    | apply sat_add_bit; side
    | apply sat_modify; side
    | apply sat_emit; side
    | apply sat_raise; side
    | apply sat_lift; side
    | sat_step
    | match goal with
      | |- sat _ _ _ (match ?x with _ => _ end) => destruct x
      end ].

Lemma sat_decode_sample (s : Z * Z) :
  sat (fun _ => True) (fun _ => True) not_samplerate_error (decode_sample s).
Proof.
  unfold decode_sample, manchester_decode, putbit, put, not_samplerate_error.
  repeat decode_step.
Qed.


Lemma falsy_spec (x : option Z) : falsy x = true <-> x = None \/ x = Some 0.
Proof.
  destruct x as [v |]; cbn.
  - rewrite Z.eqb_eq. split; [intros ->; now right | intros [H | H]; congruence].
  - split; auto.
Qed.

(** C7.  [decode] raises [SamplerateError] exactly when the samplerate is
    unset (Python's [not self.samplerate]: [None], or the zero no host
    supplies); the test comes first in every call, so on the error nothing
    is emitted and the decoder object is as it was. *)
Theorem decode_requires_samplerate (d : Decoder) (ss es : Z) (data : list (Z * Z)) :
  ((samplerate d = None \/ samplerate d = Some 0) <->
   exists msg, result_of (decode ss es data d) = Raise (SamplerateError msg)) /\
  (samplerate d = None \/ samplerate d = Some 0 ->
   decode ss es data d =
     (Raise (SamplerateError "Cannot decode without samplerate."), d, [])).
Proof.
  assert (Hraise : falsy (samplerate d) = true ->
            decode ss es data d =
              (Raise (SamplerateError "Cannot decode without samplerate."), d, [])).
  { intros H. unfold decode. rewrite bind_gets, H. reflexivity. }
  split; [split |].
  - intros H. apply falsy_spec in H. rewrite (Hraise H). now eexists.
  - intros [msg H]. apply falsy_spec.
    destruct (falsy (samplerate d)) eqn:Hf; [reflexivity |].
    unfold decode in H. rewrite bind_gets, Hf in H.
    exfalso.
    refine (sat_result (fun _ => True) (fun _ => True) not_samplerate_error
              _ d _ _ I H msg eq_refl).
    apply sat_for_each. apply sat_decode_sample.
  - intros H. apply Hraise. now apply falsy_spec.
Qed.

Lemma decode_requires_samplerate_witness :
  ((samplerate (init default_options) = None \/
    samplerate (init default_options) = Some 0) <->
   exists msg,
     result_of (decode 0 2 [(0, 0); (1, 1)] (init default_options)) =
       Raise (SamplerateError msg)) /\
  (samplerate (init default_options) = None \/
   samplerate (init default_options) = Some 0 ->
   decode 0 2 [(0, 0); (1, 1)] (init default_options) =
     (Raise (SamplerateError "Cannot decode without samplerate."),
      init default_options, [])).
Proof. apply (decode_requires_samplerate (init default_options) 0 2 [(0, 0); (1, 1)]). Defined.

(** ** Samples that repeat the level *)

Lemma decode_sample_same_level (d : Decoder) (n pin : Z) :
  oldpin d = Some pin -> decode_sample (n, pin) d = (Ok tt, d, []).
Proof.
  intros H. unfold decode_sample. rewrite bind_gets, H. cbn.
  now rewrite Z.eqb_refl.
Qed.

Lemma same_pin_true (op : option Z) (pin : Z) :
  same_pin op pin = true -> op = Some pin.
Proof.
  destruct op as [o |]; cbn; [| discriminate].
  intros H. apply Z.eqb_eq in H. now subst.
Qed.

(** A sample that is processed without an exception leaves its level in
    [self.oldpin]. *)
Lemma decode_sample_sets_oldpin (d : Decoder) (n pin : Z) :
  result_of (decode_sample (n, pin) d) = Ok tt ->
  oldpin (object_of (decode_sample (n, pin) d)) = Some pin.
Proof.
  unfold decode_sample. cbn [fst snd]. rewrite bind_gets.
  destruct (same_pin (oldpin d) pin) eqn:Hs.
  - intros _. cbn. now apply same_pin_true.
  - rewrite bind_gets. destruct (oldpin d) as [o |] eqn:Ho.
    + rewrite bind_gets, Ho, Hs. cbn [negb when]. rewrite bind_gets.
      unfold bind, modify.
      destruct (manchester_decode _ _ _ _ d) as [[[[] | e] s1] o1]; cbn;
        [| discriminate].
      intros _. destruct s1. reflexivity.
    + intros _. destruct d. reflexivity.
Qed.

(** C9.  A sample whose level is the one seen before is skipped: [decode]
    emits nothing for it and leaves the decoder object as it was.  Hence a
    stream in which a sample is followed by another of the same level, in
    particular by a copy of itself, is decoded to the same outcome, object
    and annotations as the stream without it. *)
Theorem repeated_level_is_skipped
    (d d' : Decoder) (ss es : Z) (before after : list (Z * Z)) (n n' pin : Z) :
  oldpin d' = Some pin ->
  decode_sample (n', pin) d' = (Ok tt, d', []) /\
  decode ss es (before ++ (n, pin) :: (n', pin) :: after) d =
    decode ss es (before ++ (n, pin) :: after) d.
Proof.
  intros Hsame. split; [now apply decode_sample_same_level |]. clear d' Hsame.
  unfold decode. rewrite !bind_gets.
  destruct (falsy (samplerate d)); [reflexivity |].
  revert d. induction before as [| x before IH]; intros d.
  - cbn [app for_each]. apply bind_ext_on. intros [] s1 o1 Hrun.
    pose proof (decode_sample_sets_oldpin d n pin) as Hold.
    rewrite Hrun in Hold. specialize (Hold eq_refl). cbn in Hold.
    now rewrite (bind_noop _ _ tt s1 (decode_sample_same_level s1 n' pin Hold)).
  - cbn [app for_each]. apply bind_ext_on. intros [] s1 o1 _. apply IH.
Qed.

Lemma repeated_level_is_skipped_witness :
  oldpin (set_oldpin (Some 1) configured) = Some 1 /\
  decode_sample (600, 1) (set_oldpin (Some 1) configured) =
    (Ok tt, set_oldpin (Some 1) configured, []) /\
  decode 0 2000 ([(0, 0)] ++ (600, 1) :: (600, 1) :: [(1200, 0)]) configured =
    decode 0 2000 ([(0, 0)] ++ (600, 1) :: [(1200, 0)]) configured.
Proof.
  split; [reflexivity |].
  apply (repeated_level_is_skipped configured (set_oldpin (Some 1) configured)
           0 2000 [(0, 0)] [(1200, 0)] 600 600 1).
  reflexivity.
Defined.


(** ** Timing *)

(** C8.  With a samplerate of 1 MHz, a coil frequency of 125 kHz and a data
    rate of 64, [metadata] derives a bit width of 512 and a half-bit limit
    of 384; the binary64 evaluation of the same expressions gives the same
    two numbers exactly.  A pulse of 600 samples is long, not short: the
    decoder takes the long branch, which emits a symbol that stops at the
    middle of the pulse and records that position. *)
Theorem end_to_end_timing :
  let r := metadata SRD_CONF_SAMPLERATE 1000000 (init default_options) in
  let bw := Binary64.bit_width 1000000 125000 64 in
  let r' := decode 0 601 [(0, 0); (600, 1)] configured in
  result_of r = Ok tt /\
  (bit_width (object_of r) == 512)%Q /\
  (halfbit_limit (object_of r) == 384)%Q /\
  option_map Qred (Binary64.to_Q bw) = Some 512%Q /\
  option_map Qred (Binary64.to_Q (Binary64.halfbit_limit bw)) = Some 384%Q /\
  is_long (halfbit_limit configured) 600 = true /\
  is_short (halfbit_limit configured) 600 = false /\
  result_of r' = Ok tt /\
  output_of r' = [Ann 0 300 0 ["1"]] /\
  last_bit_pos (object_of r') = 300.
Proof. vm_compute. repeat split; reflexivity. Qed.

(** ** The bit value and the polarity *)

Lemma bind_attr {A B : Type} (name : string) (f : Decoder -> option A)
    (k : A -> M Decoder B) (d : Decoder) :
  bind (attr name f) k d =
    match f d with
    | Some v => k v d
    | None => (Raise (AttributeError name), d, [])
    end.
Proof.
  unfold bind, attr. destruct (f d) as [v |]; [| reflexivity].
  now destruct (k v d) as [[r s2] o2].
Qed.

(** Every bit annotation (class 0) of [manchester_decode] shows
    [self.oldpin ^ self.polarity], as they are when it is called. *)
Lemma manchester_decode_bits (d : Decoder) (samplenum pl pp pin : Z) :
  Forall (fun a => ann_class a = 0 ->
            exists o pol, oldpin d = Some o /\ polarity d = Some pol /\
                          ann_text a = [str_int (Z.lxor o pol)])
         (output_of (manchester_decode samplenum pl pp pin d)).
Proof.
  unfold manchester_decode. rewrite bind_gets, bind_attr.
  destruct (polarity d) as [pol |] eqn:Hp; [| constructor].
  destruct (oldpin d) as [o |] eqn:Ho; [| constructor].
  rewrite bind_ret.
  eapply Forall_impl;
    [ apply (sat_output (fun _ => True)
               (fun a => ann_class a = 0 -> ann_text a = [str_int (Z.lxor o pol)])
               (fun _ => True)); [| exact I]
    | intros a Ha Hc; exists o, pol; auto ].
  unfold putbit, put. repeat decode_step.
Qed.


Lemma output_decode_sample (d : Decoder) (samplenum pin : Z) :
  output_of (decode_sample (samplenum, pin) d) = [] \/
  exists o, oldpin d = Some o /\ o <> pin /\
    output_of (decode_sample (samplenum, pin) d) =
      output_of (manchester_decode samplenum (samplenum - oldsamplenum d) pin pin d).
Proof.
  unfold decode_sample. cbn [fst snd]. rewrite bind_gets.
  destruct (same_pin (oldpin d) pin) eqn:Hs; [now left |].
  rewrite bind_gets. destruct (oldpin d) as [o |] eqn:Ho.
  - right. exists o. split; [reflexivity |]. split.
    + cbn in Hs. now apply Z.eqb_neq.
    + rewrite bind_gets, Ho, Hs. cbn [negb when]. rewrite bind_gets.
      apply output_bind_silent. intros [] s'. reflexivity.
  - left. destruct d. reflexivity.
Qed.

(** [metadata] resolves the polarity option to 0 for ['active-low'] and to
    1 for anything else. *)
Lemma metadata_polarity (d : Decoder) (key value : Z) :
  result_of (metadata key value d) = Ok tt ->
  polarity (object_of (metadata key value d)) =
    Some (if String.eqb (opt_polarity (options d)) "active-low" then 0 else 1).
Proof.
  unfold metadata.
  assert (Hopt : forall x, options (set_samplerate x d) = options d)
    by (intros x; now destruct d).
  assert (Hgo : forall d', options d' = options d ->
    result_of ((let! sr := gets samplerate in
                let! o := gets options in
                let! cf := lift (int_str (opt_coilfreq o)) in
                let! q := lift (true_div sr (Some cf)) in
                let! dr := lift (int_str (opt_datarate o)) in
                modify (set_bit_width (q * inject_Z dr)%Q) ;;;
                let! bw := gets bit_width in
                modify (set_halfbit_limit (bw / 2 + bw / 4)%Q) ;;;
                modify (set_polarity
                  (Some (if String.eqb (opt_polarity o) "active-low" then 0 else 1))))
               d') = Ok tt ->
    polarity (object_of ((let! sr := gets samplerate in
                let! o := gets options in
                let! cf := lift (int_str (opt_coilfreq o)) in
                let! q := lift (true_div sr (Some cf)) in
                let! dr := lift (int_str (opt_datarate o)) in
                modify (set_bit_width (q * inject_Z dr)%Q) ;;;
                let! bw := gets bit_width in
                modify (set_halfbit_limit (bw / 2 + bw / 4)%Q) ;;;
                modify (set_polarity
                  (Some (if String.eqb (opt_polarity o) "active-low" then 0 else 1))))
               d')) =
      Some (if String.eqb (opt_polarity (options d)) "active-low" then 0 else 1)).
  { intros d' Ho. rewrite !bind_gets, Ho.
    destruct (int_str (opt_coilfreq (options d))) as [cf | e];
      [rewrite bind_lift_ok | discriminate].
    destruct (true_div (samplerate d') (Some cf)) as [q | e];
      [rewrite bind_lift_ok | discriminate].
    destruct (int_str (opt_datarate (options d))) as [dr | e];
      [rewrite bind_lift_ok | discriminate].
    rewrite bind_modify, bind_gets, bind_modify. intros _.
    destruct d'. reflexivity. }
  destruct (key =? SRD_CONF_SAMPLERATE); cbn [when].
  - rewrite bind_modify. apply Hgo, Hopt.
  - rewrite bind_ret. now apply Hgo.
Qed.

(** C3, as the code has it.  Once [metadata] has resolved the polarity,
    every bit annotation emitted for a sample shows the level seen before
    that sample XORed with the polarity flag, and the flag is 0 (level
    unchanged) for ['active-low'] and 1 (level inverted) for any other
    value of the option, ['active-high'] included. *)
Theorem bit_is_level_xor_polarity
    (d0 d : Decoder) (key value samplenum pin : Z) :
  result_of (metadata key value d0) = Ok tt ->
  polarity d = polarity (object_of (metadata key value d0)) ->
  let flag := if String.eqb (opt_polarity (options d0)) "active-low" then 0 else 1 in
  Forall (fun a => ann_class a = 0 ->
            exists level, oldpin d = Some level /\ level <> pin /\
                          ann_text a = [str_int (Z.lxor level flag)])
         (output_of (decode_sample (samplenum, pin) d)).
Proof.
  intros Hmeta Hpol flag.
  rewrite (metadata_polarity d0 key value Hmeta) in Hpol. fold flag in Hpol.
  destruct (output_decode_sample d samplenum pin) as [-> | (o & Ho & Hne & ->)];
    [constructor |].
  eapply Forall_impl; [apply manchester_decode_bits |].
  cbn beta. intros a Ha Hc. destruct (Ha Hc) as (o' & pol & Ho' & Hp & Ht).
  exists o. rewrite Ho in Ho'. rewrite Hpol in Hp.
  injection Ho' as <-. injection Hp as <-. auto.
Qed.

Lemma bit_is_level_xor_polarity_witness :
  let d0 := init default_options in
  let d := object_of (decode_sample (0, 0) configured) in
  result_of (metadata SRD_CONF_SAMPLERATE 1000000 d0) = Ok tt /\
  polarity d = polarity (object_of (metadata SRD_CONF_SAMPLERATE 1000000 d0)) /\
  Forall (fun a => ann_class a = 0 ->
            exists level, oldpin d = Some level /\ level <> 1 /\
              ann_text a =
                [str_int (Z.lxor level
                   (if String.eqb (opt_polarity (options d0)) "active-low"
                    then 0 else 1))])
         (output_of (decode_sample (600, 1) d)).
Proof.
  split; [reflexivity |]. split; [reflexivity |].
  apply (bit_is_level_xor_polarity (init default_options)
           (object_of (decode_sample (0, 0) configured))
           SRD_CONF_SAMPLERATE 1000000 600 1); reflexivity.
Defined.

(** C3, as it is worded, fails for the default polarity: with
    ['active-high'] the flag of the specification leaves the level alone,
    so a symbol after a level of 0 would be 0, and the decoder emits 1. *)
Lemma active_high_inverts_level :
  let d := object_of (decode_sample (0, 0) configured) in
  opt_polarity (options d) = "active-high" /\
  oldpin d = Some 0 /\
  output_of (decode_sample (600, 1) d) = [Ann 0 300 0 ["1"]] /\
  ~ Forall (fun a => ann_class a = 0 ->
              ann_text a = [str_int (Z.lxor 0 (spec_invert_flag (options d)))])
           (output_of (decode_sample (600, 1) d)).
Proof.
  repeat split; try reflexivity.
  intros H. vm_compute in H. inversion H as [| a l Ha Hl]; subst.
  specialize (Ha eq_refl). discriminate.
Qed.


(** ** A pulse exactly at the half-bit limit *)

Lemma at_limit_not_long (lim : Q) (x : Z) :
  (inject_Z x == lim)%Q -> is_long lim x = false.
Proof.
  intros H. unfold is_long, Qltb.
  assert (G : Qle_bool (inject_Z x) lim = true)
    by (apply Qle_bool_iff; rewrite H; apply Qle_refl).
  now rewrite G.
Qed.

Lemma at_limit_not_short (lim : Q) (x : Z) :
  (inject_Z x == lim)%Q -> is_short lim x = false.
Proof.
  intros H. unfold is_short, Qltb.
  assert (G : Qle_bool lim (inject_Z x) = true)
    by (apply Qle_bool_iff; rewrite H; apply Qle_refl).
  now rewrite G.
Qed.

Lemma at_limit_le (lim : Q) (x : Z) :
  (inject_Z x == lim)%Q -> Qle_bool (inject_Z x) lim = true.
Proof. intros H. apply Qle_bool_iff. rewrite H. apply Qle_refl. Qed.

Lemma long_not_short (lim : Q) (x : Z) : is_long lim x = true -> is_short lim x = false.
Proof.
  unfold is_long, is_short, Qltb. intros H.
  apply negb_true_iff in H. apply negb_false_iff. apply Qle_bool_iff.
  destruct (Qlt_le_dec lim (inject_Z x)) as [Hlt | Hle].
  - now apply Qlt_le_weak.
  - apply Qle_bool_iff in Hle. congruence.
Qed.

Lemma short_not_long (lim : Q) (x : Z) : is_short lim x = true -> is_long lim x = false.
Proof.
  unfold is_long, is_short, Qltb. intros H.
  apply negb_true_iff in H. apply negb_false_iff. apply Qle_bool_iff.
  destruct (Qlt_le_dec (inject_Z x) lim) as [Hlt | Hle].
  - now apply Qlt_le_weak.
  - apply Qle_bool_iff in Hle. congruence.
Qed.

Lemma true_div_ok (x : Z) (sr : option Z) :
  falsy sr = false -> exists q, true_div (Some x) sr = Ok q.
Proof.
  destruct sr as [v |]; cbn; [| discriminate].
  intros ->. now eexists.
Qed.

(** [putbit] leaves the half-bit limit alone. *)
Lemma putbit_keeps_limit (bit : Z) (bs be : Q) (d : Decoder) :
  halfbit_limit (object_of (putbit bit bs be d)) = halfbit_limit d.
Proof.
  refine (sat_object (fun s => halfbit_limit s = halfbit_limit d)
            (fun _ => True) (fun _ => True) (putbit bit bs be) d _ eq_refl).
  unfold putbit, put. apply sat_bind; [now apply sat_emit | intros _].
  apply sat_add_bit; [| auto | exact I].
  intros s s' He Hs. rewrite <- Hs. unfold edge in He. congruence.
Qed.

Lemma putbit_then_mark_keeps_limit (bit pos : Z) (bs be : Q) (d : Decoder) :
  halfbit_limit (object_of ((putbit bit bs be ;;; modify (set_last_bit_pos pos)) d)) =
    halfbit_limit d.
Proof.
  pose proof (putbit_keeps_limit bit bs be d) as H.
  unfold bind, modify. destruct (putbit bit bs be d) as [[[[] | e] s1] o1]; cbn in *;
    [| exact H].
  destruct s1. exact H.
Qed.

(** C6, as the code has it.  A pulse whose length equals the half-bit limit
    is neither long nor short when it is the current pulse: nothing is
    emitted for it and [manchester_decode] leaves the decoder object as it
    was.  When it is the previous pulse it counts as short, because the
    code tests [self.oldpl <= self.halfbit_limit]: after it a long pulse is
    decoded to a symbol that starts a whole previous pulse back, and a short
    pulse to one as well, unless a symbol already ended later. *)
Theorem pulse_at_limit
    (d : Decoder) (samplenum pl pp pin level pol : Z) :
  let run := manchester_decode samplenum pl pp pin d in
  let bit := Z.lxor level pol in
  let start := inject_Z (oldsamplenum d - oldpl d) in
  let middle := int_float (inject_Z samplenum - half pl)%Q in
  ((inject_Z pl == halfbit_limit d)%Q ->
   output_of run = [] /\ object_of run = d) /\
  ((inject_Z (oldpl d) == halfbit_limit d)%Q ->
   oldpin d = Some level -> polarity d = Some pol ->
   falsy (samplerate d) = false ->
   (is_long (halfbit_limit d) pl = true ->
    run = (putbit bit start (inject_Z middle) ;;;
           modify (set_last_bit_pos middle)) d) /\
   (is_short (halfbit_limit d) pl = true ->
    last_bit_pos d <= oldsamplenum d - oldpl d ->
    run = (putbit bit start (inject_Z samplenum) ;;;
           modify (set_last_bit_pos samplenum)) d)).
Proof.
  intros run bit start middle. subst run. split.
  - intros Heq. unfold manchester_decode. rewrite bind_gets, bind_attr.
    destruct (polarity d) as [p |]; [| now split].
    destruct (oldpin d) as [o |]; [rewrite bind_ret | now split].
    rewrite bind_gets, (at_limit_not_long _ _ Heq). cbn [when].
    rewrite bind_ret, bind_gets, (at_limit_not_short _ _ Heq). now split.
  - intros Heq Hpin Hpol Hsr.
    assert (Hprev_long := at_limit_not_long _ _ Heq).
    assert (Hprev_le := at_limit_le _ _ Heq).
    split.
    + intros Hlong. unfold manchester_decode.
      rewrite bind_gets, bind_attr, Hpol, Hpin, bind_ret, bind_gets, Hlong.
      cbn [when].
      destruct (true_div_ok (samplenum - oldsamplenum d) _ Hsr) as [q Hq].
      match goal with
      | |- bind ?m ?k d = ?rhs =>
          assert (HX : m d = rhs)
      end.
      { rewrite !bind_gets, Hq, bind_lift_ok, !bind_gets, Hprev_long. cbn [when].
        rewrite bind_ret, !bind_gets, Hprev_le. cbn [when].
        apply bind_cong. now rewrite !bind_gets. }
      rewrite (bind_cong _ _ _ _ HX).
      apply (bind_skip (fun s => halfbit_limit s = halfbit_limit d)).
      * apply putbit_then_mark_keeps_limit.
      * intros s' Hs'. rewrite bind_gets, Hs', (long_not_short _ _ Hlong). reflexivity.
    + intros Hshort Hlast. unfold manchester_decode.
      rewrite bind_gets, bind_attr, Hpol, Hpin, bind_ret, bind_gets,
        (short_not_long _ _ Hshort).
      cbn [when]. rewrite bind_ret, bind_gets, Hshort. cbn [when].
      destruct (true_div_ok (samplenum - oldsamplenum d) _ Hsr) as [q Hq].
      rewrite !bind_gets, Hq, bind_lift_ok, !bind_gets, Hprev_long. cbn [when].
      rewrite bind_ret, !bind_gets, Hprev_le. cbn [when].
      rewrite !bind_gets.
      assert (Hle : (last_bit_pos d <=? oldsamplenum d - oldpl d) = true)
        by now apply Z.leb_le.
      rewrite Hle. cbn [when]. now rewrite !bind_gets.
Qed.


Lemma pulse_at_limit_witness :
  let d1 := object_of (decode_sample (0, 0) configured) in
  let d2 := object_of (decode 0 385 [(0, 0); (384, 1)] configured) in
  (output_of (manchester_decode 384 384 1 1 d1) = [] /\
   object_of (manchester_decode 384 384 1 1 d1) = d1) /\
  manchester_decode 984 600 0 0 d2 =
    (putbit (Z.lxor 1 1) (inject_Z (oldsamplenum d2 - oldpl d2))
       (inject_Z (int_float (inject_Z 984 - half 600)%Q)) ;;;
     modify (set_last_bit_pos (int_float (inject_Z 984 - half 600)%Q))) d2 /\
  manchester_decode 484 100 0 0 d2 =
    (putbit (Z.lxor 1 1) (inject_Z (oldsamplenum d2 - oldpl d2)) (inject_Z 484) ;;;
     modify (set_last_bit_pos 484)) d2.
Proof.
  intros d1 d2. split; [| split].
  - apply (proj1 (pulse_at_limit d1 384 384 1 1 0 1)). reflexivity.
  - apply (proj2 (pulse_at_limit d2 984 600 0 0 1 1)); reflexivity.
  - apply (proj2 (pulse_at_limit d2 484 100 0 0 1 1));
      first [reflexivity | vm_compute; discriminate].
Defined.

(** C6, as it is worded, fails for the previous pulse: after a pulse of
    exactly 384 samples, the half-bit limit, a long pulse is decoded in the
    "previous pulse short" shape, with a symbol that starts a whole previous
    pulse back. *)
Lemma previous_at_limit_counts_as_short :
  let d := object_of (decode 0 385 [(0, 0); (384, 1)] configured) in
  (inject_Z (oldpl d) == halfbit_limit d)%Q /\
  oldsamplenum d - oldpl d = 0 /\
  output_of (manchester_decode 984 600 0 0 d) = [Ann 0 684 0 ["0"]] /\
  output_of (manchester_decode 984 600 0 0 d) <> [] /\
  output_of (decode 0 985 [(0, 0); (384, 1); (984, 0)] configured) =
    [Ann 0 684 0 ["0"]].
Proof. vm_compute. repeat split; try reflexivity. discriminate. Qed.


(** ** The theorems on the frame state machine, at a concrete frame *)

Lemma row_parity_verdict_witness :
  (state in_payload = PAYLOAD /\ data_bits in_payload = 0%nat /\
   length (data_col_parity in_payload) = 6%nat) /\
  let res := feed (row_symbols example_row) in_payload in
  let v := verdict (row_xor example_row =? bit_of (rp example_row)) in
  result_of res = Ok tt /\
  output_of res =
    [Ann (int_float (start_of (d1 example_row))) (int_float (start_of (rp example_row)))
       2 ["Data"; "Da"; "D"];
     Ann (int_float (start_of (rp example_row))) (int_float (stop_of (rp example_row)))
       4 ["Parity"; "Par"; "Pa"; "P"];
     Ann (int_float (start_of (d1 example_row))) (int_float (start_of (rp example_row)))
       3 [hex_upper (nibble example_row)];
     Ann (int_float (start_of (rp example_row))) (int_float (stop_of (rp example_row)))
       6 v] /\
  (v = OK_strings <-> row_xor example_row = bit_of (rp example_row)) /\
  (v = ERROR_strings <-> row_xor example_row <> bit_of (rp example_row)).
Proof.
  split; [repeat split |].
  apply (row_parity_verdict in_payload example_row); reflexivity.
Defined.

Lemma column_parity_verdict_witness :
  let rows := repeat example_row 10 in
  let t (i : Z) : symbol := (0, inject_Z (512 * i), inject_Z (512 * (i + 1))) in
  let d' := object_of (feed (payload_symbols rows) in_payload) in
  (state in_payload = PAYLOAD /\ payload_cnt in_payload = 0%nat /\
   data_bits in_payload = 0%nat /\
   data_col_parity in_payload = [0; 0; 0; 0; 0; 0] /\
   length (col_parity in_payload) = 6%nat /\ length rows = 10%nat) /\
  state d' = TRAILER /\
  last_text (feed [t 0; t 1; t 2; t 3; t 4] d') = Some OK_strings /\
  last_text (feed [flip (t 0); t 1; t 2; t 3; t 4] d') = Some ERROR_strings /\
  last_text (feed [t 0; flip (t 1); t 2; t 3; t 4] d') = Some ERROR_strings /\
  last_text (feed [t 0; t 1; flip (t 2); t 3; t 4] d') = Some ERROR_strings /\
  last_text (feed [t 0; t 1; t 2; flip (t 3); t 4] d') = Some ERROR_strings /\
  state (object_of (feed [t 0; t 1; t 2; t 3; t 4] d')) = HEADER /\
  data_col_parity (object_of (feed [t 0; t 1; t 2; t 3; t 4] d')) = [0; 0; 0; 0; 0; 0] /\
  col_parity (object_of (feed [t 0; t 1; t 2; t 3; t 4] d')) = [0; 0; 0; 0; 0; 0].
Proof.
  intros rows t d'.
  split; [repeat split |].
  destruct (column_parity_verdict in_payload rows (t 0) (t 1) (t 2) (t 3) (t 4)
              eq_refl eq_refl eq_refl eq_refl eq_refl eq_refl)
    as (_ & H2 & _ & _ & _ & H6 & H7 & H8 & H9).
  assert (Hok : last_text (feed [t 0; t 1; t 2; t 3; t 4] d') = Some OK_strings)
    by (vm_compute; reflexivity).
  destruct (H6 Hok) as (F1 & F2 & F3 & F4).
  repeat split; assumption.
Defined.

End Em4100Facts.

(** * Further properties of the JTAG / STM32 decoder *)

Module JtagStm32More.
Import JtagStm32 JtagStm32Aux.

(** ** Slices of a string that ends in a known suffix *)

Lemma length_append (a b : string) :
  String.length (a ++ b) = (String.length a + String.length b)%nat.
Proof.
  induction a as [| c a IH]; [reflexivity |].
  change (S (String.length (a ++ b)) = S (String.length a + String.length b)).
  now rewrite IH.
Qed.

Lemma substring_whole (s : string) : String.substring 0 (String.length s) s = s.
Proof. induction s as [| c s IH]; cbn; [reflexivity | now rewrite IH]. Qed.

Lemma substring_prefix (a b : string) :
  String.substring 0 (String.length a) (a ++ b) = a.
Proof.
  induction a as [| c a IH].
  - destruct b; reflexivity.
  - change (String c (String.substring 0 (String.length a) (a ++ b)) = String c a).
    now rewrite IH.
Qed.

Lemma substring_skip (a b : string) (n : nat) :
  String.substring (String.length a) n (a ++ b) = String.substring 0 n b.
Proof.
  induction a as [| c a IH]; [reflexivity |].
  change (String.substring (String.length a) n (a ++ b) = String.substring 0 n b).
  exact IH.
Qed.

Lemma get_skip (a b : string) (n : nat) :
  String.get (String.length a + n) (a ++ b) = String.get n b.
Proof.
  induction a as [| c a IH]; [reflexivity |].
  change (String.get (String.length a + n) (a ++ b) = String.get n b).
  exact IH.
Qed.

Lemma len_append (a b : string) : len (a ++ b) = len a + len b.
Proof. unfold len. rewrite length_append. lia. Qed.

Lemma len_nonneg (a : string) : 0 <= len a.
Proof. unfold len. lia. Qed.

(** [(a + b)[-n:]] for [n = len(b)] *)
Lemma slice_suffix (a b : string) :
  b <> "" -> slice (a ++ b) (Some (- len b)) None = b.
Proof.
  intros Hb. unfold slice, clamp. rewrite len_append.
  assert (0 < len b) by (unfold len; destruct b; [congruence | cbn; lia]).
  pose proof (len_nonneg a).
  replace (- len b <? 0) with true by (symmetry; apply Z.ltb_lt; lia).
  replace (Z.max (- len b + (len a + len b)) 0) with (len a) by lia.
  replace (len a + len b - len a) with (len b) by lia.
  unfold len. rewrite !Nat2Z.id, substring_skip. apply substring_whole.
Qed.

(** [(a + b)[:-n]] for [n = len(b)] *)
Lemma slice_drop_suffix (a b : string) :
  b <> "" -> slice (a ++ b) None (Some (- len b)) = a.
Proof.
  intros Hb. unfold slice, clamp. rewrite len_append.
  assert (0 < len b) by (unfold len; destruct b; [congruence | cbn; lia]).
  pose proof (len_nonneg a).
  replace (- len b <? 0) with true by (symmetry; apply Z.ltb_lt; lia).
  replace (Z.max (- len b + (len a + len b)) 0 - 0) with (len a) by lia.
  unfold len. rewrite Nat2Z.id. cbn [Z.to_nat]. apply substring_prefix.
Qed.


(** ** What the primitives can raise *)

Lemma index_builtin (s : string) (i : Z) : raises_builtin (index s i).
Proof.
  unfold raises_builtin, index. intros e.
  destruct ((_ <? 0) || _); [intros [= <-]; exact I |].
  destruct (String.get _ s); [discriminate | intros [= <-]; exact I].
Qed.

Lemma int_of_digits_builtin (base : Z) (s : string) :
  raises_builtin (int_of_digits base s).
Proof.
  unfold raises_builtin, int_of_digits. intros e.
  destruct s; [intros [= <-]; exact I |].
  destruct (digits base _ 0); [discriminate | intros [= <-]; exact I].
Qed.

Lemma int_base2_builtin (s : string) : raises_builtin (int_base2 s).
Proof. apply int_of_digits_builtin. Qed.

Lemma subscript_builtin {V : Type} (m : gmap string V) (k : string) :
  raises_builtin (subscript m k).
Proof.
  unfold raises_builtin, subscript. intros e.
  destruct (m !! k); [discriminate | intros [= <-]; exact I].
Qed.

Lemma format_builtin_bounded (n : nat) :
  forall (fmt : string) (args : list value),
    (String.length fmt <= n)%nat -> raises_builtin (format fmt args).
Proof.
  induction n as [| n IH]; intros fmt args Hlen e.
  - destruct fmt; [| cbn in Hlen; lia].
    cbn. destruct args; [discriminate | intros [= <-]; exact I].
  - destruct fmt as [| c rest].
    + cbn. destruct args; [discriminate | intros [= <-]; exact I].
    + assert (Hrest : forall a, raises_builtin (format rest a))
        by (intros a; apply IH; cbn in Hlen; lia).
      assert (Hplain : forall c', match format rest args with
                                  | Ok r => Ok (String c' r)
                                  | Raise e0 => Raise e0
                                  end = Raise e -> builtin e).
      { intros c'. destruct (format rest args) eqn:Hf; [discriminate |].
        intros [= <-]. now apply (Hrest args). }
      destruct (Ascii.eqb c "%") eqn:Hc.
      * apply Ascii.eqb_eq in Hc. subst c.
        destruct rest as [| c2 rest2]; [cbn; intros [= <-]; exact I |].
        assert (Hrest2 : forall a, raises_builtin (format rest2 a))
          by (intros a; apply IH; cbn in Hlen; lia).
        cbn [format]. destruct (Ascii.eqb c2 "%").
        -- destruct (format rest2 args) eqn:Hf; [discriminate |].
           intros [= <-]. now apply (Hrest2 args).
        -- destruct args as [| v args']; [intros [= <-]; exact I |].
           cbv zeta.
           destruct (if Ascii.eqb c2 "s" then _ else _) as [t | e0] eqn:Hconv.
           ++ destruct (format rest2 args') eqn:Hf; [discriminate |].
              intros [= <-]. now apply (Hrest2 args').
           ++ intros [= <-].
              destruct (Ascii.eqb c2 "s"); [discriminate |].
              destruct (Ascii.eqb c2 "x");
                [destruct v; [injection Hconv as <-; exact I | discriminate] |].
              destruct (Ascii.eqb c2 "X");
                [destruct v; [injection Hconv as <-; exact I | discriminate] |].
              injection Hconv as <-. exact I.
      * assert (Hne : c <> "%"%char) by now apply Ascii.eqb_neq.
        replace (format (String c rest) args)
          with (match format rest args with
                | Ok r => Ok (String c r)
                | Raise e0 => Raise e0
                end).
        -- apply Hplain.
        -- destruct c as [[] [] [] [] [] [] [] []]; try reflexivity.
           congruence.
Qed.

Lemma format_builtin (fmt : string) (args : list value) :
  raises_builtin (format fmt args).
Proof. now apply (format_builtin_bounded (String.length fmt)). Qed.


(** ** What the register handlers can emit and raise *)

Ltac bind_step :=
  first
    [ apply sat_ret | apply sat_gets | apply sat_when | apply sat_if
    | apply sat_bind; [| intros ?] ].

Section Handlers.
Variable I : Decoder -> Prop.
Variable P : annotation -> Prop.
Variable E : exn -> Prop.
Hypothesis P_here :
  forall s a b t, I s -> ss s = Some a -> es s = Some b -> P (Ann a b 0 t).
Hypothesis E_builtin : forall e, builtin e -> E e.

Lemma sat_put (texts : outcome (list string)) :
  raises_builtin texts -> sat I P E (put 0 texts).
Proof.
  intros Ht s Hs. unfold put, bind, attr, lift, emit.
  destruct (ss s) as [a |] eqn:Hss; cbn.
  - destruct (es s) as [b |] eqn:Hes; cbn.
    + destruct texts as [t | e]; cbn.
      * split; [exact Hs |]. split; [| intros e H; discriminate].
        constructor; [| constructor]. now apply (P_here s).
      * split; [exact Hs |]. split; [constructor |].
        intros e' [= <-]. apply E_builtin. now apply Ht.
    + split; [exact Hs |]. split; [constructor |].
      intros e [= <-]. now apply E_builtin.
  - split; [exact Hs |]. split; [constructor |].
    intros e [= <-]. now apply E_builtin.
Qed.

Lemma sat_lift_builtin {A : Type} (o : outcome A) :
  raises_builtin o -> sat I P E (lift o).
Proof. intros Ho. apply sat_lift. intros e He. apply E_builtin. now apply Ho. Qed.

Lemma ok_builtin {A : Type} (a : A) : raises_builtin (Ok a).
Proof. intros e H. discriminate. Qed.

Lemma fmt1_builtin (fmt : string) (args : list value) : raises_builtin (fmt1 fmt args).
Proof.
  unfold fmt1. intros e. destruct (format fmt args) eqn:Hf; [discriminate |].
  intros [= <-]. now apply (format_builtin fmt args).
Qed.

Ltac handler_step :=
  first
    [ apply sat_put;
      first [apply ok_builtin | apply fmt1_builtin]
    | apply sat_lift_builtin;
      first [ apply index_builtin | apply int_base2_builtin
            | apply subscript_builtin | apply format_builtin ]
    | bind_step ].

Lemma sat_handle_reg_bypass (bits : string) : sat I P E (handle_reg_bypass bits).
Proof. unfold handle_reg_bypass. repeat handler_step. Qed.

Lemma sat_handle_reg_idcode (bits : string) : sat I P E (handle_reg_idcode bits).
Proof.
  unfold handle_reg_idcode. apply sat_put.
  intros e. destruct (int_base2 _) eqn:Hi.
  - apply fmt1_builtin.
  - intros [= <-]. now apply (int_base2_builtin _ _ Hi).
Qed.

Lemma sat_handle_reg_acc (label bits : string) : sat I P E (handle_reg_acc label bits).
Proof. unfold handle_reg_acc. repeat handler_step. Qed.

Lemma sat_handle_reg_abort (bits : string) : sat I P E (handle_reg_abort bits).
Proof. unfold handle_reg_abort. repeat handler_step. Qed.

Lemma sat_handle_reg_unknown (bits : string) : sat I P E (handle_reg_unknown bits).
Proof. unfold handle_reg_unknown. repeat handler_step. Qed.

(** [getattr] returns one of the six handlers or raises. *)
Lemma sat_method (name : string) (h : string -> M Decoder unit) (val : string) :
  methods !! name = Some h -> sat I P E (h val).
Proof.
  intros H. apply elem_of_list_to_map_2 in H.
  rewrite !elem_of_cons, elem_of_nil in H.
  destruct H as [H | [H | [H | [H | [H | [H | []]]]]]]; injection H as _ ->.
  - apply sat_handle_reg_bypass.
  - apply sat_handle_reg_idcode.
  - apply sat_handle_reg_acc.
  - apply sat_handle_reg_acc.
  - apply sat_handle_reg_abort.
  - apply sat_handle_reg_unknown.
Qed.

Lemma sat_dispatch (st val : string) :
  (forall s, I s -> I (set_state "IDLE" s)) -> sat I P E (dispatch st val).
Proof.
  intros HI. unfold dispatch. apply sat_bind; [apply sat_lift_builtin, format_builtin | intros name].
  unfold getattr. destruct (methods !! name) as [h |] eqn:Hm.
  - intros s Hs. rewrite bind_ret. revert s Hs.
    apply sat_bind; [now apply (sat_method name) | intros _].
    now apply sat_modify.
  - intros s Hs. rewrite bind_raise. cbn.
    split; [exact Hs |]. split; [constructor |].
    intros e [= <-]. now apply E_builtin.
Qed.
End Handlers.


(** ** The branches of [decode] *)

Lemma decode_cases (d : Decoder) (ss_ es_ : Z) (cmd val : string) :
  decode ss_ es_ (cmd, val) d =
    (if String.eqb (state d) "IDLE" then
       if negb (String.eqb cmd "IR TDI") then ret tt
       else
         modify (set_state (select val)) ;;;
         let! st' := gets state in
         put 0 (Ok ["IR: " ++ st'])
     else if contains (state d) "BYPASS" then
       if negb (String.eqb cmd "DR TDI") then ret tt else dispatch (state d) val
     else if mem (state d) register_states then
       if negb (mem cmd ["DR TDI"; "DR TDO"]) then ret tt else dispatch (state d) val
     else
       let! msg := lift (format "Invalid state: %s" [VStr (state d)]) in
       raise (Exception msg))
      (entered ss_ es_ d).
Proof.
  unfold decode, entered. cbn [fst snd]. rewrite !bind_modify, bind_gets.
  assert (Hst : state (set_es es_ (set_ss ss_ d)) = state d) by now destruct d.
  rewrite Hst. unfold dispatch, register_states.
  destruct (String.eqb (state d) "IDLE"); [reflexivity |].
  destruct (contains (state d) "BYPASS");
    [destruct (negb _); [reflexivity | now rewrite bind_gets, Hst] |].
  destruct (mem (state d) _);
    [destruct (negb _); [reflexivity | now rewrite bind_gets, Hst] |].
  now rewrite bind_gets, Hst.
Qed.

(** Evaluate the three tests of [decode] on a literal state. *)
Ltac tests st :=
  let t1 := eval vm_compute in (String.eqb st "IDLE") in
  change (String.eqb st "IDLE") with t1;
  let t2 := eval vm_compute in (contains st "BYPASS") in
  change (contains st "BYPASS") with t2;
  let t3 := eval vm_compute in (mem st register_states) in
  change (mem st register_states) with t3;
  cbv iota.

Lemma select_known (val : string) : In (select val) states.
Proof.
  unfold select. destruct (ir !! _) as [[name n] |] eqn:H; cbn.
  - apply elem_of_list_to_map_2 in H.
    rewrite !elem_of_cons, elem_of_nil in H.
    destruct H as [H | [H | [H | [H | [H | []]]]]]; injection H as _ -> _;
      cbn; tauto.
  - cbn. tauto.
Qed.

Lemma builtin_not_exception (e : exn) : builtin e -> forall msg, e <> Exception msg.
Proof. intros H msg ->. exact H. Qed.

(** X1.  [self.state] never leaves its seven values: whatever the command
    and the bit string, and whether the call returns or raises, a [decode]
    that starts in one of them ends in one of them, and it does not raise
    the invalid-state exception. *)
Theorem state_stays_known (d : Decoder) (ss_ es_ : Z) (cmd val : string) :
  In (state d) states ->
  In (state (object_of (decode ss_ es_ (cmd, val) d))) states /\
  forall msg, result_of (decode ss_ es_ (cmd, val) d) <> Raise (Exception msg).
Proof.
  intros Hin. rewrite decode_cases.
  assert (Hst : state (entered ss_ es_ d) = state d) by now destruct d.
  pose (Known := fun s : Decoder => In (state s) states).
  pose (Any := fun _ : annotation => True).
  pose (NotInvalid := fun e : exn => forall msg, e <> Exception msg).
  assert (HK : Known (entered ss_ es_ d)) by (unfold Known; now rewrite Hst).
  assert (Hidle : forall s, Known s -> Known (set_state "IDLE" s))
    by (intros [] _; cbn; tauto).
  assert (Hsel : forall s, Known s -> Known (set_state (select val) s))
    by (intros [] _; apply select_known).
  assert (HP : forall s a b t, Known s -> ss s = Some a -> es s = Some b ->
                 Any (Ann a b 0 t)) by (intros; exact I).
  assert (HE : forall e, builtin e -> NotInvalid e)
    by (intros e He; exact (builtin_not_exception e He)).
  assert (Hdisp : forall st, sat Known Any NotInvalid (dispatch st val))
    by (intros st; now apply sat_dispatch).
  assert (Hir : sat Known Any NotInvalid
                  (modify (set_state (select val)) ;;;
                   let! st' := gets state in put 0 (Ok ["IR: " ++ st']))).
  { apply sat_bind; [now apply sat_modify | intros _].
    apply sat_bind; [apply sat_gets | intros st'].
    apply sat_put; auto using ok_builtin. }
  assert (Hret : sat Known Any NotInvalid (ret tt)) by apply sat_ret.
  assert (Hgoal : forall m : M Decoder unit, sat Known Any NotInvalid m ->
            In (state (object_of (m (entered ss_ es_ d)))) states /\
            forall msg, result_of (m (entered ss_ es_ d)) <> Raise (Exception msg)).
  { intros m Hm. destruct (Hm _ HK) as (H1 & _ & H3). split; [exact H1 |].
    intros msg Hr. exact (H3 _ Hr msg eq_refl). }
  cbn in Hin.
  destruct Hin as [<- | [<- | [<- | [<- | [<- | [<- | [<- | []]]]]]]];
    match goal with
    | |- context [String.eqb ?st "IDLE"] => tests st
    end;
    destruct (negb _); auto.
Qed.

Lemma state_stays_known_witness :
  In (state init) states /\
  In (state (object_of (decode 0 1 ("IR TDI", "0000") init))) states /\
  forall msg, result_of (decode 0 1 ("IR TDI", "0000") init) <> Raise (Exception msg).
Proof.
  split; [cbn; tauto |].
  apply (state_stays_known init 0 1 "IR TDI" "0000"). cbn. tauto.
Defined.

(** ** The invalid-state error *)

Lemma format_invalid_state (st : string) :
  format "Invalid state: %s" [VStr st] = Ok ("Invalid state: " ++ st).
Proof. cbn. now rewrite Em4100Facts.append_empty. Qed.

(** X2.  [decode] raises the invalid-state exception exactly when
    [self.state] is not ['IDLE'], not a substring of ['BYPASS'] (the test
    [self.state in ('BYPASS')] is a substring test) and none of the five
    register states; it then names the state in the message, emits nothing
    and has only recorded its two positions. *)
Theorem invalid_state_raises (d : Decoder) (ss_ es_ : Z) (cmd val : string) :
  let invalid :=
    String.eqb (state d) "IDLE" = false /\
    contains (state d) "BYPASS" = false /\
    mem (state d) register_states = false in
  ((exists msg, result_of (decode ss_ es_ (cmd, val) d) = Raise (Exception msg)) <->
   invalid) /\
  (invalid ->
   decode ss_ es_ (cmd, val) d =
     (Raise (Exception ("Invalid state: " ++ state d)), entered ss_ es_ d, [])).
Proof.
  intros invalid. subst invalid. rewrite decode_cases.
  pose (Any := fun _ : annotation => True).
  pose (Always := fun _ : Decoder => True).
  pose (NotInvalid := fun e : exn => forall msg, e <> Exception msg).
  assert (HP : forall s a b t, Always s -> ss s = Some a -> es s = Some b ->
                 Any (Ann a b 0 t)) by (intros; exact I).
  assert (HE : forall e, builtin e -> NotInvalid e)
    by (intros e He; exact (builtin_not_exception e He)).
  assert (Hdisp : forall st, sat Always Any NotInvalid (dispatch st val))
    by (intros st; apply sat_dispatch; [exact HP | exact HE | intros; exact I]).
  assert (Hir : sat Always Any NotInvalid
                  (modify (set_state (select val)) ;;;
                   let! st' := gets state in put 0 (Ok ["IR: " ++ st']))).
  { apply sat_bind; [apply sat_modify; intros; exact I | intros _].
    apply sat_bind; [apply sat_gets | intros st'].
    apply sat_put; auto using ok_builtin. }
  assert (Hret : sat Always Any NotInvalid (ret tt)) by apply sat_ret.
  assert (Hno : forall m : M Decoder unit, sat Always Any NotInvalid m ->
            ~ exists msg, result_of (m (entered ss_ es_ d)) = Raise (Exception msg)).
  { intros m Hm [msg Hr]. destruct (Hm (entered ss_ es_ d) I) as (_ & _ & H3).
    exact (H3 _ Hr msg eq_refl). }
  destruct (String.eqb (state d) "IDLE").
  { split; [split |]; [intros H; exfalso; revert H; apply Hno; destruct (negb _); auto
                      | intros (H & _); discriminate | intros (H & _); discriminate]. }
  destruct (contains (state d) "BYPASS").
  { split; [split |]; [intros H; exfalso; revert H; apply Hno; destruct (negb _); auto
                      | intros (_ & H & _); discriminate
                      | intros (_ & H & _); discriminate]. }
  destruct (mem (state d) register_states).
  { split; [split |]; [intros H; exfalso; revert H; apply Hno; destruct (negb _); auto
                      | intros (_ & _ & H); discriminate
                      | intros (_ & _ & H); discriminate]. }
  rewrite format_invalid_state, bind_lift_ok. unfold raise. cbn.
  split; [split |]; auto. intros _. now eexists.
Qed.

Lemma invalid_state_raises_witness :
  let d := {| state := "RESET"; ss := None; es := None |} in
  (String.eqb (state d) "IDLE" = false /\
   contains (state d) "BYPASS" = false /\
   mem (state d) register_states = false) /\
  decode 0 1 ("IR TDI", "1110") d =
    (Raise (Exception ("Invalid state: " ++ state d)), entered 0 1 d, []).
Proof.
  intros d. split; [repeat split |].
  apply (proj2 (invalid_state_raises d 0 1 "IR TDI" "1110")). repeat split.
Defined.

(** ** Running a handler *)

Lemma bind_run {A B : Type} (m : M Decoder A) (k : A -> M Decoder B)
    (s s1 : Decoder) (r : outcome A) (o1 : list annotation) :
  m s = (r, s1, o1) ->
  bind m k s =
    match r with
    | Ok a => (result_of (k a s1), object_of (k a s1), o1 ++ output_of (k a s1))%list
    | Raise e => (Raise e, s1, o1)
    end.
Proof.
  intros H. unfold bind. rewrite H. destruct r as [a | e]; [| reflexivity].
  now destruct (k a s1) as [[r2 s2] o2].
Qed.

Lemma dispatch_run (st name val : string) (h : string -> M Decoder unit) (s : Decoder) :
  format "handle_reg_%s" [VStr (lower st)] = Ok name ->
  methods !! name = Some h ->
  dispatch st val s = (h val ;;; modify (set_state "IDLE")) s.
Proof.
  intros Hf Hm. unfold dispatch, getattr.
  now rewrite Hf, bind_lift_ok, Hm, bind_ret.
Qed.

Lemma entered_ss (ss_ es_ : Z) (d : Decoder) : ss (entered ss_ es_ d) = Some ss_.
Proof. now destruct d. Qed.

Lemma entered_es (ss_ es_ : Z) (d : Decoder) : es (entered ss_ es_ d) = Some es_.
Proof. now destruct d. Qed.

Lemma put_ok (cls : Z) (t : list string) (s : Decoder) (a b : Z) :
  ss s = Some a -> es s = Some b -> put cls (Ok t) s = (Ok tt, s, [Ann a b cls t]).
Proof. intros Ha Hb. unfold put, bind, attr, lift, emit. now rewrite Ha, Hb. Qed.

Lemma put_raise (cls : Z) (e : exn) (s : Decoder) (a b : Z) :
  ss s = Some a -> es s = Some b -> put cls (Raise e) s = (Raise e, s, []).
Proof. intros Ha Hb. unfold put, bind, attr, lift, emit. now rewrite Ha, Hb. Qed.

(** A handler call that emits one annotation, or raises, followed by the
    return to ['IDLE']. *)
Lemma put_then_idle (t : list string) (ss_ es_ : Z) (d : Decoder) :
  (put 0 (Ok t) ;;; modify (set_state "IDLE")) (entered ss_ es_ d) =
    (Ok tt, set_state "IDLE" (entered ss_ es_ d), [Ann ss_ es_ 0 t]).
Proof.
  now rewrite (bind_run _ _ _ _ _ _
                 (put_ok 0 t _ ss_ es_ (entered_ss _ _ _) (entered_es _ _ _))).
Qed.

Lemma raise_then_idle (e : exn) (ss_ es_ : Z) (d : Decoder) :
  (put 0 (Raise e) ;;; modify (set_state "IDLE")) (entered ss_ es_ d) =
    (Raise e, entered ss_ es_ d, []).
Proof.
  now rewrite (bind_run _ _ _ _ _ _
                 (put_raise 0 e _ ss_ es_ (entered_ss _ _ _) (entered_es _ _ _))).
Qed.

Lemma mem_dr (cmd : string) :
  cmd = "DR TDI" \/ cmd = "DR TDO" -> mem cmd ["DR TDI"; "DR TDO"] = true.
Proof. now intros [-> | ->]. Qed.

(** A register state that receives a data register transfer runs its
    handler and then goes to ['IDLE']. *)
Lemma decode_register (d : Decoder) (ss_ es_ : Z) (cmd val st name : string)
    (h : string -> M Decoder unit) :
  state d = st -> In st register_states ->
  cmd = "DR TDI" \/ cmd = "DR TDO" ->
  format "handle_reg_%s" [VStr (lower st)] = Ok name ->
  methods !! name = Some h ->
  decode ss_ es_ (cmd, val) d =
    (h val ;;; modify (set_state "IDLE")) (entered ss_ es_ d).
Proof.
  intros Hst Hin Hcmd Hf Hm. rewrite decode_cases, Hst, (mem_dr _ Hcmd).
  cbn [negb]. rewrite <- (dispatch_run st name val h _ Hf Hm).
  cbn in Hin. destruct Hin as [<- | [<- | [<- | [<- | [<- | []]]]]]; reflexivity.
Qed.

(** ** Bit strings *)

Lemma digit_of_bit (c : ascii) :
  (Ascii.eqb c "0" || Ascii.eqb c "1") = true ->
  Z.of_nat (nat_of_ascii c) - 48 = (if Ascii.eqb c "1" then 1 else 0).
Proof.
  intros H. apply orb_true_iff in H.
  destruct H as [H | H]; apply Ascii.eqb_eq in H; subst c; reflexivity.
Qed.

Lemma bit_of_digit (c : ascii) :
  let d := Z.of_nat (nat_of_ascii c) - 48 in
  (0 <=? d) && (d <? 2) = true -> (Ascii.eqb c "0" || Ascii.eqb c "1") = true.
Proof.
  intros d H. apply andb_true_iff in H. destruct H as [H1 H2].
  apply Z.leb_le in H1. apply Z.ltb_lt in H2. subst d.
  assert (Hc : nat_of_ascii c = 48%nat \/ nat_of_ascii c = 49%nat) by lia.
  apply orb_true_iff.
  destruct Hc as [Hc | Hc]; [left | right]; apply Ascii.eqb_eq;
    rewrite <- (ascii_nat_embedding c), Hc; reflexivity.
Qed.

Lemma digits_bits (s : string) :
  forall acc, is_bits s = true -> digits 2 s acc = Some (bin_value_from acc s).
Proof.
  induction s as [| c s IH]; intros acc H; [reflexivity |].
  cbn [is_bits] in H. apply andb_true_iff in H. destruct H as [Hc Hs].
  cbn [digits bin_value_from]. cbv zeta.
  rewrite (digit_of_bit c Hc).
  replace ((0 <=? (if Ascii.eqb c "1" then 1 else 0)) &&
           ((if Ascii.eqb c "1" then 1 else 0) <? 2)) with true
    by (now destruct (Ascii.eqb c "1")).
  now apply IH.
Qed.

Lemma digits_not_bits (s : string) :
  forall acc, is_bits s = false -> digits 2 s acc = None.
Proof.
  induction s as [| c s IH]; intros acc H; [discriminate |].
  cbn [is_bits] in H. cbn [digits]. cbv zeta.
  destruct ((0 <=? Z.of_nat (nat_of_ascii c) - 48) &&
            (Z.of_nat (nat_of_ascii c) - 48 <? 2)) eqn:Hd; [| reflexivity].
  rewrite (bit_of_digit c Hd) in H. cbn in H. now apply IH.
Qed.

Lemma strip_0b (bits : string) : slice ("0b" ++ bits) (Some 2) None = bits.
Proof.
  change (Some 2) with (Some (len "0b")).
  unfold slice, clamp. rewrite len_append.
  pose proof (len_nonneg bits).
  change (len "0b") with 2.
  replace (2 <? 0) with false by reflexivity.
  replace (Z.min 2 (2 + len bits)) with 2 by lia.
  replace (2 + len bits - 2) with (len bits) by lia.
  unfold len. rewrite Nat2Z.id. cbn [Z.to_nat Pos.to_nat Pos.iter_op Nat.add].
  change (String.substring 0 (String.length bits) bits = bits).
  apply substring_whole.
Qed.

Lemma prefix_0b (bits : string) : String.prefix "0b" ("0b" ++ bits) = true.
Proof. destruct bits; reflexivity. Qed.

(** [int('0b' + bits, 2)] is the value of [bits] when [bits] is a
    non-empty bit string and a [ValueError] otherwise. *)
Lemma int_base2_bits (bits : string) :
  int_base2 ("0b" ++ bits) =
    if is_bits bits && negb (String.eqb bits "") then Ok (bin_value bits)
    else Raise ValueError.
Proof.
  unfold int_base2. rewrite prefix_0b, strip_0b. unfold int_of_digits, bin_value.
  destruct bits as [| c r]; [now rewrite andb_false_r |].
  change (String.eqb (String c r) "") with false. cbn [negb]. rewrite andb_true_r.
  destruct (is_bits (String c r)) eqn:Hb.
  - now rewrite digits_bits.
  - now rewrite digits_not_bits.
Qed.



(** ** The Abort register *)

Lemma index_head (c : ascii) (r : string) : index (String c r) 0 = Ok (String c "").
Proof.
  unfold index. pose proof (len_nonneg r).
  assert (Hl : len (String c r) = 1 + len r) by (unfold len; cbn [String.length]; lia).
  rewrite Hl. cbn [Z.ltb Z.compare].
  replace (1 + len r <=? 0) with false by (symmetry; apply Z.leb_gt; lia).
  reflexivity.
Qed.

Lemma handle_reg_abort_run (c : ascii) (r : string) (s : Decoder) (a b : Z) :
  ss s = Some a -> es s = Some b ->
  handle_reg_abort (String c r) s =
    (Ok tt, s,
     Ann a b 0 [abort_text c] ::
     (if String.eqb (slice (String c r) None (Some (-1))) (repeat_str "0" 31)
      then [] else [Ann a b 0 [reserved_warning]])).
Proof.
  intros Ha Hb. unfold handle_reg_abort.
  rewrite index_head, bind_lift_ok, bind_lift_ok.
  replace (format "DAPABORT = %s: %sDAP abort generated"
             [VStr (String c "");
              VStr (if String.eqb (String c "") "1" then "" else "No ")])
    with (Ok (abort_text c))
    by (unfold abort_text; cbn; now destruct (Ascii.eqb c "1")).
  rewrite bind_lift_ok.
  rewrite (bind_run _ _ _ _ _ _ (put_ok 0 _ s a b Ha Hb)).
  destruct (String.eqb _ (repeat_str "0" 31)); cbn [negb when].
  - reflexivity.
  - now rewrite (put_ok 0 _ s a b Ha Hb).
Qed.

Lemma decode_abort (d : Decoder) (ss_ es_ : Z) (cmd bits : string) :
  state d = "ABORT" ->
  cmd = "DR TDI" \/ cmd = "DR TDO" ->
  decode ss_ es_ (cmd, bits) d =
    match bits with
    | EmptyString => (Raise IndexError, entered ss_ es_ d, [])
    | String c _ =>
        (Ok tt, set_state "IDLE" (entered ss_ es_ d),
         Ann ss_ es_ 0 [abort_text c] ::
         (if String.eqb (slice bits None (Some (-1))) (repeat_str "0" 31)
          then [] else [Ann ss_ es_ 0 [reserved_warning]]))
    end.
Proof.
  intros Hst Hcmd.
  rewrite (decode_register d ss_ es_ cmd bits "ABORT" "handle_reg_abort"
             handle_reg_abort Hst ltac:(cbn; tauto) Hcmd eq_refl eq_refl).
  destruct bits as [| c r]; [reflexivity |].
  rewrite (bind_run _ _ _ _ _ _
             (handle_reg_abort_run c r _ ss_ es_ (entered_ss _ _ _) (entered_es _ _ _))).
  cbn. now rewrite app_nil_r.
Qed.

(** X4.  In ['ABORT'] a data register transfer with a non-empty string is
    always decoded and returns the decoder to ['IDLE']: the first annotation
    reports the first, leftmost character of the string as DAPABORT, with
    "No " unless that character is ['1'], and the reserved-bits warning
    follows unless the string without its last character is exactly 31
    zeros.  An empty string raises [IndexError], emits nothing and leaves
    the decoder in ['ABORT']. *)
Theorem abort_register (d : Decoder) (ss_ es_ : Z) (cmd bits : string) :
  state d = "ABORT" ->
  cmd = "DR TDI" \/ cmd = "DR TDO" ->
  decode ss_ es_ (cmd, bits) d =
    match bits with
    | EmptyString => (Raise IndexError, entered ss_ es_ d, [])
    | String c _ =>
        (Ok tt, set_state "IDLE" (entered ss_ es_ d),
         Ann ss_ es_ 0 [abort_text c] ::
         (if String.eqb (slice bits None (Some (-1))) (repeat_str "0" 31)
          then [] else [Ann ss_ es_ 0 [reserved_warning]]))
    end.
Proof. apply decode_abort. Qed.

Lemma abort_register_witness :
  let d := {| state := "ABORT"; ss := None; es := None |} in
  state d = "ABORT" /\
  decode 2 3 ("DR TDI", "10") d =
    (Ok tt, set_state "IDLE" (entered 2 3 d),
     Ann 2 3 0 [abort_text "1"] ::
     (if String.eqb (slice "10" None (Some (-1))) (repeat_str "0" 31)
      then [] else [Ann 2 3 0 [reserved_warning]])).
Proof.
  intros d. split; [reflexivity |].
  apply (abort_register d 2 3 "DR TDI" "10"); [reflexivity | now left].
Defined.

(** Every non-empty string is a body followed by a last character. *)
Lemma last_char (s : string) :
  s <> "" -> exists body c, s = body ++ String c "".
Proof.
  induction s as [| c s IH]; [congruence | intros _].
  destruct s as [| c' s'].
  - now exists "", c.
  - destruct IH as (body & l & H); [discriminate |].
    exists (String c body), l.
    change (String c (String c' s') = String c (body ++ String l "")).
    now rewrite H.
Qed.

Lemma slice_drop_last (body : string) (l : ascii) :
  slice (body ++ String l "") None (Some (-1)) = body.
Proof. apply (slice_drop_suffix body (String l "")). discriminate. Qed.

Lemma length_repeat_zero (n : nat) : String.length (repeat_str "0" n) = n.
Proof.
  induction n as [| n IH]; [reflexivity |].
  change (S (String.length (repeat_str "0" n)) = S n). now rewrite IH.
Qed.

(** X5.  The reserved-bits warning depends on the length of the string
    before it depends on any bit: for a non-empty string it is absent
    exactly when the string is 31 zeros followed by one more character, so
    every string whose length is not 32, the 35 bits the instruction table
    declares for ABORT included, draws the warning even when all its bits
    are zero. *)
Theorem abort_warning (d : Decoder) (ss_ es_ : Z) (cmd bits : string) :
  state d = "ABORT" ->
  cmd = "DR TDI" \/ cmd = "DR TDO" ->
  bits <> "" ->
  let warned :=
    In (Ann ss_ es_ 0 [reserved_warning]) (output_of (decode ss_ es_ (cmd, bits) d)) in
  (~ warned <-> exists c, bits = repeat_str "0" 31 ++ String c "") /\
  (String.length bits <> 32%nat -> warned).
Proof.
  intros Hst Hcmd Hne warned. subst warned.
  assert (Hout : exists c, output_of (decode ss_ es_ (cmd, bits) d) =
            Ann ss_ es_ 0 [abort_text c] ::
            (if String.eqb (slice bits None (Some (-1))) (repeat_str "0" 31)
             then [] else [Ann ss_ es_ 0 [reserved_warning]])).
  { rewrite (decode_abort d ss_ es_ cmd bits Hst Hcmd).
    destruct bits as [| c r]; [congruence | now exists c]. }
  destruct Hout as [c ->].
  destruct (last_char bits Hne) as (body & l & ->).
  rewrite slice_drop_last.
  assert (Hfirst : Ann ss_ es_ 0 [abort_text c] <> Ann ss_ es_ 0 [reserved_warning])
    by (unfold abort_text, reserved_warning; intros [= H]).
  destruct (String.eqb body (repeat_str "0" 31)) eqn:Hz.
  - apply String.eqb_eq in Hz. subst body. split.
    + split; [intros _; now exists l |].
      intros _ [H | []]. now apply Hfirst.
    + intros Hlen. exfalso. apply Hlen.
      rewrite length_append, length_repeat_zero. reflexivity.
  - apply String.eqb_neq in Hz. split.
    + split.
      * intros H. exfalso. apply H. right. now left.
      * intros [c' Hc'] _. apply Hz.
        rewrite <- (slice_drop_last body l), Hc'. apply slice_drop_last.
    + intros _. right. now left.
Qed.

Lemma abort_warning_witness :
  let d := {| state := "ABORT"; ss := None; es := None |} in
  let zeros35 := repeat_str "0" 35 in
  (state d = "ABORT" /\ zeros35 <> "" /\ String.length zeros35 <> 32%nat) /\
  In (Ann 2 3 0 [reserved_warning]) (output_of (decode 2 3 ("DR TDO", zeros35) d)).
Proof.
  intros d zeros35. split; [repeat split; discriminate |].
  apply (proj2 (abort_warning d 2 3 "DR TDO" zeros35 eq_refl
                  (or_intror eq_refl) ltac:(discriminate))).
  discriminate.
Defined.

(** ** The access registers DPACC and APACC *)

Lemma slice_acc_data (data : string) (c1 c2 c3 : ascii) :
  slice (data ++ String c1 (String c2 (String c3 ""))) None (Some (-3)) = data.
Proof. apply (slice_drop_suffix data (String c1 (String c2 (String c3 "")))). discriminate. Qed.

Lemma slice_acc_ack (data : string) (c1 c2 c3 : ascii) :
  slice (data ++ String c1 (String c2 (String c3 ""))) (Some (-3)) None =
    String c1 (String c2 (String c3 "")).
Proof. apply (slice_suffix data (String c1 (String c2 (String c3 "")))). discriminate. Qed.

Lemma slice_acc_a (data : string) (c1 c2 c3 : ascii) :
  slice (data ++ String c1 (String c2 (String c3 ""))) (Some (-3)) (Some (-1)) =
    String c1 (String c2 "").
Proof.
  unfold slice, clamp. rewrite len_append.
  change (len (String c1 (String c2 (String c3 "")))) with 3.
  pose proof (len_nonneg data).
  replace (-3 <? 0) with true by reflexivity.
  replace (-1 <? 0) with true by reflexivity.
  replace (Z.max (-3 + (len data + 3)) 0) with (len data) by lia.
  replace (Z.max (-1 + (len data + 3)) 0 - len data) with 2 by lia.
  unfold len. rewrite Nat2Z.id, substring_skip. reflexivity.
Qed.

Lemma index_acc_rnw (data : string) (c1 c2 c3 : ascii) :
  index (data ++ String c1 (String c2 (String c3 ""))) (-1) = Ok (String c3 "").
Proof.
  unfold index. rewrite len_append.
  change (len (String c1 (String c2 (String c3 "")))) with 3.
  pose proof (len_nonneg data).
  replace (-1 <? 0) with true by reflexivity.
  replace ((-1 + (len data + 3) <? 0) || (len data + 3 <=? -1 + (len data + 3)))
    with false
    by (symmetry; apply orb_false_iff; split; [apply Z.ltb_ge | apply Z.leb_gt]; lia).
  replace (Z.to_nat (-1 + (len data + 3))) with (String.length data + 2)%nat
    by (unfold len; lia).
  now rewrite get_skip.
Qed.

Lemma handle_reg_acc_run (label data : string) (b1 b2 b3 : bool)
    (s : Decoder) (a b : Z) :
  is_bits data = true -> data <> "" ->
  ss s = Some a -> es s = Some b ->
  handle_reg_acc label (data ++ acc_tail b1 b2 b3) s =
    (Ok tt, s,
     [Ann a b 0 [label ++ data ++ acc_tail b1 b2 b3];
      Ann a b 0 [data_in_text data b1 b2 b3];
      Ann a b 0 [data_out_text data b1 b2 b3]]).
Proof.
  intros Hbits Hne Ha Hb. unfold handle_reg_acc, acc_tail.
  rewrite (bind_run _ _ _ _ _ _ (put_ok 0 _ s a b Ha Hb)).
  cbv zeta.
  rewrite slice_acc_data, slice_acc_a, slice_acc_ack, index_acc_rnw.
  rewrite int_base2_bits, Hbits.
  replace (String.eqb data "") with false
    by (symmetry; now apply String.eqb_neq).
  cbn [andb negb].
  rewrite !bind_lift_ok.
  replace (format "0x%x" [VInt (bin_value data)])
    with (Ok ("0x" ++ hex_lower (bin_value data)))
    by (cbn; now rewrite Em4100Facts.append_empty).
  rewrite !bind_lift_ok.
  unfold data_in_text, data_out_text, acc_tail.
  destruct b1, b2, b3; cbn [bit_ascii];
    (match goal with
     | |- context [subscript reg ?k] =>
         let v := eval vm_compute in (subscript reg k) in
         change (subscript reg k) with v
     end;
     match goal with
     | |- context [subscript ack_val ?k] =>
         let v := eval vm_compute in (subscript ack_val k) in
         change (subscript ack_val k) with v
     end;
     match goal with
     | |- context [reg !! ?k] =>
         let v := eval vm_compute in (reg !! k) in
         change (reg !! k) with v
     end;
     match goal with
     | |- context [ack_val !! ?k] =>
         let v := eval vm_compute in (ack_val !! k) in
         change (ack_val !! k) with v
     end;
     rewrite !bind_lift_ok;
     cbn [format Ascii.eqb Bool.eqb str default String.eqb andb];
     rewrite !bind_lift_ok;
     rewrite (bind_run _ _ _ _ _ _ (put_ok 0 _ s a b Ha Hb));
     rewrite !bind_lift_ok;
     rewrite (put_ok 0 _ s a b Ha Hb);
     rewrite ?Em4100Facts.append_empty;
     reflexivity).
Qed.

(** X6.  In ['DPACC'] and ['APACC'] a data register transfer whose bit
    string is a non-empty run of data bits followed by three more bits is
    annotated three times and returns the decoder to ['IDLE']: the raw
    string under the register's label, the write-path reading (data, the
    register A[3:2] selects, RnW) and the read-path reading (the same data,
    the meaning of ACK[2:0]), both readings of the same three bits whatever
    the direction of the transfer. *)
Theorem access_register
    (d : Decoder) (ss_ es_ : Z) (cmd st data : string) (b1 b2 b3 : bool) :
  state d = st -> st = "DPACC" \/ st = "APACC" ->
  cmd = "DR TDI" \/ cmd = "DR TDO" ->
  is_bits data = true -> data <> "" ->
  decode ss_ es_ (cmd, data ++ acc_tail b1 b2 b3) d =
    (Ok tt, set_state "IDLE" (entered ss_ es_ d),
     [Ann ss_ es_ 0 [st ++ ": " ++ data ++ acc_tail b1 b2 b3];
      Ann ss_ es_ 0 [data_in_text data b1 b2 b3];
      Ann ss_ es_ 0 [data_out_text data b1 b2 b3]]).
Proof.
  intros Hst Hwhich Hcmd Hbits Hne.
  destruct Hwhich as [-> | ->].
  - rewrite (decode_register d ss_ es_ cmd _ "DPACC" "handle_reg_dpacc"
               handle_reg_dpacc Hst ltac:(cbn; tauto) Hcmd eq_refl eq_refl).
    unfold handle_reg_dpacc.
    now rewrite (bind_run _ _ _ _ _ _
                   (handle_reg_acc_run "DPACC: " data b1 b2 b3 _ ss_ es_ Hbits Hne
                      (entered_ss _ _ _) (entered_es _ _ _))).
  - rewrite (decode_register d ss_ es_ cmd _ "APACC" "handle_reg_apacc"
               handle_reg_apacc Hst ltac:(cbn; tauto) Hcmd eq_refl eq_refl).
    unfold handle_reg_apacc.
    now rewrite (bind_run _ _ _ _ _ _
                   (handle_reg_acc_run "APACC: " data b1 b2 b3 _ ss_ es_ Hbits Hne
                      (entered_ss _ _ _) (entered_es _ _ _))).
Qed.

Lemma access_register_witness :
  let d := {| state := "DPACC"; ss := None; es := None |} in
  let data := "00111011101000000000010001110111" in
  (state d = "DPACC" /\ is_bits data = true /\ data <> "") /\
  decode 2 3 ("DR TDO", data ++ acc_tail false true false) d =
    (Ok tt, set_state "IDLE" (entered 2 3 d),
     [Ann 2 3 0 ["DPACC" ++ ": " ++ data ++ acc_tail false true false];
      Ann 2 3 0 [data_in_text data false true false];
      Ann 2 3 0 [data_out_text data false true false]]).
Proof.
  intros d data. split; [repeat split; discriminate |].
  apply (access_register d 2 3 "DR TDO" "DPACC" data false true false);
    first [reflexivity | now left | now right | discriminate].
Defined.

(** X7.  An access register transfer of fewer than four characters cannot
    be decoded, and fails half way: the raw annotation has already been
    emitted when the handler raises ([IndexError] on an empty string, which
    has no last character; [ValueError] otherwise, because no data bits are
    left), and the decoder stays in the register state instead of returning
    to ['IDLE']. *)
Theorem access_register_too_short
    (d : Decoder) (ss_ es_ : Z) (cmd st bits : string) :
  state d = st -> st = "DPACC" \/ st = "APACC" ->
  cmd = "DR TDI" \/ cmd = "DR TDO" ->
  (String.length bits <= 3)%nat ->
  decode ss_ es_ (cmd, bits) d =
    (Raise (if String.eqb bits "" then IndexError else ValueError),
     entered ss_ es_ d,
     [Ann ss_ es_ 0 [st ++ ": " ++ bits]]) /\
  state (entered ss_ es_ d) = st.
Proof.
  intros Hst Hwhich Hcmd Hlen.
  split; [| now destruct d].
  assert (Hrun : forall label,
            handle_reg_acc label bits (entered ss_ es_ d) =
              (Raise (if String.eqb bits "" then IndexError else ValueError),
               entered ss_ es_ d, [Ann ss_ es_ 0 [label ++ bits]])).
  { intros label. unfold handle_reg_acc.
    rewrite (bind_run _ _ _ _ _ _
               (put_ok 0 _ _ ss_ es_ (entered_ss _ _ _) (entered_es _ _ _))).
    destruct bits as [| c1 [| c2 [| c3 [| c4 r]]]];
      [reflexivity | reflexivity | reflexivity | reflexivity |].
    cbn in Hlen. lia. }
  destruct Hwhich as [-> | ->].
  - rewrite (decode_register d ss_ es_ cmd _ "DPACC" "handle_reg_dpacc"
               handle_reg_dpacc Hst ltac:(cbn; tauto) Hcmd eq_refl eq_refl).
    unfold handle_reg_dpacc.
    now rewrite (bind_run _ _ _ _ _ _ (Hrun "DPACC: ")).
  - rewrite (decode_register d ss_ es_ cmd _ "APACC" "handle_reg_apacc"
               handle_reg_apacc Hst ltac:(cbn; tauto) Hcmd eq_refl eq_refl).
    unfold handle_reg_apacc.
    now rewrite (bind_run _ _ _ _ _ _ (Hrun "APACC: ")).
Qed.

Lemma access_register_too_short_witness :
  let d := {| state := "APACC"; ss := None; es := None |} in
  (state d = "APACC" /\ (String.length "101" <= 3)%nat) /\
  decode 2 3 ("DR TDI", "101") d =
    (Raise (if String.eqb "101" "" then IndexError else ValueError),
     entered 2 3 d, [Ann 2 3 0 ["APACC" ++ ": " ++ "101"]]) /\
  state (entered 2 3 d) = "APACC".
Proof.
  intros d. split; [split; [reflexivity | cbn; lia] |].
  apply (access_register_too_short d 2 3 "DR TDI" "APACC" "101");
    first [reflexivity | now left | now right | cbn; lia].
Defined.

(** ** The instruction register *)

Lemma ir_key_length (k : string) (v : string * Z) :
  ir !! k = Some v -> String.length k = 4%nat.
Proof.
  intros H. apply elem_of_list_to_map_2 in H.
  rewrite !elem_of_cons, elem_of_nil in H.
  destruct H as [H | [H | [H | [H | [H | []]]]]]; injection H as -> _; reflexivity.
Qed.

Lemma slice_last_four (p v : string) :
  String.length v = 4%nat -> slice (p ++ v) (Some (-4)) None = v.
Proof.
  intros Hlen.
  assert (Hl : len v = 4) by (unfold len; now rewrite Hlen).
  replace (-4) with (- len v) by lia.
  apply slice_suffix. intros ->. discriminate.
Qed.

Lemma slice_short (val : string) :
  (String.length val < 4)%nat -> slice val (Some (-4)) None = val.
Proof.
  intros Hlen. unfold slice, clamp.
  replace (-4 <? 0) with true by reflexivity.
  replace (Z.max (-4 + len val) 0) with 0 by (unfold len; lia).
  rewrite Z.sub_0_r. unfold len. rewrite Nat2Z.id. apply substring_whole.
Qed.

(** X8.  Only the last four characters of an instruction matter: in
    ['IDLE'] an ['IR TDI'] command with any prefix before four characters
    is decoded exactly like the four characters alone, and an instruction
    of fewer than four characters always selects ['UNKNOWN']. *)
Theorem instruction_low_bits (d : Decoder) (ss_ es_ : Z) (p v : string) :
  state d = "IDLE" ->
  (String.length v = 4%nat ->
   decode ss_ es_ ("IR TDI", p ++ v) d = decode ss_ es_ ("IR TDI", v) d) /\
  ((String.length v < 4)%nat ->
   decode ss_ es_ ("IR TDI", v) d =
     (Ok tt, {| state := "UNKNOWN"; ss := Some ss_; es := Some es_ |},
      [Ann ss_ es_ 0 ["IR: UNKNOWN"]])).
Proof.
  intros Hst. split; intros Hlen.
  - rewrite !(JtagStm32Facts.decode_idle_ir d ss_ es_ _ Hst).
    assert (Hsel : select (p ++ v) = select v).
    { unfold select. rewrite (slice_last_four p v Hlen).
      pose proof (slice_last_four "" v Hlen) as Hv.
      change ("" ++ v) with v in Hv. now rewrite Hv. }
    now rewrite Hsel.
  - rewrite (JtagStm32Facts.decode_idle_ir d ss_ es_ _ Hst).
    assert (Hsel : select v = "UNKNOWN").
    { apply JtagStm32Facts.select_unknown. rewrite (slice_short v Hlen).
      destruct (ir !! v) as [x |] eqn:Hx; [| reflexivity].
      apply ir_key_length in Hx. lia. }
    now rewrite Hsel.
Qed.

Lemma instruction_low_bits_witness :
  (state init = "IDLE" /\ String.length "1110" = 4%nat /\
   (String.length "111" < 4)%nat) /\
  decode 0 1 ("IR TDI", "00000" ++ "1110") init = decode 0 1 ("IR TDI", "1110") init /\
  decode 0 1 ("IR TDI", "111") init =
    (Ok tt, {| state := "UNKNOWN"; ss := Some 0; es := Some 1 |},
     [Ann 0 1 0 ["IR: UNKNOWN"]]).
Proof.
  split; [repeat split; cbn; lia |]. split.
  - apply (proj1 (instruction_low_bits init 0 1 "00000" "1110" eq_refl)). reflexivity.
  - apply (proj2 (instruction_low_bits init 0 1 "" "111" eq_refl)). cbn. lia.
Defined.

(** ** Where and how annotations are emitted *)

(** X9.  Every annotation of a [decode] call carries the start and end
    sample of that call and the one annotation class the decoder declares,
    class 0, whatever the state, the command and the bit string, and also
    when the call raises after having emitted. *)
Theorem annotations_carry_call (d : Decoder) (ss_ es_ : Z) (cmd val : string) :
  Forall (fun a => ann_ss a = ss_ /\ ann_es a = es_ /\ ann_class a = 0)
         (output_of (decode ss_ es_ (cmd, val) d)).
Proof.
  rewrite decode_cases.
  pose (Here := fun s : Decoder => ss s = Some ss_ /\ es s = Some es_).
  pose (Stamped := fun a => ann_ss a = ss_ /\ ann_es a = es_ /\ ann_class a = 0).
  pose (Any := fun _ : exn => True).
  assert (HH : Here (entered ss_ es_ d)) by (split; now destruct d).
  assert (Hset : forall v s, Here s -> Here (set_state v s))
    by (intros v [] H; exact H).
  assert (HP : forall s a b t, Here s -> ss s = Some a -> es s = Some b ->
                 Stamped (Ann a b 0 t)).
  { intros s a b t [H1 H2] Ha Hb. unfold Stamped. cbn.
    rewrite H1 in Ha. rewrite H2 in Hb. injection Ha as <-. injection Hb as <-.
    auto. }
  assert (HE : forall e, builtin e -> Any e) by (intros; exact I).
  assert (Hdisp : forall st, sat Here Stamped Any (dispatch st val))
    by (intros st; apply sat_dispatch; auto).
  assert (Hir : sat Here Stamped Any
                  (modify (set_state (select val)) ;;;
                   let! st' := gets state in put 0 (Ok ["IR: " ++ st']))).
  { apply sat_bind; [apply sat_modify; auto | intros _].
    apply sat_bind; [apply sat_gets | intros st'].
    apply sat_put; auto using ok_builtin. }
  assert (Hret : sat Here Stamped Any (ret tt)) by apply sat_ret.
  assert (Hbad : sat (A := unit) Here Stamped Any
                   (let! msg := lift (format "Invalid state: %s" [VStr (state d)]) in
                    raise (Exception msg))).
  { apply sat_bind; [apply sat_lift; intros; exact I | intros msg].
    apply sat_raise. exact I. }
  apply (sat_output Here Stamped Any); [| exact HH].
  destruct (String.eqb (state d) "IDLE"); [destruct (negb _); auto |].
  destruct (contains (state d) "BYPASS"); [destruct (negb _); auto |].
  destruct (mem (state d) register_states); [destruct (negb _); auto |].
  exact Hbad.
Qed.

End JtagStm32More.

(** * Further properties of the EM4100 decoder *)

Module Em4100More.
Import Em4100 Em4100Aux Em4100Facts.

(** ** What the frame state machine leaves alone *)

Lemma add_bit_keeps_edge (bit : Z) (bs be : Q) (d : Decoder) :
  edge (object_of (add_bit bit bs be d)) = edge d.
Proof.
  refine (sat_object (fun s => edge s = edge d) (fun _ => True) (fun _ => True)
            (add_bit bit bs be) d _ eq_refl).
  apply sat_add_bit; [| auto | exact I].
  intros s s' He Hs. congruence.
Qed.

(** ** The frame state machine never raises *)

Ltac split_tests :=
  repeat match goal with
         | |- context [if Z.eqb ?a ?b then _ else _] => destruct (Z.eqb a b); cbn
         | |- context [if Nat.eqb ?a ?b then _ else _] => destruct (Nat.eqb a b); cbn
         | |- context [if Nat.ltb ?a ?b then _ else _] => destruct (Nat.ltb a b); cbn
         | |- context [if negb ?a then _ else _] => destruct a; cbn
         | |- context [match ?x with O => _ | S _ => _ end] => is_var x; destruct x; cbn
         end.

Lemma add_bit_safe (bit : Z) (bs be : Q) (d : Decoder) :
  framed d ->
  result_of (add_bit bit bs be d) = Ok tt /\ framed (object_of (add_bit bit bs be d)).
Proof.
  intros (Hd & Hc & Hn).
  destruct (six_elements _ Hd) as (a0 & a1 & a2 & a3 & a4 & a5 & Ha).
  destruct (six_elements _ Hc) as (c0 & c1 & c2 & c3 & c4 & c5 & Hcp).
  destruct d. cbn in Ha, Hcp, Hn. subst. clear Hd Hc.
  destruct state0.
  - exec_add_bit. split_tests; unfold framed; cbn; auto.
  - destruct data_bits0 as [| [| [| [| [| n]]]]]; [.. | lia];
      exec_add_bit; split_tests; unfold framed; cbn; auto with arith.
  - destruct data_bits0 as [| [| [| [| [| n]]]]]; [.. | lia];
      exec_add_bit; split_tests; unfold framed; cbn; auto with arith.
Qed.

Lemma feed_keeps_edge (syms : list symbol) (d : Decoder) :
  edge (object_of (feed syms d)) = edge d.
Proof.
  refine (sat_object (fun s => edge s = edge d) (fun _ => True) (fun _ => True)
            (feed syms) d _ eq_refl).
  apply sat_for_each. intros s.
  apply sat_add_bit; [| auto | exact I].
  intros s1 s2 He Hs. congruence.
Qed.

Lemma feed_safe (syms : list symbol) :
  forall d, framed d ->
  result_of (feed syms d) = Ok tt /\ framed (object_of (feed syms d)).
Proof.
  induction syms as [| s syms IH]; intros d Hd; [split; [reflexivity | exact Hd] |].
  destruct (add_bit_safe (bit_of s) (start_of s) (stop_of s) d Hd) as [Hr Hf].
  destruct (IH _ Hf) as [Hr' Hf'].
  unfold feed in *. cbn [for_each]. unfold bind.
  destruct (add_bit (bit_of s) (start_of s) (stop_of s) d) as [[r s1] o1].
  cbn in Hr, Hf, Hr', Hf'. subst r.
  destruct (for_each syms _ s1) as [[r2 s2] o2]. split; [exact Hr' | exact Hf'].
Qed.

Lemma framed_init (o : Options) : framed (init o).
Proof. unfold framed. cbn. auto with arith. Qed.

(** X10.  The frame state machine never raises: on a decoder whose two
    column lists have their six cells and whose position within a group is
    at most four, as on a new one, any sequence of symbols is consumed
    without an exception (no index of [data_col_parity] or [col_parity]
    leaves the list), the decoder is in such a state again afterwards, and
    none of the fields [decode] keeps for the edges and the timing is
    assigned. *)
Theorem feed_never_raises (syms : list symbol) (d : Decoder) :
  framed d ->
  result_of (feed syms d) = Ok tt /\
  framed (object_of (feed syms d)) /\
  edge (object_of (feed syms d)) = edge d.
Proof.
  intros Hd. destruct (feed_safe syms d Hd) as [H1 H2].
  auto using feed_keeps_edge.
Qed.

Lemma feed_never_raises_witness :
  framed (init default_options) /\
  result_of (feed [(1, 0%Q, 512%Q); (2, 512%Q, 1024%Q)] (init default_options)) = Ok tt.
Proof.
  split; [apply framed_init |].
  apply (feed_never_raises [(1, 0%Q, 512%Q); (2, 512%Q, 1024%Q)] (init default_options)).
  unfold framed. cbn. auto with arith.
Defined.

(** ** Header detection *)

Lemma header_first_one (bs be : Q) (d : Decoder) :
  state d = HEADER -> first_one d = 0%nat ->
  add_bit 1 bs be d = (Ok tt, set_first_start bs (set_first_one 1 d), []).
Proof.
  intros Hs Hf. destruct d. cbn in Hs, Hf. subst.
  exec_add_bit. reflexivity.
Qed.

Lemma header_next_one (bs be : Q) (d : Decoder) :
  state d = HEADER -> (0 < first_one d)%nat -> (first_one d + 1 <> 9)%nat ->
  add_bit 1 bs be d = (Ok tt, set_first_one (first_one d + 1) d, []).
Proof.
  intros Hs Hf Hn. destruct d. cbn in Hs, Hf, Hn. subst.
  destruct first_one0 as [| k]; [lia |].
  exec_add_bit.
  destruct (k + 1 =? 8)%nat eqn:E; [apply Nat.eqb_eq in E; lia |].
  cbn. reflexivity.
Qed.

Lemma header_ninth_one (bs be : Q) (d : Decoder) :
  state d = HEADER -> first_one d = 8%nat ->
  add_bit 1 bs be d =
    (Ok tt, set_state PAYLOAD (set_first_one 0 d),
     [Ann (int_float (first_start d)) (int_float be) 1 ["Header"; "Head"; "He"; "H"]]).
Proof.
  intros Hs Hf. destruct d. cbn in Hs, Hf. subst.
  exec_add_bit. reflexivity.
Qed.

Lemma header_zero (bs be : Q) (d : Decoder) :
  state d = HEADER ->
  add_bit 0 bs be d = (Ok tt, set_first_one 0 d, []).
Proof.
  intros Hs. destruct d. cbn in Hs. subst.
  exec_add_bit. reflexivity.
Qed.

Lemma header_step_one (bs be : Q) (d : Decoder) :
  state d = HEADER -> (first_one d < 8)%nat ->
  exists d', add_bit 1 bs be d = (Ok tt, d', []) /\
             state d' = HEADER /\ first_one d' = S (first_one d) /\
             first_start d' = (if (first_one d =? 0)%nat then bs else first_start d).
Proof.
  intros Hs Hk. destruct (first_one d) as [| k] eqn:Hf.
  - exists (set_first_start bs (set_first_one 1 d)).
    split; [now apply header_first_one |]. now destruct d.
  - exists (set_first_one (first_one d + 1) d).
    split; [apply header_next_one; auto; lia |].
    destruct d. cbn in *. subst. repeat split. f_equal. lia.
Qed.

Lemma feed_cons_quiet (s : symbol) (syms : list symbol) (d d' : Decoder) :
  add_bit (bit_of s) (start_of s) (stop_of s) d = (Ok tt, d', []) ->
  feed (s :: syms) d = feed syms d'.
Proof.
  intros H. unfold feed. cbn [for_each]. unfold bind. rewrite H.
  now destruct (for_each syms _ d') as [[r s2] o2].
Qed.

Lemma header_ones_run (syms : list symbol) :
  forall d, state d = HEADER -> (0 < first_one d)%nat ->
  (first_one d + length syms < 9)%nat -> Forall is_one syms ->
  feed syms d = (Ok tt, set_first_one (first_one d + length syms) d, []).
Proof.
  induction syms as [| s syms IH]; intros d Hs Hf Hn Ho.
  - destruct d. cbn. now rewrite Nat.add_0_r.
  - inversion Ho as [| ? ? H1 H2]; subst. destruct s as [[b bs] be].
    unfold is_one in H1. cbn in H1, Hn. subst b.
    assert (Hn' : (first_one d + 1 <> 9)%nat) by lia.
    rewrite (feed_cons_quiet (1, bs, be) syms d _ (header_next_one bs be d Hs Hf Hn')).
    set (d' := set_first_one (first_one d + 1) d).
    assert (Hs' : state d' = HEADER) by (now destruct d).
    assert (Hf' : first_one d' = (first_one d + 1)%nat) by (now destruct d).
    rewrite (IH d' Hs' ltac:(lia) ltac:(lia) H2), Hf'.
    replace (first_one d + 1 + length syms)%nat with (first_one d + S (length syms))%nat
      by lia.
    subst d'. now destruct d.
Qed.

(** Nine ones from the frame start, as one run. *)
Lemma header_run (d : Decoder) (s1 s9 : symbol) (mid : list symbol) :
  state d = HEADER -> first_one d = 0%nat -> length mid = 7%nat ->
  Forall is_one (s1 :: mid ++ [s9]) ->
  feed (s1 :: mid ++ [s9]) d =
    (Ok tt, set_state PAYLOAD (set_first_start (start_of s1) d),
     [header_annotation s1 s9]).
Proof.
  intros Hs Hf Hlen Ho.
  inversion Ho as [| ? ? H1 Hrest]; subst.
  apply Forall_app in Hrest as [Hmid H9].
  inversion H9 as [| ? ? H9' _]; subst.
  destruct s1 as [[b1 bs1] be1], s9 as [[b9 bs9] be9].
  unfold is_one in H1, H9'. cbn in H1, H9'. subst b1 b9.
  rewrite (feed_cons_quiet (1, bs1, be1) _ d _ (header_first_one bs1 be1 d Hs Hf)).
  set (d1 := set_first_start bs1 (set_first_one 1 d)).
  assert (Hs1 : state d1 = HEADER) by (now destruct d).
  assert (Hf1 : first_one d1 = 1%nat) by (now destruct d).
  assert (Hrun := header_ones_run mid d1 Hs1 ltac:(lia) ltac:(lia) Hmid).
  rewrite Hf1, Hlen in Hrun. cbn [Nat.add] in Hrun.
  set (d2 := set_first_one 8 d1) in *.
  assert (Hs2 : state d2 = HEADER) by (now destruct d).
  assert (Hf2 : first_one d2 = 8%nat) by (now destruct d).
  assert (Hlast : feed [(1, bs9, be9)] d2 = _)
    by (unfold feed; eapply for_each_cons_run;
        [exact (header_ninth_one bs9 be9 d2 Hs2 Hf2) | reflexivity]).
  unfold feed in *.
  etransitivity; [exact (for_each_app_run _ _ _ _ _ _ _ _ _ Hrun Hlast) |].
  subst d2 d1. destruct d. cbn in Hf. subst. reflexivity.
Qed.

(** X11.  Header detection.  In [HEADER] with no run of ones counted yet,
    nine symbols in a row that are ones are consumed without an exception
    and yield exactly one annotation: the header (class 1), from the
    start of the first of the nine to the stop of the ninth.  Afterwards
    the decoder is the one it was, in [PAYLOAD] and with [first_start] at
    the start of the first symbol. *)
Theorem header_detected (d : Decoder) (s1 s9 : symbol) (mid : list symbol) :
  state d = HEADER -> first_one d = 0%nat -> length mid = 7%nat ->
  Forall is_one (s1 :: mid ++ [s9]) ->
  feed (s1 :: mid ++ [s9]) d =
    (Ok tt, set_state PAYLOAD (set_first_start (start_of s1) d),
     [header_annotation s1 s9]).
Proof. intros Hs Hf Hlen Ho. now apply header_run. Qed.

Lemma header_detected_witness :
  feed header_symbols (init default_options) =
    (Ok tt, set_state PAYLOAD (init default_options),
     [Ann 0 4608 1 ["Header"; "Head"; "He"; "H"]]).
Proof.
  apply (header_detected (init default_options) (1, 0%Q, 512%Q) (1, 4096%Q, 4608%Q)
           (map (fun i => (1, inject_Z (512 * i), inject_Z (512 * (i + 1))))
                [1; 2; 3; 4; 5; 6; 7])).
  - reflexivity.
  - reflexivity.
  - reflexivity.
  - repeat constructor.
Defined.

(** From a run of [length before] ones, as long as no nine ones in a row
    come up, nothing is emitted and the state stays [HEADER]. *)
Lemma header_quiet (syms : list symbol) :
  forall (d : Decoder) (before : list symbol),
  state d = HEADER -> first_one d = length before -> (length before <= 8)%nat ->
  Forall is_one before -> Forall binary syms ->
  ~ has_header (before ++ syms) ->
  result_of (feed syms d) = Ok tt /\ output_of (feed syms d) = [] /\
  state (object_of (feed syms d)) = HEADER.
Proof.
  induction syms as [| s syms IH]; intros d before Hs Hk Hle Hb Hbin Hno.
  - unfold feed. cbn. auto.
  - inversion Hbin as [| ? ? H1 H2]; subst. destruct s as [[b bs] be].
    unfold binary in H1. cbn in H1. destruct H1 as [-> | ->].
    + rewrite (feed_cons_quiet (0, bs, be) syms d _ (header_zero bs be d Hs)).
      apply (IH _ []); try (now destruct d); auto with arith.
      intros (pre & run & post & Heq & Hlen & Hones). apply Hno.
      exists (before ++ (0, bs, be) :: pre)%list, run, post.
      cbn in Heq. rewrite Heq, <- app_assoc. auto.
    + destruct (Nat.eq_dec (length before) 8%nat) as [H8 | H8].
      * exfalso. apply Hno. exists [], (before ++ [(1, bs, be)])%list, syms.
        split; [cbn; now rewrite <- app_assoc |].
        split; [rewrite length_app; cbn; lia |].
        apply Forall_app. split; [exact Hb | now repeat constructor].
      * destruct (header_step_one bs be d Hs ltac:(lia)) as (d' & Hstep & Hs' & Hk' & _).
        rewrite (feed_cons_quiet (1, bs, be) syms d d' Hstep).
        apply (IH d' (before ++ [(1, bs, be)])%list); auto.
        -- rewrite length_app. cbn. lia.
        -- rewrite length_app. cbn. lia.
        -- apply Forall_app. split; [exact Hb | now repeat constructor].
        -- now rewrite <- app_assoc.
Qed.

(** X12.  No header without nine ones in a row.  In [HEADER] with no run
    counted yet, a sequence of 0 and 1 symbols that nowhere has nine ones
    in a row is consumed without an exception, emits nothing and leaves
    the state [HEADER]. *)
Theorem no_header_without_nine_ones (syms : list symbol) (d : Decoder) :
  state d = HEADER -> first_one d = 0%nat -> Forall binary syms ->
  ~ has_header syms ->
  result_of (feed syms d) = Ok tt /\ output_of (feed syms d) = [] /\
  state (object_of (feed syms d)) = HEADER.
Proof.
  intros Hs Hf Hbin Hno.
  apply (header_quiet syms d []); auto with arith.
Qed.

Lemma no_header_without_nine_ones_witness :
  output_of (feed [(1, 0%Q, 512%Q); (1, 512%Q, 1024%Q); (0, 1024%Q, 1536%Q);
                   (1, 1536%Q, 2048%Q)] (init default_options)) = [].
Proof.
  apply (no_header_without_nine_ones
           [(1, 0%Q, 512%Q); (1, 512%Q, 1024%Q); (0, 1024%Q, 1536%Q); (1, 1536%Q, 2048%Q)]
           (init default_options)).
  - reflexivity.
  - reflexivity.
  - repeat (constructor; [unfold binary; cbn; auto |]). constructor.
  - intros (pre & run & post & Heq & Hlen & _).
    apply (f_equal (@length symbol)) in Heq. rewrite !length_app in Heq.
    cbn in Heq. lia.
Defined.

(** ** A whole frame *)

Lemma payload_row_first_one (d : Decoder) (r : row) (a0 a1 a2 a3 a4 a5 : Z) :
  state d = PAYLOAD -> data_bits d = 0%nat ->
  data_col_parity d = [a0; a1; a2; a3; a4; a5] ->
  first_one (object_of (feed (row_symbols r) d)) = first_one d.
Proof.
  intros Hst Hbits Hcol.
  destruct d;
    destruct r as [[[b1 s1] e1] [[b2 s2] e2] [[b3 s3] e3] [[b4 s4] e4] [[p s5] e5]].
  cbn in Hst, Hbits, Hcol. subst.
  destruct (payload_cnt0 + 5 =? 50)%nat eqn:Hlast;
    (match goal with
     | |- context [feed ?l ?d] => eassert (Hrun : feed l d = _)
     end;
     [ unfold feed, row_symbols; cbn [d1 d2 d3 d4 rp];
       do 4 feed_step;
       (eapply for_each_cons_run; [exec_add_bit | reflexivity]);
       replace (payload_cnt0 + 1 + 1 + 1 + 1 + 1)%nat
         with (payload_cnt0 + 5)%nat by lia;
       rewrite Hlast; cbn; reflexivity
     | rewrite Hrun; reflexivity ]).
Qed.

Lemma trailer_first_one (d : Decoder) (t1 t2 t3 t4 t5 : symbol) :
  state d = TRAILER -> data_bits d = 0%nat -> payload_cnt d = 0%nat ->
  length (data_col_parity d) = 6%nat -> length (col_parity d) = 6%nat ->
  first_one (object_of (feed [t1; t2; t3; t4; t5] d)) = first_one d.
Proof.
  intros Hst Hbits Hcnt Hlen' Hlen.
  destruct (six_elements _ Hlen) as (c0 & c1 & c2 & c3 & c4 & c5 & Hc).
  destruct (six_elements _ Hlen') as (a0 & a1 & a2 & a3 & a4 & a5 & Hcol).
  destruct d; destruct t1 as [[b1 s1] e1], t2 as [[b2 s2] e2], t3 as [[b3 s3] e3],
    t4 as [[b4 s4] e4], t5 as [[b5 s5] e5].
  cbn in Hst, Hbits, Hcnt, Hcol, Hc. subst.
  destruct (a1 =? b1) eqn:H1; destruct (a2 =? b2) eqn:H2;
    destruct (a3 =? b3) eqn:H3; destruct (a4 =? b4) eqn:H4;
    (match goal with
     | |- context [feed ?l ?d] => eassert (Hrun : feed l d = _)
     end;
     [ unfold feed; do 4 feed_step;
       (eapply for_each_cons_run; [exec_add_bit | reflexivity]);
       rewrite ?H1; cbn; rewrite ?H2; cbn; rewrite ?H3; cbn; rewrite ?H4; cbn;
       reflexivity
     | rewrite Hrun; reflexivity ]).
Qed.

(** The rows of a payload, for what [payload_rows_run] leaves out: the
    annotations and the run counter of the header. *)
Lemma payload_rows_output (rows : list row) :
  forall (d : Decoder) (a0 a1 a2 a3 a4 a5 : Z),
  state d = PAYLOAD -> data_bits d = 0%nat ->
  data_col_parity d = [a0; a1; a2; a3; a4; a5] ->
  rows <> [] -> (payload_cnt d + 5 * length rows = 50)%nat ->
  output_of (feed (payload_symbols rows) d) = flat_map row_annotations rows /\
  first_one (object_of (feed (payload_symbols rows) d)) = first_one d.
Proof.
  induction rows as [| r rows IH]; intros d a0 a1 a2 a3 a4 a5 Hst Hbits Hcol Hne Hcnt;
    [congruence |].
  destruct (payload_row_run d r a0 a1 a2 a3 a4 a5 Hst Hbits Hcol)
    as (R1 & R2 & R3 & R4 & R5 & R6 & _).
  assert (R9 := payload_row_first_one d r a0 a1 a2 a3 a4 a5 Hst Hbits Hcol).
  cbn zeta in R1, R2, R3, R4, R5, R6.
  unfold feed, payload_symbols in *. cbn [flat_map].
  destruct (for_each (row_symbols r) _ d) as [[res1 dd] o1] eqn:E1.
  cbn [result_of object_of output_of fst snd] in *. subst res1.
  destruct rows as [| r' rows'].
  - cbn [flat_map]. rewrite !app_nil_r, E1. cbn. auto.
  - assert (Hl : (payload_cnt d + 5 =? 50)%nat = false)
      by (apply Nat.eqb_neq; cbn in Hcnt; lia).
    rewrite Hl in R3, R4.
    assert (Hcnt' : (payload_cnt dd + 5 * length (r' :: rows') = 50)%nat)
      by (rewrite R4; cbn in Hcnt |- *; lia).
    destruct (payload_rows_run (r' :: rows') dd _ _ _ _ _ _ R3 R5 R6
                ltac:(discriminate) Hcnt') as (I1 & _).
    specialize (IH dd _ _ _ _ _ _ R3 R5 R6 ltac:(discriminate) Hcnt').
    cbn zeta in I1. unfold feed, payload_symbols in I1.
    destruct (for_each (flat_map row_symbols (r' :: rows')) _ dd)
      as [[res2 dd2] o2] eqn:E2.
    cbn [result_of object_of output_of fst snd] in *. subst res2.
    rewrite (for_each_app_run _ _ _ _ _ _ _ _ _ E1 E2).
    cbn [result_of object_of output_of fst snd].
    destruct IH as [J1 J2]. split; [rewrite R2, J1; reflexivity | congruence].
Qed.

(** X13.  A whole frame.  From the frame start (state [HEADER], no run
    counted, counters at zero, both column lists zero), the 64 symbols of
    a frame, that is nine ones, ten rows of four data bits and a row
    parity bit, four column parity bits and a stop bit, are consumed
    without an exception.  They yield the header annotation, then for
    each row its four annotations (data field, parity field, hexadecimal
    nibble, row verdict), then the column parity field, the stop bit and
    the column verdict: 44 annotations that depend on the symbols alone.
    The decoder is at the frame start again, so the next frame is decoded
    the same way, and the fields of the edge tracking are untouched. *)
Theorem frame_cycle (d : Decoder) (h1 h9 : symbol) (hmid : list symbol)
    (rows : list row) (t1 t2 t3 t4 t5 : symbol) :
  at_frame_start d -> length hmid = 7%nat -> Forall is_one (h1 :: hmid ++ [h9]) ->
  length rows = 10%nat ->
  let frame :=
    ((h1 :: hmid ++ [h9]) ++ payload_symbols rows ++ [t1; t2; t3; t4; t5])%list in
  let res := feed frame d in
  result_of res = Ok tt /\
  output_of res =
    (header_annotation h1 h9 ::
       (flat_map row_annotations rows ++ trailer_annotations rows t1 t2 t3 t4 t5))%list /\
  at_frame_start (object_of res) /\
  edge (object_of res) = edge d.
Proof.
  intros (Hs & Hf & Hc & Hb & Hdc & Hcp) Hlen Hones Hrows frame res. subst frame res.
  assert (HA := header_run d h1 h9 hmid Hs Hf Hlen Hones).
  set (dA := set_state PAYLOAD (set_first_start (start_of h1) d)) in *.
  assert (As : state dA = PAYLOAD) by (now destruct d).
  assert (Af : first_one dA = 0%nat) by (now destruct d).
  assert (Ac : payload_cnt dA = 0%nat) by (now destruct d).
  assert (Ab : data_bits dA = 0%nat) by (now destruct d).
  assert (Adc : data_col_parity dA = [0; 0; 0; 0; 0; 0]) by (now destruct d).
  assert (Acp : col_parity dA = [0; 0; 0; 0; 0; 0]) by (now destruct d).
  assert (Ae : edge dA = edge d) by (now destruct d).
  clearbody dA.
  assert (Hne : rows <> []) by (destruct rows; discriminate).
  assert (Hcnt : (payload_cnt dA + 5 * length rows = 50)%nat)
    by (rewrite Ac, Hrows; reflexivity).
  destruct (payload_rows_run rows dA 0 0 0 0 0 0 As Ab Adc Hne Hcnt)
    as (P1 & P2 & P3 & P4 & P5 & P6 & P7).
  destruct (payload_rows_output rows dA 0 0 0 0 0 0 As Ab Adc Hne Hcnt) as (Q1 & Q2).
  cbn zeta in P1, P2, P3, P4, P5, P6, P7.
  destruct (feed (payload_symbols rows) dA) as [[rB dB] oB] eqn:HB.
  cbn [result_of object_of output_of fst snd] in *. subst rB oB.
  assert (Bcp : length (col_parity dB) = 6%nat) by (now rewrite P6, Acp).
  assert (Bdc : length (data_col_parity dB) = 6%nat) by (now rewrite P5).
  destruct (trailer_run dB t1 t2 t3 t4 t5 _ _ _ _ _ _ P2 P4 P3 P5 Bcp)
    as (T1 & T2 & T3 & T4 & T5 & T6 & T7 & T8).
  assert (T9 := trailer_first_one dB t1 t2 t3 t4 t5 P2 P4 P3 Bdc Bcp).
  cbn zeta in T1, T2, T3, T4, T5, T6, T7, T8.
  destruct (feed [t1; t2; t3; t4; t5] dB) as [[rC dC] oC] eqn:HC.
  cbn [result_of object_of output_of fst snd] in *. subst rC oC.
  unfold feed in *.
  rewrite (for_each_app_run _ _ _ _ _ _ _ _ _ HA
             (for_each_app_run _ _ _ _ _ _ _ _ _ HB HC)).
  cbn [result_of object_of output_of fst snd].
  repeat split; auto; congruence.
Qed.

Lemma frame_cycle_witness :
  at_frame_start
    (object_of
       (feed (header_symbols ++ payload_symbols (List.repeat example_row 10)
                ++ List.repeat (0, 0%Q, 512%Q) 5)%list
             (init default_options))).
Proof.
  assert (H0 : at_frame_start (init default_options)) by (repeat split).
  assert (H1 : length (map (fun i => (1, inject_Z (512 * i), inject_Z (512 * (i + 1))))
                           [1; 2; 3; 4; 5; 6; 7]) = 7%nat) by reflexivity.
  assert (H2 : Forall is_one
                 ((1, 0%Q, 512%Q)
                    :: map (fun i => (1, inject_Z (512 * i), inject_Z (512 * (i + 1))))
                         [1; 2; 3; 4; 5; 6; 7] ++ [(1, 4096%Q, 4608%Q)]))
    by (repeat constructor).
  assert (H3 : length (List.repeat example_row 10) = 10%nat) by reflexivity.
  exact (proj1 (proj2 (proj2
    (frame_cycle (init default_options) (1, 0%Q, 512%Q) (1, 4096%Q, 4608%Q) _
       (List.repeat example_row 10)
       (0, 0%Q, 512%Q) (0, 0%Q, 512%Q) (0, 0%Q, 512%Q) (0, 0%Q, 512%Q) (0, 0%Q, 512%Q)
       H0 H1 H2 H3)))).
Defined.

(** ** A configured decoder never raises *)

Lemma sat_bind_gets {S A B : Type} (J : S -> Prop) (P : annotation -> Prop)
    (E : exn -> Prop) (Q : A -> Prop) (f : S -> A) (k : A -> M S B) :
  (forall s, J s -> Q (f s)) -> (forall a, Q a -> sat J P E (k a)) ->
  sat J P E (bind (gets f) k).
Proof.
  intros H1 H2 s Hs. rewrite bind_gets. exact (H2 (f s) (H1 s Hs) s Hs).
Qed.

Lemma sat_weaken {S A : Type} (J J' : S -> Prop) (P : annotation -> Prop)
    (E : exn -> Prop) (m : M S A) (s : S) :
  sat J' P E m -> J' s -> (forall s', J' s' -> J s') ->
  J (object_of (m s)) /\ Forall P (output_of (m s)) /\
  (forall e, result_of (m s) = Raise e -> E e).
Proof.
  intros Hm Hs Hw. destruct (Hm s Hs) as (H1 & H2 & H3). auto.
Qed.

Lemma edge_config (s s' : Decoder) : edge s' = edge s -> config s' = config s.
Proof. unfold edge, config. intros H. injection H. intros. congruence. Qed.

Lemma edge_oldpin (s s' : Decoder) : edge s' = edge s -> oldpin s' = oldpin s.
Proof. unfold edge. intros H. now injection H. Qed.

Section Ready.
Variable d0 : Decoder.
Hypothesis d0_ready : ready d0.
Variable P : annotation -> Prop.
Hypothesis P_any : forall a, P a.

Lemma like_samplerate (s : Decoder) :
  configured_like d0 s -> falsy (samplerate s) = false.
Proof.
  intros [Hc _]. unfold config in Hc. injection Hc. intros _ _ _ -> _. apply d0_ready.
Qed.

Lemma like_polarity (s : Decoder) : configured_like d0 s -> polarity s <> None.
Proof.
  intros [Hc _]. unfold config in Hc. injection Hc. intros -> _ _ _ _. apply d0_ready.
Qed.

Lemma sat_add_bit_ready (bit : Z) (bs be : Q) :
  sat (past_first_sample d0) P no_exception (add_bit bit bs be).
Proof.
  intros s [[Hc Hf] Ho].
  destruct (add_bit_safe bit bs be s Hf) as [Hr Hf'].
  assert (He := add_bit_keeps_edge bit bs be s).
  repeat split.
  - rewrite (edge_config _ _ He). exact Hc.
  - apply Hf'.
  - apply Hf'.
  - apply Hf'.
  - rewrite (edge_oldpin _ _ He). exact Ho.
  - apply Forall_forall. intros a _. apply P_any.
  - intros e H. congruence.
Qed.

Lemma sat_polarity :
  sat (past_first_sample d0) P no_exception (attr "polarity" polarity).
Proof.
  intros s Hs. assert (Hp := like_polarity s (proj1 Hs)).
  unfold attr. destruct (polarity s); [| congruence].
  cbn. repeat split; auto; try apply Hs. intros e H. discriminate.
Qed.

Ltac ready_step :=
  lazymatch goal with
  | |- sat _ _ _ (bind (gets samplerate) _) =>
      apply (sat_bind_gets _ _ _ (fun a => falsy a = false));
      [ intros ? HJ; apply like_samplerate, HJ | intros ? ? ]
  | |- sat _ _ _ (bind (gets oldpin) _) =>
      apply (sat_bind_gets _ _ _ (fun a => a <> None));
      [ intros ? HJ; apply HJ | intros ? ? ]
  | |- sat _ _ _ (attr _ _) => apply sat_polarity
  | |- sat _ _ _ (add_bit _ _ _) => apply sat_add_bit_ready
  | |- sat _ _ _ (lift (true_div (Some ?x) ?sr)) =>
      apply sat_lift; intros e He;
      match goal with
      | H : falsy sr = false |- _ => destruct (true_div_ok x sr H); congruence
      end
  | |- sat _ _ _ (match ?op with Some _ => _ | None => _ end) =>
      destruct op; [| congruence]
  | |- sat _ _ _ (modify _) =>
      apply sat_modify; intros z [[HJc HJf] HJo]; destruct z;
      (split; [split; [exact HJc | exact HJf] | first [exact HJo | discriminate]])
  | |- sat _ _ _ (emit _) => apply sat_emit; apply P_any
  | |- _ => sat_step
  end.

Lemma sat_manchester_decode (samplenum pl pp pin : Z) :
  sat (past_first_sample d0) P no_exception (manchester_decode samplenum pl pp pin).
Proof.
  unfold manchester_decode, putbit, put. repeat ready_step.
Qed.
Ltac sample_step :=
  lazymatch goal with
  | |- sat _ _ _ (manchester_decode _ _ _ _) => apply sat_manchester_decode
  | |- _ => ready_step
  end.

Lemma sat_decode_sample_ready (x : Z * Z) :
  sat (configured_like d0) P no_exception (decode_sample x).
Proof.
  intros s Hs. unfold decode_sample. rewrite bind_gets.
  destruct (same_pin (oldpin s) (snd x)).
  { cbn. repeat split; try apply Hs; auto. intros e H. discriminate. }
  rewrite bind_gets. destruct (oldpin s) as [o |] eqn:Hop.
  - apply (sat_weaken (configured_like d0) (past_first_sample d0)).
    + repeat sample_step.
    + split; [exact Hs | congruence].
    + intros s' H. apply H.
  - destruct Hs as [Hc Hf]. destruct s. cbn.
    repeat split; try apply Hf; auto. intros e H. discriminate.
Qed.
End Ready.

Lemma ready_configured : ready configured.
Proof. repeat split; cbn; auto with arith; discriminate. Qed.



(** ** The configuration step *)

Lemma metadata_run (key value : Z) (d : Decoder) :
  metadata key value d =
    let d1 := after_key key value d in
    match int_str (opt_coilfreq (options d)) with
    | Raise e => (Raise e, d1, [])
    | Ok cf =>
        match true_div (samplerate d1) (Some cf) with
        | Raise e => (Raise e, d1, [])
        | Ok q =>
            match int_str (opt_datarate (options d)) with
            | Raise e => (Raise e, d1, [])
            | Ok dr =>
                let bw := (q * inject_Z dr)%Q in
                (Ok tt,
                 set_polarity
                   (Some (if String.eqb (opt_polarity (options d)) "active-low"
                          then 0 else 1))
                   (set_halfbit_limit (bw / 2 + bw / 4)%Q (set_bit_width bw d1)),
                 [])
            end
        end
    end.
Proof.
  unfold metadata, after_key. destruct d. cbn [options].
  destruct (key =? SRD_CONF_SAMPLERATE);
    unfold bind, gets, modify, when, ret, lift; cbn [set_samplerate options samplerate];
    destruct (int_str (opt_coilfreq options0)) as [cf | e]; try reflexivity;
    match goal with
    | |- context [true_div ?a ?b] => destruct (true_div a b) as [q | e]
    end; try reflexivity;
    destruct (int_str (opt_datarate options0)) as [dr | e]; reflexivity.
Qed.





(** ** One symbol per pulse *)

Lemma putbit_keeps_edge (bit : Z) (bs be : Q) (d : Decoder) :
  edge (object_of (putbit bit bs be d)) = edge d.
Proof.
  refine (sat_object (fun s => edge s = edge d) (fun _ => True) (fun _ => True)
            (putbit bit bs be) d _ eq_refl).
  unfold putbit, put. apply sat_bind; [now apply sat_emit | intros _].
  apply sat_add_bit; [| auto | exact I].
  intros s s' He Hs. congruence.
Qed.

Lemma edge_pulse (s s' : Decoder) :
  edge s' = edge s ->
  oldpl s' = oldpl s /\ halfbit_limit s' = halfbit_limit s.
Proof. unfold edge. intros H. injection H. intros. split; congruence. Qed.

Lemma putbit_then_mark_keeps_pulse (bit pos : Z) (bs be : Q) (d : Decoder) :
  let s' := object_of ((putbit bit bs be ;;; modify (set_last_bit_pos pos)) d) in
  oldpl s' = oldpl d /\ halfbit_limit s' = halfbit_limit d.
Proof.
  cbn zeta. destruct (edge_pulse _ _ (putbit_keeps_edge bit bs be d)) as [H1 H2].
  unfold bind, modify. destruct (putbit bit bs be d) as [[[[] | e] s1] o1]; cbn in *;
    [| now split].
  destruct s1. now split.
Qed.

Lemma le_not_long (lim : Q) (x : Z) :
  Qle_bool (inject_Z x) lim = negb (is_long lim x).
Proof. unfold is_long, Qltb. now rewrite negb_involutive. Qed.

(** The four sequential tests of [manchester_decode] select at most one
    branch. *)
Lemma manchester_decode_run (d : Decoder) (samplenum pl pp pin level pol : Z) :
  oldpin d = Some level -> polarity d = Some pol -> falsy (samplerate d) = false ->
  manchester_decode samplenum pl pp pin d =
    match pulse_symbol d samplenum pl with
    | Some (start, stop) =>
        (putbit (Z.lxor level pol) start (inject_Z stop) ;;;
         modify (set_last_bit_pos stop)) d
    | None => (Ok tt, d, [])
    end.
Proof.
  intros Hpin Hpol Hsr.
  destruct (true_div_ok (samplenum - oldsamplenum d) _ Hsr) as [q Hq].
  unfold manchester_decode, pulse_symbol.
  rewrite bind_gets, bind_attr, Hpol, Hpin, bind_ret, bind_gets.
  destruct (is_long (halfbit_limit d) pl) eqn:Hlong; cbn [when].
  - match goal with
    | |- bind ?m ?k d = ?rhs => assert (HX : m d = rhs)
    end.
    { rewrite !bind_gets, Hq, bind_lift_ok, !bind_gets.
      destruct (is_long (halfbit_limit d) (oldpl d)) eqn:Hprev; cbn [when].
      - set (start := inject_Z (int_float (inject_Z (oldsamplenum d) - half (oldpl d))%Q)).
        set (stop := inject_Z (int_float (inject_Z samplenum - half pl)%Q)).
        rewrite (bind_cong _ (putbit (Z.lxor level pol) start stop) _ d)
          by now rewrite !bind_gets.
        apply bind_ext_on. intros [] s1 o1 Hrun.
        assert (He := putbit_keeps_edge (Z.lxor level pol) start stop d).
        rewrite Hrun in He. cbn in He. destruct (edge_pulse _ _ He) as [H1 H2].
        rewrite !bind_gets, H1, H2, le_not_long, Hprev. cbn [negb when].
        now rewrite bind_ret.
      - rewrite bind_ret, !bind_gets, le_not_long, Hprev. cbn [negb when].
        apply bind_cong. now rewrite !bind_gets. }
    rewrite (bind_cong _ _ _ _ HX).
    apply (bind_skip (fun s => halfbit_limit s = halfbit_limit d)).
    + apply putbit_then_mark_keeps_pulse.
    + intros s' Hs'. rewrite bind_gets, Hs', (long_not_short _ _ Hlong). reflexivity.
  - rewrite bind_ret, bind_gets.
    destruct (is_short (halfbit_limit d) pl) eqn:Hshort; cbn [when]; [| reflexivity].
    rewrite !bind_gets, Hq, bind_lift_ok, !bind_gets.
    destruct (is_long (halfbit_limit d) (oldpl d)) eqn:Hprev; cbn [when].
    + rewrite (bind_cong _ (putbit (Z.lxor level pol)
                               (inject_Z (oldsamplenum d) - half (oldpl d))%Q
                               (inject_Z samplenum) ;;;
                             modify (set_last_bit_pos samplenum)) _ d)
        by now rewrite !bind_gets.
      apply (bind_skip (fun s => oldpl s = oldpl d /\ halfbit_limit s = halfbit_limit d)).
      * apply putbit_then_mark_keeps_pulse.
      * intros s' [H1 H2]. rewrite !bind_gets, H1, H2, le_not_long, Hprev. reflexivity.
    + rewrite bind_ret, !bind_gets, le_not_long, Hprev. cbn [negb when].
      rewrite !bind_gets.
      destruct (last_bit_pos d <=? oldsamplenum d - oldpl d); cbn [when];
        [now rewrite !bind_gets | reflexivity].
Qed.



(** ** Counting the bit annotations *)

Lemma count_bits_app (a b : list annotation) :
  count_bits (a ++ b) = (count_bits a + count_bits b)%nat.
Proof. unfold count_bits. now rewrite filter_app, length_app. Qed.

Lemma count_bits_fields (l : list annotation) :
  Forall (fun a => ann_class a <> 0) l -> count_bits l = 0%nat.
Proof.
  unfold count_bits. induction 1 as [| a l Ha _ IH]; [reflexivity |].
  now rewrite filter_cons_False.
Qed.

Lemma add_bit_fields (bit : Z) (bs be : Q) (d : Decoder) :
  Forall (fun a => ann_class a <> 0) (output_of (add_bit bit bs be d)).
Proof.
  refine (sat_output (fun _ => True) (fun a => ann_class a <> 0) (fun _ => True)
            (add_bit bit bs be) d _ I).
  apply sat_add_bit; auto.
Qed.

Lemma count_bits_putbit (bit pos : Z) (bs be : Q) (d : Decoder) :
  count_bits (output_of ((putbit bit bs be ;;; modify (set_last_bit_pos pos)) d)) = 1%nat.
Proof.
  rewrite output_bind_silent by reflexivity.
  unfold putbit, put, bind, emit.
  assert (H := count_bits_fields _ (add_bit_fields bit bs be d)).
  destruct (add_bit bit bs be d) as [[r s2] o2]. cbn in H |- *.
  unfold count_bits in *.
  destruct (decide (0 = 0)) as [_ | Hne]; [| now destruct Hne].
  exact (f_equal S H).
Qed.

Lemma true_div_falsy (x : Z) (sr : option Z) :
  falsy sr = true -> exists e, true_div (Some x) sr = Raise e.
Proof.
  destruct sr as [v |]; cbn; [| now eexists].
  intros ->. now eexists.
Qed.

Lemma bind_fail {S A B : Type} (m : M S A) (k : A -> M S B) (s : S) (e : exn) :
  m s = (Raise e, s, []) -> bind m k s = (Raise e, s, []).
Proof. intros H. unfold bind. now rewrite H. Qed.

(** Without a samplerate the division comes before any symbol. *)
Lemma manchester_decode_unconfigured (d : Decoder) (samplenum pl pp pin : Z) :
  falsy (samplerate d) = true ->
  output_of (manchester_decode samplenum pl pp pin d) = [].
Proof.
  intros Hsr.
  destruct (true_div_falsy (samplenum - oldsamplenum d) _ Hsr) as [e He].
  unfold manchester_decode. rewrite bind_gets, bind_attr.
  destruct (polarity d) as [pol |]; [| reflexivity].
  destruct (oldpin d) as [level |]; [rewrite bind_ret | reflexivity].
  rewrite bind_gets.
  destruct (is_long (halfbit_limit d) pl); cbn [when].
  - erewrite bind_fail; [reflexivity |].
    rewrite !bind_gets, He. reflexivity.
  - rewrite bind_ret, bind_gets.
    destruct (is_short (halfbit_limit d) pl); cbn [when]; [| reflexivity].
    rewrite !bind_gets, He. reflexivity.
Qed.

Lemma count_bits_manchester_decode (d : Decoder) (samplenum pl pp pin : Z) :
  (count_bits (output_of (manchester_decode samplenum pl pp pin d)) <= 1)%nat.
Proof.
  destruct (falsy (samplerate d)) eqn:Hsr.
  { rewrite manchester_decode_unconfigured by assumption. cbn. lia. }
  destruct (polarity d) as [pol |] eqn:Hpol.
  2:{ unfold manchester_decode. rewrite bind_gets, bind_attr, Hpol. cbn. lia. }
  destruct (oldpin d) as [level |] eqn:Hpin.
  2:{ unfold manchester_decode. rewrite bind_gets, bind_attr, Hpol, Hpin. cbn. lia. }
  rewrite (manchester_decode_run d samplenum pl pp pin level pol Hpin Hpol Hsr).
  destruct (pulse_symbol d samplenum pl) as [[start stop] |].
  - now rewrite count_bits_putbit.
  - cbn. lia.
Qed.

Lemma count_bits_decode_sample (x : Z * Z) (d : Decoder) :
  (count_bits (output_of (decode_sample x d)) <= 1)%nat.
Proof.
  destruct x as [samplenum pin].
  destruct (output_decode_sample d samplenum pin) as [H | (o & _ & _ & H)];
    rewrite H; [cbn; lia | apply count_bits_manchester_decode].
Qed.

Lemma count_bits_samples (data : list (Z * Z)) :
  forall d, (count_bits (output_of (for_each data decode_sample d)) <= length data)%nat.
Proof.
  induction data as [| x data IH]; intros d; [cbn; lia |].
  assert (H1 := count_bits_decode_sample x d).
  cbn [for_each length]. unfold bind.
  destruct (decode_sample x d) as [[[[] | e] s1] o1];
    cbn [output_of fst snd] in H1 |- *; [| lia].
  specialize (IH s1).
  destruct (for_each data decode_sample s1) as [[r s2] o2].
  cbn [output_of fst snd] in IH |- *.
  rewrite count_bits_app. lia.
Qed.

(** X18.  At most one bit per sample.  Whatever the decoder object and the
    samples are, one sample adds at most one bit annotation (class 0) to
    the output, so a call of [decode] emits at most as many bits as it is
    given samples, also when it ends in an exception. *)
Theorem one_bit_per_sample (d : Decoder) (ss es : Z) (data : list (Z * Z)) :
  (forall x, (count_bits (output_of (decode_sample x d)) <= 1)%nat) /\
  (count_bits (output_of (decode ss es data d)) <= length data)%nat.
Proof.
  split; [intros x; apply count_bits_decode_sample |].
  unfold decode. rewrite bind_gets.
  destruct (falsy (samplerate d)); [cbn; lia | apply count_bits_samples].
Qed.

(** ** The annotation classes *)

Ltac class_step :=
  first
    [ apply sat_emit; reflexivity
    | apply sat_modify; auto
    | apply sat_item; exact I
    | apply sat_store; exact I
    | apply sat_attr; exact I
    | apply sat_true_div; exact I
    | apply sat_raise; exact I
    | apply sat_lift; intros; exact I
    | sat_step
    | match goal with
      | |- sat _ _ _ (match ?x with _ => _ end) => destruct x
      end ].

Lemma sat_add_bit_classes (bit : Z) (bs be : Q) :
  sat (fun _ => True) used_class (fun _ => True) (add_bit bit bs be).
Proof.
  unfold add_bit, add_bit_header, add_bit_payload, add_bit_trailer, columns_match, put.
  repeat class_step.
Qed.

Lemma sat_decode_classes (ss es : Z) (data : list (Z * Z)) :
  sat (fun _ => True) used_class (fun _ => True) (decode ss es data).
Proof.
  unfold decode, decode_sample, manchester_decode, putbit, put.
  repeat first [apply sat_add_bit_classes | class_step].
Qed.

(** X19.  The annotation classes.  Every annotation of [decode], on any
    decoder object and any samples, has one of the classes 0 (bit), 1
    (header), 2 (data field), 3 (nibble value), 4 (parity field, which the
    column parity and the stop bit use as well) and 6 (parity verdict):
    class 5, declared as the stop bit, is never emitted, nor is any class
    beyond the seven declared. *)
Theorem annotation_classes (d : Decoder) (ss es : Z) (data : list (Z * Z)) :
  Forall used_class (output_of (decode ss es data d)) /\
  Forall (fun a => ann_class a <> 5 /\ 0 <= ann_class a < 7)
         (output_of (decode ss es data d)).
Proof.
  assert (H : Forall used_class (output_of (decode ss es data d)))
    by (exact (sat_output _ _ _ _ d (sat_decode_classes ss es data) I)).
  split; [exact H |].
  eapply Forall_impl; [exact H |].
  intros a Ha. unfold used_class in Ha. cbn in Ha.
  repeat match type of Ha with
         | (?x =? ?n) || _ = true =>
             destruct (Z.eqb_spec x n) as [-> | _]; [split; [discriminate | lia] |];
             cbn in Ha
         end.
  discriminate.
Qed.

(** ** Samples handed over in several calls *)

Lemma for_each_app_raise {S A : Type} (body : A -> M S unit) (l1 l2 : list A) :
  forall (s s1 : S) (o1 : list annotation) (e : exn),
  for_each l1 body s = (Raise e, s1, o1) ->
  for_each (l1 ++ l2)%list body s = (Raise e, s1, o1).
Proof.
  induction l1 as [| x l1 IH]; intros s s1 o1 e H; [discriminate |].
  cbn in H |- *. unfold bind in H |- *.
  destruct (body x s) as [[[[] | e'] sa] oa]; [| exact H].
  destruct (for_each l1 body sa) as [[[[] | e'] sb] ob] eqn:Ha; [discriminate |].
  inversion H; subst. now rewrite (IH sa s1 ob e Ha).
Qed.

Lemma sat_decode_sample_samplerate (d : Decoder) (x : Z * Z) :
  sat (fun s => samplerate s = samplerate d) (fun _ => True) (fun _ => True)
      (decode_sample x).
Proof.
  unfold decode_sample, manchester_decode, putbit, put.
  repeat first
    [ apply sat_add_bit;
      [intros s s' He Hs; rewrite <- Hs; unfold edge in He; congruence | auto | exact I]
    | apply sat_modify; intros s Hs; destruct s; exact Hs
    | apply sat_emit; exact I
    | apply sat_attr; exact I
    | apply sat_true_div; exact I
    | apply sat_raise; exact I
    | sat_step
    | match goal with
      | |- sat _ _ _ (match ?x with _ => _ end) => destruct x
      end ].
Qed.

Lemma samples_keep_samplerate (data : list (Z * Z)) (d : Decoder) :
  samplerate (object_of (for_each data decode_sample d)) = samplerate d.
Proof.
  refine (sat_object (fun s => samplerate s = samplerate d) (fun _ => True)
            (fun _ => True) _ d _ eq_refl).
  apply sat_for_each. intros x. apply sat_decode_sample_samplerate.
Qed.

(** X20.  Samples handed over in several calls.  [decode] does not read
    its [ss] and [es], and it keeps everything it needs between two calls
    in the decoder object: when the call on the first part of the samples
    returns normally, the call on the rest, made on the object the first
    call left, ends the way one call on all the samples does, with the
    same object and the two outputs one after the other.  When the call on
    the first part raises, the call on all the samples raises the same
    exception at the same point. *)
Theorem decode_in_chunks (d : Decoder) (ss es ss1 es1 ss2 es2 : Z)
    (data1 data2 : list (Z * Z)) :
  let first := decode ss1 es1 data1 d in
  let second := decode ss2 es2 data2 (object_of first) in
  (result_of first = Ok tt ->
   decode ss es (data1 ++ data2) d =
     (result_of second, object_of second, (output_of first ++ output_of second)%list)) /\
  (forall e, result_of first = Raise e ->
   decode ss es (data1 ++ data2) d = first).
Proof.
  cbn zeta. unfold decode. rewrite !bind_gets.
  destruct (falsy (samplerate d)) eqn:Hsr.
  { split; [discriminate | reflexivity]. }
  assert (Hkeep := samples_keep_samplerate data1 d).
  destruct (for_each data1 decode_sample d) as [[r1 s1] o1] eqn:E1.
  cbn [result_of object_of output_of fst snd] in *.
  split.
  - intros ->. rewrite Hkeep, Hsr.
    destruct (for_each data2 decode_sample s1) as [[r2 s2] o2] eqn:E2.
    exact (for_each_app_run _ _ _ _ _ _ _ _ _ E1 E2).
  - intros e ->. exact (for_each_app_raise _ _ _ _ _ _ _ E1).
Qed.

Lemma decode_in_chunks_witness :
  decode 0 857 ([(0, 0); (600, 1)] ++ [(856, 0)]) configured =
    (Ok tt,
     object_of (decode 601 857 [(856, 0)]
                  (object_of (decode 0 601 [(0, 0); (600, 1)] configured))),
     [Ann 0 300 0 ["1"]; Ann 300 856 0 ["0"]]).
Proof.
  exact (proj1 (decode_in_chunks configured 0 857 0 601 601 857
                  [(0, 0); (600, 1)] [(856, 0)]) eq_refl).
Defined.

End Em4100More.
